(** * The NCCL example tuner plugin: cost model and algorithm selection

    Shallow embedding of [src/ext-tuner/example/nccl/tuner.h] (the static
    latency tables, [log2i] and [nccl_tuner_compute_cost]) and of
    [src/ext-tuner/example/plugin.c] ([pluginInit], [pluginGetCollInfo],
    [pluginDestroy] and the table of entry points [ncclTunerPlugin_v2]).

    Conventions of the embedding.
    - C [float] is IEEE-754 binary32 and C [double] is binary64, both with
      round-to-nearest-even, every operation rounded to its own type (no
      excess precision, no contraction to fused multiply-add).  The
      operations are those of the standard library's [SpecFloat], instantiated
      at precision 24 / 53.
    - C [int] is a 32 bit two's complement integer; arithmetic on it is
      written with its wrap-around ([wrap32]).  [long] and [size_t] are
      64 bit wide.
    - A computation without a defined result in C (an index outside a table,
      an integer division by zero, the loop of [log2i] on a negative
      argument, which never ends) is [None].
    - The [printf] of the default branch of the cost function writes to
      standard output only; standard output is not part of the state
      modelled here. *)

From Stdlib Require Import String.
From Stdlib Require Import ZArith List Bool Lia.
From Stdlib Require Import Floats.SpecFloat.
Import ListNotations.
Local Open Scope Z_scope.

(** ** Machine integers *)

Definition wrap32 (z : Z) : Z := (z + 2 ^ 31) mod 2 ^ 32 - 2 ^ 31.
Definition wrap64 (z : Z) : Z := (z + 2 ^ 63) mod 2 ^ 64 - 2 ^ 63.

Definition INT_MIN : Z := - 2 ^ 31.
Definition INT_MAX : Z := 2 ^ 31 - 1.
Definition SIZE_MAX : Z := 2 ^ 64 - 1.

Definition int_range (z : Z) : Prop := INT_MIN <= z <= INT_MAX.
Definition size_range (z : Z) : Prop := 0 <= z <= SIZE_MAX.

Definition int_sub (a b : Z) : Z := wrap32 (a - b).
Definition int_mul (a b : Z) : Z := wrap32 (a * b).

(** [a / b] on [int]: truncation towards zero; no result for a zero divisor
    and for [INT_MIN / -1]. *)
Definition int_div (a b : Z) : option Z :=
  if b =? 0 then None
  else if (a =? INT_MIN) && (b =? -1) then None
  else Some (Z.quot a b).

(** ** Floating point *)

Module Binary32.
Definition prec : Z := 24.
Definition emax : Z := 128.
Definition float : Type := spec_float.

Definition add : float -> float -> float := SFadd prec emax.
Definition mul : float -> float -> float := SFmul prec emax.
Definition div : float -> float -> float := SFdiv prec emax.
Definition ltb : float -> float -> bool := SFltb.
Definition leb : float -> float -> bool := SFleb.
Definition eqb : float -> float -> bool := SFeqb.

(** Conversion of an integer (of any integer type) to [float]. *)
Definition of_Z (n : Z) : float := binary_normalize prec emax n 0 false.

Definition zero : float := S754_zero false.
Definition minus_one : float := Eval vm_compute in of_Z (-1).

(** [FLT_MAX] of <float.h>: (2^24 - 1) * 2^104. *)
Definition FLT_MAX : float := S754_finite false (2 ^ 24 - 1) 104.
End Binary32.

Module Binary64.
Definition prec : Z := 53.
Definition emax : Z := 1024.
Definition double : Type := spec_float.

Definition mul : double -> double -> double := SFmul prec emax.
Definition div : double -> double -> double := SFdiv prec emax.
Definition of_Z (n : Z) : double := binary_normalize prec emax n 0 false.

(** The decimal constant [num / den] (both exactly representable) as the
    compiler reads it: the nearest [double]. *)
Definition decimal (num den : Z) : double := div (of_Z num) (of_Z den).
End Binary64.

Definition float : Type := Binary32.float.
Definition double : Type := Binary64.double.

(** Conversions between the two formats: [(float) d] rounds, [(double) f] is
    exact and only renormalises the mantissa. *)
Definition float_of_double (d : double) : float :=
  match d with
  | S754_finite s m e => binary_round Binary32.prec Binary32.emax s m e
  | _ => d
  end.

Definition double_of_float (f : float) : double :=
  match f with
  | S754_finite s m e => binary_round Binary64.prec Binary64.emax s m e
  | _ => f
  end.

(** A [float] object initialised from the decimal constant [num / den]. *)
Definition flit (num den : Z) : float :=
  float_of_double (Binary64.decimal num den).

(** [f *= d] for a [float] object and a [double] constant: the product is
    formed in [double] and stored back as [float]. *)
Definition mul_assign_double (f : float) (d : double) : float :=
  float_of_double (Binary64.mul (double_of_float f) d).

(** ** tuner.h: enumerations and constants *)

Inductive ncclResult_t : Type := ncclSuccess | ncclInternalError.

Inductive ncclFunc_t : Type :=
| ncclFuncBroadcast | ncclFuncReduce | ncclFuncAllGather
| ncclFuncReduceScatter | ncclFuncAllReduce | ncclFuncSendRecv
| ncclFuncSend | ncclFuncRecv | ncclNumFuncs.

Definition NCCL_NUM_ALGORITHMS : Z := 6.
Definition NCCL_ALGO_TREE : Z := 0.
Definition NCCL_ALGO_RING : Z := 1.
Definition NCCL_ALGO_COLLNET_DIRECT : Z := 2.
Definition NCCL_ALGO_COLLNET_CHAIN : Z := 3.
Definition NCCL_ALGO_NVLS : Z := 4.
Definition NCCL_ALGO_NVLS_TREE : Z := 5.

Definition NCCL_NUM_PROTOCOLS : Z := 3.
Definition NCCL_PROTO_LL : Z := 0.
Definition NCCL_PROTO_LL128 : Z := 1.
Definition NCCL_PROTO_SIMPLE : Z := 2.

(** Base algorithm latencies, [nccl_base_lat[algo][proto]]. *)
Definition nccl_base_lat : list (list float) := Eval vm_compute in
  [ [ flit 68 10; flit 14 1; flit 0 1 ]     (* Tree *)
  ; [ flit 66 10; flit 14 1; flit 84 10 ]   (* Ring *)
  ; [ flit 0 1; flit 0 1; flit 0 1 ]        (* Collnet Direct *)
  ; [ flit 0 1; flit 0 1; flit 0 1 ]        (* Collnet Chain *)
  ; [ flit 0 1; flit 0 1; flit 0 1 ]        (* NVLS *)
  ; [ flit 0 1; flit 0 1; flit 0 1 ] ].     (* NVLS Tree *)

(** NVLink latencies, [nccl_nvlink_lat[algo][proto]]. *)
Definition nccl_nvlink_lat : list (list float) := Eval vm_compute in
  [ [ flit 6 10; flit 125 100; flit 28 1 ]  (* Tree *)
  ; [ flit 6 10; flit 19 10; flit 34 10 ]   (* Ring *)
  ; [ flit 0 1; flit 0 1; flit 37 10 ]      (* CollNetDirect *)
  ; [ flit 0 1; flit 0 1; flit 28 10 ]      (* CollNetChain *)
  ; [ flit 0 1; flit 0 1; flit 25 1 ]       (* NVLS *)
  ; [ flit 0 1; flit 0 1; flit 25 1 ] ].    (* NVLSTree *)

(** [t[a][p]]; no result outside the table. *)
Definition table_get (t : list (list float)) (a p : Z) : option float :=
  if (a <? 0) || (p <? 0) then None
  else match nth_error t (Z.to_nat a) with
       | Some row => nth_error row (Z.to_nat p)
       | None => None
       end.

Definition NCCL_TUNER_NET_LAT : Z := 3.
Definition NCCL_TUNER_NET_NUM_CHANNELS : Z := 16.

(** [50.0 * 1024ULL * 1024ULL * 1024ULL * 1e-6], evaluated in [double]. *)
Definition NCCL_TUNER_INTERNODE_BW : double := Eval vm_compute in
  Binary64.mul
    (Binary64.mul
       (Binary64.mul
          (Binary64.mul (Binary64.decimal 50 1) (Binary64.of_Z 1024))
          (Binary64.of_Z 1024))
       (Binary64.of_Z 1024))
    (Binary64.decimal 1 1000000).

(** [20.0 * 1024 * 1024 * 1024 * 1e-6], evaluated in [double]. *)
Definition NCCL_TUNER_INTRANODE_BW : double := Eval vm_compute in
  Binary64.mul
    (Binary64.mul
       (Binary64.mul
          (Binary64.mul (Binary64.decimal 20 1) (Binary64.of_Z 1024))
          (Binary64.of_Z 1024))
       (Binary64.of_Z 1024))
    (Binary64.decimal 1 1000000).

Record nccl_tuner_model_params : Type := {
  net_lat : float;
  internode_bw : float;
  intranode_bw : float;
  num_channels : Z
}.

Record nccl_tuner_model_dims : Type := {
  num_ranks : Z;
  num_nodes : Z
}.

Record nccl_tuner_context : Type := {
  dims : nccl_tuner_model_dims;
  params : nccl_tuner_model_params
}.

(** ** tuner.h: [log2i] *)

(** One test of the loop condition [n >>= 1] followed, when it is non-zero,
    by [l++]; [fuel] bounds the number of tests. *)
Fixpoint log2i_loop (fuel : nat) (n l : Z) : option Z :=
  match fuel with
  | O => None
  | S fuel' =>
      let n' := Z.shiftr n 1 in
      if n' =? 0 then Some l else log2i_loop fuel' n' (wrap64 (l + 1))
  end.

(** A [long] has 64 bits: 64 tests are enough whenever the loop ends. *)
Definition log2i (n : Z) : option Z := log2i_loop 64 n 0.

(** ** tuner.h: [nccl_tuner_compute_cost] *)

(** How the [switch] statements are left: by a [return], or by [break]
    with the latency and the bandwidth of the model. *)
Inductive switch_exit : Type :=
| Return (cost : float)
| Break (latency bw : float).

Definition bind {A B : Type} (x : option A) (k : A -> option B) : option B :=
  match x with
  | Some a => k a
  | None => None
  end.

Notation "x <- c ;; k" := (bind c (fun x => k))
  (at level 61, c at next level, right associativity).

Definition cost_switch (params : nccl_tuner_model_params)
    (dims : nccl_tuner_model_dims) (func : ncclFunc_t) (algo : Z)
    (latency intraLat interLat : float) : option switch_exit :=
  match func with
  | ncclFuncAllReduce =>
      if algo =? NCCL_ALGO_RING then
        let num_steps := int_mul 2 (int_sub (num_ranks dims) 1) in
        let num_internode_steps := int_mul 2 (num_nodes dims) in
        let num_intranode_steps := int_sub num_steps num_internode_steps in
        let latency :=
          Binary32.add latency
            (Binary32.add
               (Binary32.mul (Binary32.of_Z num_internode_steps) interLat)
               (Binary32.mul (Binary32.of_Z num_intranode_steps) intraLat)) in
        let bw :=
          Binary32.mul (internode_bw params)
            (Binary32.of_Z (num_channels params)) in
        Some (Break latency bw)
      else if algo =? NCCL_ALGO_TREE then
        q <- int_div (num_ranks dims) (num_nodes dims) ;;
        l <- log2i (num_nodes dims) ;;
        let latency :=
          Binary32.add latency
            (Binary32.mul (Binary32.of_Z 2)
               (Binary32.add
                  (Binary32.mul (Binary32.of_Z (int_sub q 1)) intraLat)
                  (Binary32.mul (Binary32.of_Z l) interLat))) in
        let bw :=
          Binary32.div
            (Binary32.mul (internode_bw params)
               (Binary32.of_Z (num_channels params)))
            (Binary32.of_Z 2) in
        Some (Break latency bw)
      else if algo =? NCCL_ALGO_NVLS_TREE then
        l <- log2i (num_nodes dims) ;;
        let latency :=
          Binary32.add latency
            (Binary32.add intraLat
               (Binary32.mul (Binary32.of_Z (wrap64 (2 * l))) interLat)) in
        let bw :=
          Binary32.div
            (Binary32.mul (internode_bw params)
               (Binary32.of_Z (num_channels params)))
            (Binary32.of_Z 2) in
        Some (Break latency bw)
      else Some (Return (Binary32.of_Z (-1)))
  | _ => Some (Return (Binary32.of_Z (-1)))
  end.

(** Penalty of the low-latency protocols on the bandwidth. *)
Definition protocol_penalty (proto : Z) (bw : float) : float :=
  if proto =? NCCL_PROTO_LL then
    mul_assign_double bw (Binary64.decimal 5 10)
  else if proto =? NCCL_PROTO_LL128 then
    mul_assign_double bw (Binary64.decimal 9375 10000)
  else bw.

Definition nccl_tuner_compute_cost (params : nccl_tuner_model_params)
    (dims : nccl_tuner_model_dims) (func : ncclFunc_t)
    (algo proto pipe_ops size : Z) : option float :=
  latency <- table_get nccl_base_lat algo proto ;;
  intraLat <- table_get nccl_nvlink_lat algo proto ;;
  let interLat := net_lat params in
  x <- cost_switch params dims func algo latency intraLat interLat ;;
  match x with
  | Return c => Some c
  | Break latency bw =>
      let bw := protocol_penalty proto bw in
      Some (Binary32.add
              (Binary32.mul latency (Binary32.of_Z pipe_ops))
              (Binary32.div (Binary32.of_Z size) bw))
  end.

(** ** plugin.c: [pluginInit] *)

(** The [const struct nccl_tuner_model_params params] of [pluginInit]. *)
Definition session_params : nccl_tuner_model_params :=
  {| net_lat := Binary32.of_Z NCCL_TUNER_NET_LAT;
     internode_bw := float_of_double NCCL_TUNER_INTERNODE_BW;
     intranode_bw := float_of_double NCCL_TUNER_INTRANODE_BW;
     num_channels := NCCL_TUNER_NET_NUM_CHANNELS |}.

(** [calloc_ok] says whether the allocation of the context succeeds.  The
    [size_t] arguments are stored into [int] fields. *)
Definition pluginInit (calloc_ok : bool) (nRanks nNodes : Z)
  : ncclResult_t * option nccl_tuner_context :=
  if calloc_ok then
    (ncclSuccess,
     Some {| dims := {| num_ranks := wrap32 nRanks;
                        num_nodes := wrap32 nNodes |};
             params := session_params |})
  else (ncclInternalError, None).

(** ** plugin.c: [pluginGetCollInfo] *)

(** The three [int] objects the output pointers refer to. *)
Record outputs : Type := {
  algorithm : Z;
  protocol : Z;
  nChannels : Z
}.

(** The local state of the search: the output objects, [lowest], and (ghost)
    the pairs the cost function was called with, latest first. *)
Record search_state : Type := {
  out : outputs;
  lowest : float;
  evaluated : list (Z * Z)
}.

(** [for (i = lo; i < lo + n; i++) body], a [continue] in [body] being the
    state it has reached. *)
Fixpoint for_loop {S : Type} (n : nat) (i : Z) (body : Z -> S -> option S)
    (s : S) : option S :=
  match n with
  | O => Some s
  | S n' => s' <- body i s ;; for_loop n' (i + 1) body s'
  end.

(** The part of the inner loop body behind the admissibility test: the call
    of the cost function and the update of the incumbent. *)
Definition visit_pair (ctx : nccl_tuner_context) (collType : ncclFunc_t)
    (nBytes numPipeOps algo : Z) (proto : Z) (st : search_state)
  : option search_state :=
  cost <- nccl_tuner_compute_cost (params ctx) (dims ctx) collType
            algo proto numPipeOps nBytes ;;
  let st := {| out := out st; lowest := lowest st;
               evaluated := (algo, proto) :: evaluated st |} in
  if Binary32.ltb cost (Binary32.of_Z 0) then Some st
  else if Binary32.ltb cost (lowest st) then
    Some {| out := {| algorithm := algo; protocol := proto;
                      nChannels := nChannels (out st) |};
            lowest := cost;
            evaluated := evaluated st |}
  else Some st.

Definition proto_body (ctx : nccl_tuner_context) (collType : ncclFunc_t)
    (nBytes numPipeOps algo : Z) (proto : Z) (st : search_state)
  : option search_state :=
  if (algo =? NCCL_ALGO_NVLS_TREE) && negb (proto =? NCCL_PROTO_SIMPLE)
  then Some st
  else visit_pair ctx collType nBytes numPipeOps algo proto st.

Definition algo_body (ctx : nccl_tuner_context) (collType : ncclFunc_t)
    (nBytes collNetSupport nvlsSupport numPipeOps : Z) (algo : Z)
    (st : search_state) : option search_state :=
  if algo =? NCCL_ALGO_NVLS then Some st
  else if (nvlsSupport =? 0) && (algo =? NCCL_ALGO_NVLS_TREE) then Some st
  else if (collNetSupport =? 0)
          && ((algo =? NCCL_ALGO_COLLNET_DIRECT)
              || (algo =? NCCL_ALGO_COLLNET_CHAIN)) then Some st
  else
    for_loop (Z.to_nat NCCL_NUM_PROTOCOLS) 0
      (proto_body ctx collType nBytes numPipeOps algo) st.

(** The result code, the output objects as the call leaves them, and (ghost)
    the pairs submitted to the cost function, in the order of the calls. *)
Definition pluginGetCollInfo (ctx : nccl_tuner_context)
    (collType : ncclFunc_t)
    (nBytes collNetSupport nvlsSupport numPipeOps : Z) (out0 : outputs)
  : option (ncclResult_t * outputs * list (Z * Z)) :=
  let st0 := {| out := out0; lowest := Binary32.FLT_MAX; evaluated := [] |} in
  if num_nodes (dims ctx) <=? 2 then Some (ncclSuccess, out0, [])
  else
    st <- for_loop (Z.to_nat NCCL_NUM_ALGORITHMS) 0
            (algo_body ctx collType nBytes collNetSupport nvlsSupport
               numPipeOps) st0 ;;
    Some (ncclSuccess, out st, rev (evaluated st)).

(** ** The specification's vocabulary *)

(** Indices inside the two tables. *)
Definition in_table (algo proto : Z) : Prop :=
  0 <= algo < NCCL_NUM_ALGORITHMS /\ 0 <= proto < NCCL_NUM_PROTOCOLS.

(** Case distinction on an index known to lie in a constant range. *)
Ltac split_index a :=
  match goal with
  | H : 0 <= a < ?n |- _ =>
      let n' := eval compute in n in
      change n with n' in H;
      assert (a = 0 \/ a = 1 \/ a = 2 \/ a = 3 \/ a = 4 \/ a = 5) as
        [-> | [-> | [-> | [-> | [-> | ->]]]]] by lia; try lia; clear H
  end.

(** The cost the engine sees for a pair. *)
Definition cost_of (ctx : nccl_tuner_context) (collType : ncclFunc_t)
    (nBytes numPipeOps : Z) (ap : Z * Z) : option float :=
  nccl_tuner_compute_cost (params ctx) (dims ctx) collType
    (fst ap) (snd ap) numPipeOps nBytes.

(** Admissibility rules of the selection engine, in the specification's
    words: the intra-node-only variant is always skipped, the fast-fabric
    tree needs [nvlsCapable], the offload variants need [collnetCapable],
    and the fast-fabric tree exists under the full-payload protocol only. *)
Definition admissible_algo (collnetCapable nvlsCapable : bool) (algo : Z)
  : bool :=
  negb (algo =? NCCL_ALGO_NVLS)
  && (nvlsCapable || negb (algo =? NCCL_ALGO_NVLS_TREE))
  && (collnetCapable
      || negb ((algo =? NCCL_ALGO_COLLNET_DIRECT)
               || (algo =? NCCL_ALGO_COLLNET_CHAIN))).

Definition compatible (algo proto : Z) : bool :=
  negb (algo =? NCCL_ALGO_NVLS_TREE) || (proto =? NCCL_PROTO_SIMPLE).

Definition all_pairs : list (Z * Z) :=
  list_prod [0; 1; 2; 3; 4; 5] [0; 1; 2].

(** The admissible pairs, in the order of enumeration. *)
Definition admissible (collnetCapable nvlsCapable : bool) : list (Z * Z) :=
  filter (fun ap => admissible_algo collnetCapable nvlsCapable (fst ap)
                    && compatible (fst ap) (snd ap))
    all_pairs.

(** The capability flags arrive as C truth values. *)
Definition truth (flag : Z) : bool := negb (flag =? 0).

(** The values of the counter of [for (i = lo; i < lo + n; i++)]. *)
Fixpoint counter_values (lo : Z) (n : nat) : list Z :=
  match n with
  | O => []
  | S n' => lo :: counter_values (lo + 1) n'
  end.

(** The admissible pairs of one algorithm. *)
Definition admissible_row (collnetCapable nvlsCapable : bool) (algo : Z)
  : list (Z * Z) :=
  filter (fun ap => admissible_algo collnetCapable nvlsCapable (fst ap)
                    && compatible (fst ap) (snd ap))
    [(algo, 0); (algo, 1); (algo, 2)].

(** Visiting a list of pairs one after the other. *)
Fixpoint visit_all (ctx : nccl_tuner_context) (collType : ncclFunc_t)
    (nBytes numPipeOps : Z) (l : list (Z * Z)) (st : search_state)
  : option search_state :=
  match l with
  | [] => Some st
  | ap :: l' =>
      st' <- visit_pair ctx collType nBytes numPipeOps (fst ap) (snd ap) st ;;
      visit_all ctx collType nBytes numPipeOps l' st'
  end.

(** A recommendation: algorithm and protocol written, channel count left
    as the caller passed it. *)
Definition recommend (out0 : outputs) (ap : Z * Z) : outputs :=
  {| algorithm := fst ap; protocol := snd ap; nChannels := nChannels out0 |}.

(** Contexts as [pluginInit] builds them. *)
Definition session (nRanks nNodes : Z) : nccl_tuner_context :=
  {| dims := {| num_ranks := wrap32 nRanks; num_nodes := wrap32 nNodes |};
     params := session_params |}.

(** ** The closed forms of the specification *)

(** Effective bandwidth of the ring model before the protocol penalty:
    inter-node bandwidth times channel count. *)
Definition ring_bandwidth (params : nccl_tuner_model_params) : float :=
  Binary32.mul (internode_bw params) (Binary32.of_Z (num_channels params)).

(** Total cost: [(totalLatency * pipelineDepth) + payloadBytes /
    effectiveBandwidth], the low-latency protocols paying their penalty on
    the bandwidth. *)
Definition total_cost (totalLatency : float) (pipelineDepth payloadBytes : Z)
    (proto : Z) (bandwidth : float) : float :=
  Binary32.add
    (Binary32.mul totalLatency (Binary32.of_Z pipelineDepth))
    (Binary32.div (Binary32.of_Z payloadBytes)
       (protocol_penalty proto bandwidth)).

(** Ring all-reduce: [2 * (rankCount - 1)] steps, [2 * nodeCount] of them at
    the inter-node latency and the remaining ones at the intra-node
    latency. *)
Definition ring_total_steps (rankCount : Z) : Z := 2 * (rankCount - 1).
Definition ring_internode_steps (nodeCount : Z) : Z := 2 * nodeCount.
Definition ring_intranode_steps (rankCount nodeCount : Z) : Z :=
  ring_total_steps rankCount - ring_internode_steps nodeCount.

Definition ring_latency (baseLatency intraLat interLat : float)
    (rankCount nodeCount : Z) : float :=
  Binary32.add baseLatency
    (Binary32.add
       (Binary32.mul (Binary32.of_Z (ring_internode_steps nodeCount))
          interLat)
       (Binary32.mul
          (Binary32.of_Z (ring_intranode_steps rankCount nodeCount))
          intraLat)).

(** The step counts of the ring model are representable as [int]. *)
Definition ring_steps_fit (rankCount nodeCount : Z) : Prop :=
  int_range (rankCount - 1) /\ int_range (ring_total_steps rankCount)
  /\ int_range (ring_internode_steps nodeCount)
  /\ int_range (ring_intranode_steps rankCount nodeCount).

(** Tree all-reduce: twice the sum of [rankCount / nodeCount - 1] intra-node
    hops and [log2 nodeCount] inter-node hops. *)
Definition tree_latency (baseLatency intraLat interLat : float)
    (rankCount nodeCount : Z) : float :=
  Binary32.add baseLatency
    (Binary32.mul (Binary32.of_Z 2)
       (Binary32.add
          (Binary32.mul (Binary32.of_Z (Z.quot rankCount nodeCount - 1))
             intraLat)
          (Binary32.mul (Binary32.of_Z (Z.log2 nodeCount)) interLat))).

(** Half the bandwidth of the ring. *)
Definition tree_bandwidth (params : nccl_tuner_model_params) : float :=
  Binary32.div (ring_bandwidth params) (Binary32.of_Z 2).

(** ** Reference semantics of rounding to binary32 *)

(** Every finite binary32 number is an integer multiple of [2^-149], the
    least positive one; [ulps x] is that multiple. *)
Definition ulps (x : float) : Z :=
  match x with
  | S754_finite s m e => cond_Zopp s (Zpos m * 2 ^ (e + 149))
  | _ => 0
  end.

(** Zeros and the finite numbers of the format. *)
Definition finite32 (x : float) : bool :=
  match x with
  | S754_zero _ => true
  | S754_finite _ m e => bounded Binary32.prec Binary32.emax m e
  | _ => false
  end.

(** Where the rational [N / D] lies between [N / D] rounded down and the
    next integer. *)
Definition loc_of (N D : Z) : location :=
  if N mod D =? 0 then loc_Exact else loc_Inexact (2 * (N mod D) ?= D).

Definition rec_of (N D : Z) : shr_record :=
  shr_record_of_loc (N / D) (loc_of N D).

(** The integer nearest to [N / D], ties to even. *)
Definition rne (N D : Z) : Z := round_nearest_even (N / D) (loc_of N D).

(** The binary32 number nearest to [N / D] units of [2^-149], ties to even,
    in the same units, for [0 <= N] and [0 < D]: at most 24 significant
    bits are kept. *)
Definition round_ulps (N D : Z) : Z :=
  let n := Z.max (Zdigits2 (N / D) - 24) 0 in
  rne N (D * 2 ^ n) * 2 ^ n.

(** The same for either sign. *)
Definition round_units (N D : Z) : Z :=
  if N <? 0 then - round_ulps (- N) D else round_ulps N D.

(** The first multiple of [2^-149] beyond the finite numbers. *)
Definition overflow_ulps : Z := 2 ^ 277.

(** The second half of [binary_round_aux]: the rounded mantissa [m] at
    exponent [e] is brought back to at most 24 bits and checked for
    overflow. *)
Definition pack32 (s : bool) (m e : Z) : float :=
  let '(mrs, e') := shr_fexp Binary32.prec Binary32.emax m e loc_Exact in
  match shr_m mrs with
  | Z0 => S754_zero s
  | Zpos p =>
      if e' <=? Binary32.emax - Binary32.prec then S754_finite s p e'
      else S754_infinity s
  | Zneg _ => S754_nan
  end.

(** The non-negative multiples of [2^-149] that binary32 represents, but
    for the bound on the exponent: at most 24 significant bits. *)
Definition representable (u : Z) : Prop :=
  0 <= u /\ u mod 2 ^ Z.max (Zdigits2 u - 24) 0 = 0.

(** Finite numbers of magnitude at most [2 ^ k]. *)
Definition within (k : Z) (x : float) : Prop :=
  finite32 x = true /\ Z.abs (ulps x) <= 2 ^ (k + 149).

(** ** What the search should return *)

(** [ap], of cost [c], is the first pair of [l] of minimum cost among the
    pairs of [l] of non-negative cost: the pairs before it cost strictly
    more, the pairs behind it at least as much. *)
Definition first_minimum (cost : Z * Z -> option float) (l : list (Z * Z))
    (ap : Z * Z) (c : float) : Prop :=
  exists before after,
    l = before ++ ap :: after
    /\ cost ap = Some c
    /\ Binary32.leb Binary32.zero c = true
    /\ (forall ap' c', In ap' before -> cost ap' = Some c' ->
                       Binary32.leb Binary32.zero c' = true ->
                       Binary32.ltb c c' = true)
    /\ (forall ap' c', In ap' after -> cost ap' = Some c' ->
                       Binary32.leb Binary32.zero c' = true ->
                       Binary32.leb c c' = true).

(** No pair of [l] has a non-negative cost. *)
Definition none_computable (cost : Z * Z -> option float) (l : list (Z * Z))
  : Prop :=
  forall ap c, In ap l -> cost ap = Some c ->
               Binary32.leb Binary32.zero c = false.

(** The costs of the pairs of [l] are finite numbers below [FLT_MAX]. *)
Definition costs_finite (cost : Z * Z -> option float) (l : list (Z * Z))
  : Prop :=
  forall ap, In ap l ->
    exists c, cost ap = Some c /\ finite32 c = true
              /\ ulps c < ulps Binary32.FLT_MAX.

(** The state of the search, started from the outputs [out0], after the
    pairs of [l]. *)
Definition searched (cost : Z * Z -> option float) (out0 : outputs)
    (l : list (Z * Z)) (st : search_state) : Prop :=
  (none_computable cost l /\ out st = out0
   /\ lowest st = Binary32.FLT_MAX)
  \/ (exists ap c, first_minimum cost l ap c
                   /\ out st = recommend out0 ap /\ lowest st = c).

(** Fast-fabric tree all-reduce: one intra-node latency and
    [2 * log2 nodeCount] inter-node latencies, the factor two applied to the
    ([long]) logarithm before the conversion to [float]. *)
Definition nvls_tree_latency (baseLatency intraLat interLat : float)
    (nodeCount : Z) : float :=
  Binary32.add baseLatency
    (Binary32.add intraLat
       (Binary32.mul (Binary32.of_Z (2 * Z.log2 nodeCount)) interLat)).

(** ** plugin.c: the contexts in memory

    [pluginInit] obtains the context from [calloc], [pluginGetCollInfo]
    reads it through the pointer it is handed, [pluginDestroy] gives it back
    with [free].  The heap below holds the blocks that are live contexts;
    reading through, or freeing, a non-null pointer that is not such a block
    has no defined result. *)

Definition pointer : Type := Z.
Definition NULL : pointer := 0.

(** The live contexts, latest allocation first. *)
Definition heap : Type := list (pointer * nccl_tuner_context).

Fixpoint load (h : heap) (p : pointer) : option nccl_tuner_context :=
  match h with
  | [] => None
  | (q, c) :: h' => if p =? q then Some c else load h' p
  end.

(** [free (p)]. *)
Definition release (h : heap) (p : pointer) : heap :=
  filter (fun b => negb (fst b =? p)) h.

Module Mem.

(** [block] is the pointer returned by [calloc], [context] the value of
    [*context] before the call; the result carries the heap and [*context]
    after the call. *)
Definition pluginInit (h : heap) (block : pointer) (nRanks nNodes : Z)
    (context : pointer) : ncclResult_t * heap * pointer :=
  if block =? NULL then (ncclInternalError, h, context)
  else
    (ncclSuccess,
     (block, {| dims := {| num_ranks := wrap32 nRanks;
                           num_nodes := wrap32 nNodes |};
                params := session_params |}) :: h,
     block).

(** The context is only read: the heap is as before the call. *)
Definition pluginGetCollInfo (h : heap) (context : pointer)
    (collType : ncclFunc_t)
    (nBytes collNetSupport nvlsSupport numPipeOps : Z) (out0 : outputs)
  : option (ncclResult_t * outputs * list (Z * Z)) :=
  ctx <- load h context ;;
  pluginGetCollInfo ctx collType nBytes collNetSupport nvlsSupport numPipeOps
    out0.

Definition pluginDestroy (h : heap) (context : pointer)
  : option (ncclResult_t * heap) :=
  if negb (context =? NULL) then
    match load h context with
    | Some _ => Some (ncclSuccess, release h context)
    | None => None
    end
  else Some (ncclSuccess, h).

End Mem.

(** ** plugin.c: the table of entry points *)

Record ncclTuner_v2_t : Type := {
  name : String.string;
  init : heap -> pointer -> Z -> Z -> pointer
         -> ncclResult_t * heap * pointer;
  getCollInfo : heap -> pointer -> ncclFunc_t -> Z -> Z -> Z -> Z -> outputs
                -> option (ncclResult_t * outputs * list (Z * Z));
  destroy : heap -> pointer -> option (ncclResult_t * heap)
}.

Definition PLUGIN_NAME : String.string := "azure-tuner"%string.

Definition ncclTunerPlugin_v2 : ncclTuner_v2_t :=
  {| name := PLUGIN_NAME;
     init := Mem.pluginInit;
     getCollInfo := Mem.pluginGetCollInfo;
     destroy := Mem.pluginDestroy |}.

(** ** The selection as a function of the costs *)

(** The pair kept after the pairs of [l], starting from the incumbent
    [best] of cost [low]: a pair replaces the incumbent when its cost is not
    negative and strictly below the incumbent's. *)
Fixpoint selection (cost : Z * Z -> option float) (l : list (Z * Z))
    (best : option (Z * Z)) (low : float) : option (option (Z * Z) * float) :=
  match l with
  | [] => Some (best, low)
  | ap :: l' =>
      c <- cost ap ;;
      if Binary32.ltb c Binary32.zero then selection cost l' best low
      else if Binary32.ltb c low then selection cost l' (Some ap) c
      else selection cost l' best low
  end.

(** The outputs after a call that kept [choice]. *)
Definition recommended (choice : option (Z * Z)) (out0 : outputs) : outputs :=
  match choice with
  | Some ap => recommend out0 ap
  | None => out0
  end.

(** The algorithms that do not go through the network offload. *)
Definition without_collnet (ap : Z * Z) : bool :=
  negb ((fst ap =? NCCL_ALGO_COLLNET_DIRECT)
        || (fst ap =? NCCL_ALGO_COLLNET_CHAIN)).

(** * Rounding to binary32 *)

(** ** Number of binary digits *)

Lemma digits2_pos_size (p : positive) : digits2_pos p = Pos.size p.
Proof. induction p; cbn; congruence. Qed.

Lemma Zdigits2_bounds (q : Z) :
  0 < q -> 2 ^ (Zdigits2 q - 1) <= q < 2 ^ Zdigits2 q.
Proof.
  intros Hq. destruct q as [|p|p]; try lia.
  cbn [Zdigits2]. rewrite digits2_pos_size.
  pose proof (Pos.size_gt p) as Hgt. pose proof (Pos.size_le p) as Hle.
  apply Pos2Z.pos_lt_pos in Hgt. apply Pos2Z.pos_le_pos in Hle.
  rewrite Pos2Z.inj_pow in Hgt, Hle.
  change (Z.pos p~0) with (2 * Z.pos p) in Hle.
  replace (Z.pos (Pos.size p)) with (Z.succ (Z.pos (Pos.size p) - 1)) in Hle
    by lia.
  rewrite Z.pow_succ_r in Hle by lia. lia.
Qed.

Lemma Zdigits2_nonneg (q : Z) : 0 <= Zdigits2 q.
Proof. destruct q; cbn; lia. Qed.

Lemma Zdigits2_pos (q : Z) : 0 < q -> 0 < Zdigits2 q.
Proof. destruct q; cbn; lia. Qed.

Lemma pow2_lt_mono (a b : Z) : 0 <= a -> 2 ^ a < 2 ^ b -> a < b.
Proof.
  intros Ha H. destruct (Z_lt_le_dec b 0) as [Hb | Hb].
  - rewrite (Z.pow_neg_r 2 b Hb) in H.
    assert (0 < 2 ^ a) by (apply Z.pow_pos_nonneg; lia). lia.
  - apply (Z.pow_lt_mono_r_iff 2); lia.
Qed.

(** The number of digits is determined by the two powers of two around the
    number. *)
Lemma Zdigits2_unique (q d : Z) :
  2 ^ (d - 1) <= q < 2 ^ d -> 0 < d -> Zdigits2 q = d.
Proof.
  intros [Hlo Hhi] Hd.
  assert (Hq : 0 < q).
  { assert (0 < 2 ^ (d - 1)) by (apply Z.pow_pos_nonneg; lia). lia. }
  destruct (Zdigits2_bounds q Hq) as [Hlo' Hhi'].
  pose proof (Zdigits2_pos q Hq).
  assert (Zdigits2 q - 1 < d).
  { apply pow2_lt_mono; lia. }
  assert (d - 1 < Zdigits2 q).
  { apply pow2_lt_mono; lia. }
  lia.
Qed.

Lemma Zdigits2_le (a b : Z) : 0 <= a <= b -> Zdigits2 a <= Zdigits2 b.
Proof.
  intros [Ha Hab].
  destruct (Z.eq_dec a 0) as [-> | Hne]; [apply Zdigits2_nonneg|].
  destruct (Zdigits2_bounds a ltac:(lia)) as [Hlo _].
  destruct (Zdigits2_bounds b ltac:(lia)) as [_ Hhi].
  pose proof (Zdigits2_pos a ltac:(lia)).
  assert (Zdigits2 a - 1 < Zdigits2 b) by (apply pow2_lt_mono; lia).
  lia.
Qed.

(** Digits of a quotient, read off the dividend. *)
Lemma Zdigits2_div (N D d : Z) :
  0 <= N -> 0 < D -> 0 < d ->
  (Zdigits2 (N / D) = d <-> 2 ^ (d - 1) * D <= N < 2 ^ d * D).
Proof.
  intros HN HD Hd. split.
  - intros E.
    assert (0 <= N / D) by (apply Z.div_pos; lia).
    assert (Hq : 0 < N / D) by (destruct (N / D); cbn in E; lia).
    destruct (Zdigits2_bounds _ Hq) as [Hlo Hhi]. rewrite E in Hlo, Hhi.
    pose proof (Z.mul_div_le N D HD).
    pose proof (Z.mul_succ_div_gt N D HD). nia.
  - intros [Hlo Hhi]. apply Zdigits2_unique; [|lia]. split.
    + apply Z.div_le_lower_bound; lia.
    + apply Z.div_lt_upper_bound; lia.
Qed.

Lemma pow2_pos (k : Z) : 0 <= k -> 0 < 2 ^ k.
Proof. intros. apply Z.pow_pos_nonneg; lia. Qed.

Lemma pow2_split (a b : Z) : 0 <= a -> 0 <= b -> 2 ^ (a + b) = 2 ^ a * 2 ^ b.
Proof. intros. apply Z.pow_add_r; lia. Qed.

(** ** Shifting right with round and sticky bits *)

Lemma rec_of_half (q r D b : Z) :
  0 <= q -> 0 <= r < D -> (b = 0 \/ b = 1) ->
  shr_1 (shr_record_of_loc (2 * q + b)
           (if r =? 0 then loc_Exact else loc_Inexact (2 * r ?= D)))
  = shr_record_of_loc q
      (if r + D * b =? 0 then loc_Exact
       else loc_Inexact (2 * (r + D * b) ?= D * 2)).
Proof.
  intros Hq Hr Hb.
  destruct Hb as [-> | ->];
    destruct (Z.eqb_spec r 0); destruct (Z.compare_spec (2 * r) D);
    match goal with
    | |- context [?x =? 0] => destruct (Z.eqb_spec x 0)
    end;
    match goal with
    | |- context [?x ?= D * 2] => destruct (Z.compare_spec x (D * 2))
    | |- _ => idtac
    end;
    try lia;
    (destruct q as [|p|p]; [reflexivity|reflexivity|lia]).
Qed.

(** One step of [shr] doubles the denominator. *)
Lemma shr_1_rec (N D : Z) :
  0 <= N -> 0 < D -> shr_1 (rec_of N D) = rec_of N (D * 2).
Proof.
  intros HN HD. unfold rec_of, loc_of.
  rewrite <- (Z.div_div N D 2) by lia.
  rewrite (Z.rem_mul_r N D 2) by lia.
  pose proof (Z.mod_pos_bound N D HD) as Hr.
  assert (Hq : 0 <= N / D) by (apply Z.div_pos; lia).
  pose proof (Z.mod_pos_bound (N / D) 2 ltac:(lia)) as Hb.
  pose proof (Z.div_mod (N / D) 2 ltac:(lia)) as E.
  assert (Hq2 : 0 <= N / D / 2) by (apply Z.div_pos; lia).
  set (r := N mod D) in *. set (b := (N / D) mod 2) in *.
  set (q := N / D / 2) in *.
  rewrite E at 1.
  now rewrite (rec_of_half q r D b) by lia.
Qed.

Lemma iter_shr_1_rec (p : positive) :
  forall N D, 0 <= N -> 0 < D ->
              iter_pos shr_1 p (rec_of N D) = rec_of N (D * 2 ^ Z.pos p).
Proof.
  induction p as [p IH | p IH |]; intros N D HN HD; cbn [iter_pos].
  - rewrite shr_1_rec, IH, IH by (try apply Z.mul_pos_pos; try apply pow2_pos; lia).
    f_equal. rewrite (Pos2Z.inj_xI p).
    replace (2 * Z.pos p + 1) with (1 + Z.pos p + Z.pos p) by lia.
    rewrite !Z.pow_add_r, Z.pow_1_r by lia. ring.
  - rewrite IH, IH by (try apply Z.mul_pos_pos; try apply pow2_pos; lia).
    f_equal. rewrite (Pos2Z.inj_xO p).
    replace (2 * Z.pos p) with (Z.pos p + Z.pos p) by lia.
    rewrite !Z.pow_add_r by lia. ring.
  - rewrite shr_1_rec by lia. now rewrite Z.pow_1_r.
Qed.

(** [shr] by [n] places multiplies the denominator by [2 ^ n]. *)
Lemma shr_rec (N D e n : Z) :
  0 <= N -> 0 < D ->
  shr (rec_of N D) e n = (rec_of N (D * 2 ^ Z.max n 0), e + Z.max n 0).
Proof.
  intros HN HD. unfold shr. destruct n as [|p|p].
  - cbn. now rewrite Z.mul_1_r, Z.add_0_r.
  - rewrite iter_shr_1_rec by lia. now rewrite Z.max_l by lia.
  - rewrite Z.max_r by lia. cbn. now rewrite Z.mul_1_r, Z.add_0_r.
Qed.

Lemma shr_m_rec (N D : Z) : shr_m (rec_of N D) = N / D.
Proof. unfold rec_of. now destruct (loc_of N D) as [|[]]. Qed.

Lemma loc_of_rec (N D : Z) : loc_of_shr_record (rec_of N D) = loc_of N D.
Proof. unfold rec_of. now destruct (loc_of N D) as [|[]]. Qed.

(** Numerator and denominator may be scaled together. *)
Lemma loc_of_scale (N D k : Z) :
  0 < D -> 0 < k -> loc_of (N * k) (D * k) = loc_of N D.
Proof.
  intros HD Hk. unfold loc_of.
  rewrite Z.mul_mod_distr_r by lia.
  pose proof (Z.mod_pos_bound N D HD).
  destruct (Z.eqb_spec (N mod D * k) 0), (Z.eqb_spec (N mod D) 0);
    try nia; try reflexivity.
  f_equal.
  destruct (Z.compare_spec (2 * (N mod D * k)) (D * k)),
    (Z.compare_spec (2 * (N mod D)) D); try nia; reflexivity.
Qed.

Lemma rec_of_scale (N D k : Z) :
  0 < D -> 0 < k -> rec_of (N * k) (D * k) = rec_of N D.
Proof.
  intros HD Hk. unfold rec_of.
  rewrite loc_of_scale by lia.
  now rewrite Z.div_mul_cancel_r by lia.
Qed.

Lemma loc_of_exact (N : Z) : loc_of N 1 = loc_Exact.
Proof. unfold loc_of. now rewrite Z.mod_1_r. Qed.

Lemma rec_of_ext (a b c d : Z) :
  0 < b -> 0 < d -> a * d = c * b -> rec_of a b = rec_of c d.
Proof.
  intros Hb Hd E.
  rewrite <- (rec_of_scale a b d), <- (rec_of_scale c d b) by lia.
  rewrite E. f_equal. ring.
Qed.

Lemma rec_of_exact (m : Z) : rec_of m 1 = shr_record_of_loc m loc_Exact.
Proof. unfold rec_of. now rewrite Z.div_1_r, loc_of_exact. Qed.

(** ** Rounding to the nearest integer *)

Lemma rne_bounds (N D : Z) : N / D <= rne N D <= N / D + 1.
Proof.
  unfold rne, round_nearest_even.
  destruct (loc_of N D) as [|[]]; try lia.
  destruct (Z.even (N / D)); lia.
Qed.

Lemma rne_exact (q D : Z) : 0 < D -> rne (q * D) D = q.
Proof.
  intros HD. unfold rne, loc_of.
  rewrite Z.mod_mul, Z.div_mul by lia. reflexivity.
Qed.

Lemma rne_scale (N D k : Z) :
  0 < D -> 0 < k -> rne (N * k) (D * k) = rne N D.
Proof.
  intros HD Hk. unfold rne.
  now rewrite loc_of_scale, Z.div_mul_cancel_r by lia.
Qed.

Lemma rne_ext (a b c d : Z) :
  0 < b -> 0 < d -> a * d = c * b -> rne a b = rne c d.
Proof.
  intros Hb Hd E.
  rewrite <- (rne_scale a b d), <- (rne_scale c d b) by lia.
  rewrite E. f_equal. ring.
Qed.

Lemma rne_mono (N1 N2 D : Z) :
  0 < D -> N1 <= N2 -> rne N1 D <= rne N2 D.
Proof.
  intros HD HN.
  assert (Hq : N1 / D <= N2 / D) by (apply Z.div_le_mono; lia).
  destruct (Z.eq_dec (N1 / D) (N2 / D)) as [E | NE].
  - pose proof (Z.div_mod N1 D ltac:(lia)) as E1.
    pose proof (Z.div_mod N2 D ltac:(lia)) as E2.
    assert (Hr : N1 mod D <= N2 mod D) by nia.
    unfold rne, loc_of, round_nearest_even. rewrite <- E.
    destruct (Z.eqb_spec (N1 mod D) 0), (Z.eqb_spec (N2 mod D) 0);
      try destruct (Z.compare_spec (2 * (N1 mod D)) D);
      try destruct (Z.compare_spec (2 * (N2 mod D)) D);
      try destruct (Z.even (N1 / D)); lia.
  - pose proof (rne_bounds N1 D). pose proof (rne_bounds N2 D). lia.
Qed.

Lemma rne_le (N D u : Z) : 0 < D -> N <= u * D -> rne N D <= u.
Proof.
  intros HD H.
  rewrite <- (rne_exact u D HD). now apply rne_mono.
Qed.

Lemma rne_ge (N D u : Z) : 0 < D -> u * D <= N -> u <= rne N D.
Proof.
  intros HD H.
  rewrite <- (rne_exact u D HD). now apply rne_mono.
Qed.

(** ** The second half of [binary_round_aux] *)

Lemma fexp32 (x : Z) :
  fexp Binary32.prec Binary32.emax x = Z.max (x - 24) (-149).
Proof. reflexivity. Qed.

Lemma binary_round_aux_pack (s : bool) (m e : Z) (l : location) :
  binary_round_aux Binary32.prec Binary32.emax s m e l
  = pack32 s
      (round_nearest_even
         (shr_m (fst (shr_fexp Binary32.prec Binary32.emax m e l)))
         (loc_of_shr_record
            (fst (shr_fexp Binary32.prec Binary32.emax m e l))))
      (snd (shr_fexp Binary32.prec Binary32.emax m e l)).
Proof.
  unfold binary_round_aux, pack32.
  destruct (shr_fexp Binary32.prec Binary32.emax m e l) as [mrs' e'].
  reflexivity.
Qed.

Lemma pack32_small (s : bool) (m n : Z) :
  0 <= n -> 0 < m < 2 ^ 24 -> (0 < n -> 2 ^ 23 <= m) -> n <= 253 ->
  pack32 s m (n - 149) = S754_finite s (Z.to_pos m) (n - 149)
  /\ bounded Binary32.prec Binary32.emax (Z.to_pos m) (n - 149) = true.
Proof.
  intros Hn Hm Hnorm Hov.
  assert (Hd : Zdigits2 m <= 24).
  { pose proof (Zdigits2_bounds m ltac:(lia)) as [Hlo _].
    assert (Zdigits2 m - 1 < 24) by (apply pow2_lt_mono;
      [pose proof (Zdigits2_pos m); lia | lia]).
    lia. }
  assert (Hd' : 0 < n -> Zdigits2 m = 24).
  { intros H. apply Zdigits2_unique; lia. }
  assert (Hfe : fexp Binary32.prec Binary32.emax (Zdigits2 m + (n - 149))
                = n - 149).
  { rewrite fexp32. destruct (Z.eq_dec n 0); [lia|].
    rewrite Hd' by lia. lia. }
  split.
  - unfold pack32, shr_fexp. rewrite Hfe, Z.sub_diag. cbn [shr].
    destruct m as [|p|p]; try lia. cbn [shr_record_of_loc shr_m].
    change (Binary32.emax - Binary32.prec) with 104.
    destruct (Z.leb_spec (n - 149) 104); [reflexivity|lia].
  - unfold bounded, canonical_mantissa.
    destruct m as [|p|p]; try lia. cbn [Z.to_pos].
    change (Z.pos (digits2_pos p)) with (Zdigits2 (Z.pos p)).
    rewrite Hfe, Z.eqb_refl.
    change (Binary32.emax - Binary32.prec) with 104.
    destruct (Z.leb_spec (n - 149) 104); [reflexivity|lia].
Qed.

Lemma pack32_carry (s : bool) (n : Z) :
  0 <= n -> n <= 252 ->
  pack32 s (2 ^ 24) (n - 149) = S754_finite s (2 ^ 23) (n - 148)
  /\ bounded Binary32.prec Binary32.emax (2 ^ 23) (n - 148) = true.
Proof.
  intros Hn Hov. split.
  - unfold pack32, shr_fexp.
    change (Zdigits2 (2 ^ 24)) with 25. rewrite fexp32.
    replace (Z.max (25 + (n - 149) - 24) (-149) - (n - 149)) with 1 by lia.
    cbn [shr shr_record_of_loc iter_pos shr_1 shr_m].
    cbn.
    replace (n - 149 + 1) with (n - 148) by lia.
    destruct (Z.leb_spec (n - 148) 104); [reflexivity|lia].
  - unfold bounded, canonical_mantissa.
    change (Z.pos (digits2_pos (2 ^ 23))) with 24. rewrite fexp32.
    replace (Z.max (24 + (n - 148) - 24) (-149)) with (n - 148) by lia.
    rewrite Z.eqb_refl.
    change (Binary32.emax - Binary32.prec) with 104.
    destruct (Z.leb_spec (n - 148) 104); [reflexivity|lia].
Qed.

Lemma pack32_zero (s : bool) (e : Z) : pack32 s 0 e = S754_zero s.
Proof.
  unfold pack32, shr_fexp, shr.
  destruct (fexp Binary32.prec Binary32.emax (Zdigits2 0 + e) - e) as [|p|p];
    try reflexivity.
  rewrite <- rec_of_exact, iter_shr_1_rec by lia.
  rewrite shr_m_rec. now rewrite Zdiv_0_l.
Qed.

Lemma pow2_le_mono (a b : Z) : 0 <= a <= b -> 2 ^ a <= 2 ^ b.
Proof. intros. apply Z.pow_le_mono_r; lia. Qed.

(** The rounded mantissa [m], at most [2 ^ 24] and of 24 bits unless the
    exponent is the least one, at exponent [n - 149]: a finite number of
    [m * 2 ^ n] units unless that overflows. *)
Lemma pack32_spec (s : bool) (m n : Z) :
  0 <= n -> 0 <= m <= 2 ^ 24 -> (0 < n -> 2 ^ 23 <= m) ->
  m * 2 ^ n < overflow_ulps ->
  finite32 (pack32 s m (n - 149)) = true
  /\ ulps (pack32 s m (n - 149)) = cond_Zopp s (m * 2 ^ n).
Proof.
  intros Hn Hm Hnorm Hov. unfold overflow_ulps in Hov.
  destruct (Z.eq_dec m 0) as [-> | Hm0].
  { rewrite pack32_zero. cbn. now destruct s. }
  assert (Hp : 0 < 2 ^ n) by (apply pow2_pos; lia).
  destruct (Z.eq_dec m (2 ^ 24)) as [-> | Hm1].
  - assert (n <= 252).
    { destruct (Z_le_gt_dec n 252); [lia|].
      assert (2 ^ 253 <= 2 ^ n) by (apply pow2_le_mono; lia).
      change (2 ^ 277) with (2 ^ 24 * 2 ^ 253) in Hov. nia. }
    destruct (pack32_carry s n Hn ltac:(lia)) as [-> Hb].
    cbn [finite32 ulps]. split; [exact Hb|]. f_equal.
    replace (n - 148 + 149) with (1 + n) by lia.
    rewrite pow2_split by lia.
    change (Z.pos (2 ^ 23)) with (2 ^ 23). change (2 ^ 24) with (2 ^ 23 * 2 ^ 1).
    ring.
  - assert (n <= 253).
    { destruct (Z_le_gt_dec n 253); [lia|].
      assert (2 ^ 254 <= 2 ^ n) by (apply pow2_le_mono; lia).
      assert (2 ^ 23 <= m) by (apply Hnorm; lia).
      change (2 ^ 277) with (2 ^ 23 * 2 ^ 254) in Hov. nia. }
    destruct (pack32_small s m n Hn ltac:(lia) Hnorm ltac:(lia)) as [-> Hb].
    cbn [finite32 ulps]. split; [exact Hb|]. f_equal.
    rewrite Z2Pos.id by lia.
    now replace (n - 149 + 149) with n by lia.
Qed.

(** ** Digits of scaled quotients *)

Lemma Zdigits2_div_zero (N D : Z) :
  0 <= N -> 0 < D -> (Zdigits2 (N / D) = 0 <-> N < D).
Proof.
  intros HN HD. split.
  - intros E. destruct (Z_lt_le_dec N D) as [H | H]; [exact H|].
    assert (1 <= N / D) by (apply Z.div_le_lower_bound; lia).
    pose proof (Zdigits2_pos (N / D) ltac:(lia)). lia.
  - intros H. now rewrite Z.div_small by lia.
Qed.

Lemma Zdigits2_div_spec (N D : Z) :
  0 <= N -> 0 < D ->
  N < 2 ^ Zdigits2 (N / D) * D
  /\ (0 < Zdigits2 (N / D) -> 2 ^ (Zdigits2 (N / D) - 1) * D <= N).
Proof.
  intros HN HD.
  pose proof (Zdigits2_nonneg (N / D)) as H0.
  destruct (Z.eq_dec (Zdigits2 (N / D)) 0) as [E | NE].
  - rewrite E. split; [|lia].
    apply Zdigits2_div_zero in E; lia.
  - pose proof (proj1 (Zdigits2_div N D (Zdigits2 (N / D)) HN HD
                         ltac:(lia)) eq_refl).
    split; [lia | intros _; lia].
Qed.

Lemma Zdigits2_div_shiftl (N D t : Z) :
  0 <= N -> 0 < D -> 0 <= t -> D <= N ->
  Zdigits2 (N * 2 ^ t / D) = Zdigits2 (N / D) + t.
Proof.
  intros HN HD Ht Hge.
  destruct (Zdigits2_div_spec N D HN HD) as [Hhi Hlo].
  assert (Hd : 0 < Zdigits2 (N / D)).
  { apply Zdigits2_pos. apply Z.div_str_pos. lia. }
  specialize (Hlo Hd).
  assert (Hp : 0 < 2 ^ t) by (apply pow2_pos; lia).
  apply Zdigits2_div; try nia; try lia.
  replace (Zdigits2 (N / D) + t - 1) with (Zdigits2 (N / D) - 1 + t) by lia.
  rewrite !pow2_split by lia. nia.
Qed.

Lemma Zdigits2_div_shiftr (N D j : Z) :
  0 <= N -> 0 < D -> 0 <= j ->
  Zdigits2 (N / (D * 2 ^ j)) = Z.max (Zdigits2 (N / D) - j) 0.
Proof.
  intros HN HD Hj.
  destruct (Zdigits2_div_spec N D HN HD) as [Hhi Hlo].
  assert (Hp : 0 < 2 ^ j) by (apply pow2_pos; lia).
  pose proof (Zdigits2_nonneg (N / D)) as H0.
  destruct (Z_le_gt_dec (Zdigits2 (N / D)) j) as [Hle | Hgt].
  - rewrite Z.max_r by lia.
    apply Zdigits2_div_zero; try nia.
    assert (2 ^ Zdigits2 (N / D) <= 2 ^ j) by (apply pow2_le_mono; lia).
    nia.
  - rewrite Z.max_l by lia. specialize (Hlo ltac:(lia)).
    apply Zdigits2_div; try nia; try lia.
    replace (Zdigits2 (N / D)) with (Zdigits2 (N / D) - j + j) in Hhi at 1
      by lia.
    replace (Zdigits2 (N / D) - 1) with (Zdigits2 (N / D) - j - 1 + j)
      in Hlo by lia.
    rewrite pow2_split in Hhi, Hlo by lia. nia.
Qed.

(** ** [binary_round_aux] in units of [2^-149] *)

Lemma round_ulps_mantissa (N D : Z) :
  0 <= N -> 0 < D ->
  let n := Z.max (Zdigits2 (N / D) - 24) 0 in
  0 <= rne N (D * 2 ^ n) <= 2 ^ 24
  /\ (0 < n -> 2 ^ 23 <= rne N (D * 2 ^ n)).
Proof.
  intros HN HD n.
  destruct (Zdigits2_div_spec N D HN HD) as [Hhi Hlo].
  pose proof (Zdigits2_nonneg (N / D)) as H0.
  assert (Hp : 0 < 2 ^ n) by (apply pow2_pos; lia).
  assert (HD1 : 0 < D * 2 ^ n) by nia.
  split; [split|].
  - pose proof (rne_bounds N (D * 2 ^ n)).
    assert (0 <= N / (D * 2 ^ n)) by (apply Z.div_pos; lia). lia.
  - apply rne_le; [lia|].
    destruct (Z_le_gt_dec (Zdigits2 (N / D)) 24) as [Hle | Hgt].
    + assert (2 ^ Zdigits2 (N / D) <= 2 ^ 24) by (apply pow2_le_mono; lia).
      nia.
    + assert (E : Zdigits2 (N / D) = 24 + n) by lia.
      rewrite E, pow2_split in Hhi by lia. nia.
  - intros Hn. apply rne_ge; [lia|].
    assert (E : Zdigits2 (N / D) - 1 = 23 + n) by lia.
    specialize (Hlo ltac:(lia)).
    rewrite E, pow2_split in Hlo by lia. nia.
Qed.

Lemma binary_round_aux_units (s : bool) (N D : Z) :
  0 <= N -> 0 < D -> round_ulps N D < overflow_ulps ->
  finite32 (binary_round_aux Binary32.prec Binary32.emax s (N / D) (-149)
              (loc_of N D)) = true
  /\ ulps (binary_round_aux Binary32.prec Binary32.emax s (N / D) (-149)
             (loc_of N D))
     = cond_Zopp s (round_ulps N D).
Proof.
  intros HN HD Hov.
  rewrite binary_round_aux_pack. unfold shr_fexp. fold (rec_of N D).
  rewrite shr_rec by lia. cbn [fst snd].
  rewrite shr_m_rec, loc_of_rec. fold (rne N (D * 2 ^ Z.max
    (fexp Binary32.prec Binary32.emax (Zdigits2 (N / D) + -149) - -149) 0)).
  rewrite fexp32.
  pose proof (Zdigits2_nonneg (N / D)) as H0.
  replace (Z.max (Z.max (Zdigits2 (N / D) + -149 - 24) (-149) - -149) 0)
    with (Z.max (Zdigits2 (N / D) - 24) 0) by lia.
  unfold round_ulps in *.
  destruct (round_ulps_mantissa N D HN HD) as [Hm Hnorm].
  set (n := Z.max (Zdigits2 (N / D) - 24) 0) in *.
  replace (-149 + n) with (n - 149) by lia.
  apply pack32_spec; auto; lia.
Qed.

(** A call of [binary_round_aux] at any exponent not above the canonical
    one, restated in units of [2^-149]. *)
Lemma binary_round_aux_rebase (s : bool) (N D e : Z) :
  0 <= N -> 0 < D ->
  e <= fexp Binary32.prec Binary32.emax (Zdigits2 (N / D) + e) ->
  binary_round_aux Binary32.prec Binary32.emax s (N / D) e (loc_of N D)
  = binary_round_aux Binary32.prec Binary32.emax s
      (N * 2 ^ Z.max (e + 149) 0 / (D * 2 ^ Z.max (- 149 - e) 0)) (-149)
      (loc_of (N * 2 ^ Z.max (e + 149) 0) (D * 2 ^ Z.max (- 149 - e) 0)).
Proof.
  intros HN HD Hpre.
  set (t := Z.max (e + 149) 0). set (j := Z.max (- 149 - e) 0).
  assert (Ht : 0 < 2 ^ t) by (apply pow2_pos; lia).
  assert (Hj : 0 < 2 ^ j) by (apply pow2_pos; lia).
  rewrite !binary_round_aux_pack. unfold shr_fexp.
  fold (rec_of N D). fold (rec_of (N * 2 ^ t) (D * 2 ^ j)).
  rewrite !shr_rec by nia. cbn [fst snd].
  rewrite !fexp32 in *.
  pose proof (Zdigits2_nonneg (N / D)) as H0.
  set (d := Zdigits2 (N / D)) in *.
  set (k := Z.max (Z.max (d + e - 24) (-149) - e) 0).
  assert (Hd' : Z.max (Z.max (Zdigits2 (N * 2 ^ t / (D * 2 ^ j)) + -149 - 24)
                         (-149) - -149) 0 = k + e + 149).
  { destruct (Z_lt_le_dec e (-149)) as [He | He].
    - replace t with 0 by lia. rewrite Z.pow_0_r, Z.mul_1_r.
      rewrite Zdigits2_div_shiftr by lia. fold d. lia.
    - replace j with 0 by lia. rewrite Z.pow_0_r, Z.mul_1_r.
      destruct (Z_lt_le_dec N D) as [Hlt | Hge].
      + assert (d = 0) by (apply Zdigits2_div_zero; lia).
        assert (e = -149) by lia.
        replace t with 0 by lia. rewrite Z.pow_0_r, Z.mul_1_r. fold d. lia.
      + rewrite Zdigits2_div_shiftl by lia. fold d. lia. }
  rewrite Hd'.
  assert (Hj0 : 0 <= j) by (unfold j; lia).
  assert (Ht0 : 0 <= t) by (unfold t; lia).
  assert (Hk0 : 0 <= k) by (unfold k; lia).
  assert (Hk1 : 0 <= k + e + 149) by (unfold k; lia).
  assert (Hk : 0 < 2 ^ k) by (apply pow2_pos; lia).
  assert (E : rec_of N (D * 2 ^ k)
              = rec_of (N * 2 ^ t) (D * 2 ^ j * 2 ^ (k + e + 149))).
  { apply rec_of_ext.
    - now apply Z.mul_pos_pos.
    - repeat apply Z.mul_pos_pos; try assumption. apply pow2_pos; lia.
    - destruct (Z_lt_le_dec e (-149)) as [He | He].
      + assert (Et : t = 0) by (unfold t; lia).
        assert (Ek : k = j + (k + e + 149)) by (unfold j; lia).
        rewrite Et, Z.pow_0_r. rewrite Ek at 2.
        rewrite (pow2_split j (k + e + 149)) by lia. ring.
      + assert (Ej : j = 0) by (unfold j; lia).
        assert (Ek : k + e + 149 = k + t) by (unfold t; lia).
        rewrite Ej, Z.pow_0_r, Ek.
        rewrite (pow2_split k t) by lia. ring. }
  rewrite E. f_equal. lia.
Qed.

(** ** Properties of the reference rounding *)

Lemma round_ulps_nonneg (N D : Z) : 0 <= N -> 0 < D -> 0 <= round_ulps N D.
Proof.
  intros HN HD. unfold round_ulps.
  destruct (round_ulps_mantissa N D HN HD) as [Hm _].
  pose proof (Zdigits2_nonneg (N / D)).
  assert (0 < 2 ^ Z.max (Zdigits2 (N / D) - 24) 0) by (apply pow2_pos; lia).
  nia.
Qed.

Lemma round_ulps_scale (N D k : Z) :
  0 <= N -> 0 < D -> 0 < k -> round_ulps (N * k) (D * k) = round_ulps N D.
Proof.
  intros HN HD Hk. unfold round_ulps.
  rewrite Z.div_mul_cancel_r by lia.
  pose proof (Zdigits2_nonneg (N / D)).
  assert (0 < 2 ^ Z.max (Zdigits2 (N / D) - 24) 0) by (apply pow2_pos; lia).
  f_equal. apply rne_ext; nia.
Qed.

(** The rounding depends on the rational only. *)
Lemma round_ulps_ext (a b c d : Z) :
  0 <= a -> 0 <= c -> 0 < b -> 0 < d -> a * d = c * b ->
  round_ulps a b = round_ulps c d.
Proof.
  intros Ha Hc Hb Hd E.
  rewrite <- (round_ulps_scale a b d), <- (round_ulps_scale c d b) by lia.
  rewrite E. f_equal. ring.
Qed.

Lemma round_ulps_zero (D : Z) : 0 < D -> round_ulps 0 D = 0.
Proof.
  intros HD. unfold round_ulps. rewrite Zdiv_0_l. cbn [Zdigits2].
  rewrite Z.max_r by lia. rewrite Z.pow_0_r, !Z.mul_1_r.
  apply (rne_exact 0 D HD).
Qed.

(** Monotonicity, first for a common denominator. *)
Lemma round_ulps_mono_num (N1 N2 D : Z) :
  0 <= N1 <= N2 -> 0 < D -> round_ulps N1 D <= round_ulps N2 D.
Proof.
  intros HN HD.
  assert (Hd : Zdigits2 (N1 / D) <= Zdigits2 (N2 / D)).
  { apply Zdigits2_le. split; [apply Z.div_pos; lia|].
    apply Z.div_le_mono; lia. }
  destruct (round_ulps_mantissa N1 D ltac:(lia) HD) as [Hm1 Hn1].
  destruct (round_ulps_mantissa N2 D ltac:(lia) HD) as [Hm2 Hn2].
  unfold round_ulps.
  pose proof (Zdigits2_nonneg (N1 / D)).
  set (n1 := Z.max (Zdigits2 (N1 / D) - 24) 0) in *.
  set (n2 := Z.max (Zdigits2 (N2 / D) - 24) 0) in *.
  assert (Hp1 : 0 < 2 ^ n1) by (apply pow2_pos; lia).
  destruct (Z.eq_dec n1 n2) as [E | NE].
  - rewrite <- E. apply Z.mul_le_mono_nonneg_r; [lia|].
    apply rne_mono; [nia | lia].
  - assert (Hlt : n1 < n2) by lia.
    specialize (Hn2 ltac:(lia)).
    assert (Hpp : 2 * 2 ^ n1 <= 2 ^ n2).
    { replace (2 * 2 ^ n1) with (2 ^ (1 + n1))
        by (rewrite pow2_split by lia; now rewrite Z.pow_1_r).
      apply pow2_le_mono. lia. }
    change (2 ^ 24) with (2 ^ 23 * 2) in Hm1.
    generalize dependent (rne N1 (D * 2 ^ n1)).
    generalize dependent (rne N2 (D * 2 ^ n2)).
    generalize dependent (2 ^ n1). generalize dependent (2 ^ n2).
    intros. nia.
Qed.

Lemma round_ulps_mono (N1 D1 N2 D2 : Z) :
  0 <= N1 -> 0 <= N2 -> 0 < D1 -> 0 < D2 -> N1 * D2 <= N2 * D1 ->
  round_ulps N1 D1 <= round_ulps N2 D2.
Proof.
  intros H1 H2 HD1 HD2 H.
  rewrite <- (round_ulps_scale N1 D1 D2), <- (round_ulps_scale N2 D2 D1)
    by lia.
  replace (D2 * D1) with (D1 * D2) by ring.
  apply round_ulps_mono_num; nia.
Qed.

(** Representable numbers are not changed. *)
Lemma round_ulps_representable (u D : Z) :
  representable u -> 0 < D -> round_ulps (u * D) D = u.
Proof.
  intros [Hu Hmod] HD. unfold round_ulps.
  rewrite Z.div_mul by lia.
  pose proof (Zdigits2_nonneg u).
  set (n := Z.max (Zdigits2 u - 24) 0) in *.
  assert (Hp : 0 < 2 ^ n) by (apply pow2_pos; lia).
  clearbody n. clear H.
  apply Z.mod_divide in Hmod; [|lia]. destruct Hmod as [v ->].
  replace (v * 2 ^ n * D) with (v * (D * 2 ^ n)) by ring.
  rewrite rne_exact by nia. reflexivity.
Qed.

Lemma representable_pow2 (k : Z) : 0 <= k -> representable (2 ^ k).
Proof.
  intros Hk. split; [apply Z.pow_nonneg; lia|].
  assert (Hd : Zdigits2 (2 ^ k) = k + 1).
  { apply Zdigits2_unique; [|lia].
    replace (k + 1 - 1) with k by lia. split; [lia|].
    apply Z.pow_lt_mono_r; lia. }
  rewrite Hd.
  destruct (Z_le_gt_dec (k + 1 - 24) 0).
  - rewrite Z.max_r by lia. apply Z.mod_1_r.
  - rewrite Z.max_l by lia.
    replace k with (23 + (k + 1 - 24)) at 1 by lia.
    rewrite pow2_split by lia. apply Z.mod_mul.
    apply Z.pow_nonzero; lia.
Qed.

Lemma representable_small (u : Z) : 0 <= u < 2 ^ 24 -> representable u.
Proof.
  intros Hu. split; [lia|].
  destruct (Z.eq_dec u 0) as [-> | Hne]; [reflexivity|].
  destruct (Zdigits2_bounds u ltac:(lia)) as [Hlo _].
  assert (Zdigits2 u - 1 < 24).
  { apply pow2_lt_mono; [pose proof (Zdigits2_pos u); lia | lia]. }
  rewrite Z.max_r by lia. apply Z.mod_1_r.
Qed.

(** ** Either sign *)

Lemma round_units_nonneg (N D : Z) :
  0 <= N -> round_units N D = round_ulps N D.
Proof.
  intros H. unfold round_units. destruct (Z.ltb_spec N 0); [lia|reflexivity].
Qed.

Lemma round_units_neg (N D : Z) :
  N <= 0 -> 0 < D -> round_units N D = - round_ulps (- N) D.
Proof.
  intros H HD. unfold round_units.
  destruct (Z.ltb_spec N 0); [reflexivity|].
  replace N with 0 by lia. cbn [Z.opp]. now rewrite round_ulps_zero.
Qed.

Lemma round_units_sign (N D : Z) :
  0 < D -> (0 <= N -> 0 <= round_units N D)
           /\ (N <= 0 -> round_units N D <= 0).
Proof.
  intros HD. split; intros H.
  - rewrite round_units_nonneg by lia. now apply round_ulps_nonneg.
  - rewrite round_units_neg by lia.
    pose proof (round_ulps_nonneg (- N) D ltac:(lia) HD). lia.
Qed.

Lemma round_units_mono (N1 D1 N2 D2 : Z) :
  0 < D1 -> 0 < D2 -> N1 * D2 <= N2 * D1 ->
  round_units N1 D1 <= round_units N2 D2.
Proof.
  intros HD1 HD2 H.
  destruct (Z_lt_le_dec N1 0) as [H1 | H1];
    destruct (Z_lt_le_dec N2 0) as [H2 | H2].
  - rewrite !round_units_neg by lia.
    pose proof (round_ulps_mono (- N2) D2 (- N1) D1 ltac:(lia) ltac:(lia)
                  HD2 HD1 ltac:(nia)). lia.
  - pose proof (proj2 (round_units_sign N1 D1 HD1) ltac:(lia)).
    pose proof (proj1 (round_units_sign N2 D2 HD2) ltac:(lia)). lia.
  - nia.
  - rewrite !round_units_nonneg by lia. now apply round_ulps_mono.
Qed.

Lemma round_units_representable (u D : Z) :
  representable (Z.abs u) -> 0 < D -> round_units (u * D) D = u.
Proof.
  intros Hu HD.
  destruct (Z_lt_le_dec u 0) as [H | H].
  - rewrite round_units_neg by nia.
    replace (- (u * D)) with (Z.abs u * D) by lia.
    rewrite round_ulps_representable by assumption. lia.
  - rewrite round_units_nonneg by nia.
    replace u with (Z.abs u) at 1 by lia.
    rewrite round_ulps_representable by assumption. lia.
Qed.

Lemma round_units_le (N D u : Z) :
  0 < D -> representable (Z.abs u) -> N <= u * D -> round_units N D <= u.
Proof.
  intros HD Hu H.
  rewrite <- (round_units_representable u D Hu HD).
  apply round_units_mono; nia.
Qed.

Lemma round_units_ge (N D u : Z) :
  0 < D -> representable (Z.abs u) -> u * D <= N -> u <= round_units N D.
Proof.
  intros HD Hu H.
  rewrite <- (round_units_representable u D Hu HD).
  apply round_units_mono; nia.
Qed.

Lemma cond_Zopp_round (s : bool) (X D : Z) :
  0 < D -> (X < 0 -> s = true) -> (0 < X -> s = false) ->
  cond_Zopp s (round_ulps (Z.abs X) D) = round_units X D.
Proof.
  intros HD Hn Hp.
  destruct (Z_lt_le_dec X 0) as [H | H].
  - rewrite Hn, round_units_neg by lia. cbn [cond_Zopp].
    now replace (Z.abs X) with (- X) by lia.
  - rewrite round_units_nonneg by lia.
    replace (Z.abs X) with X by lia.
    destruct (Z.eq_dec X 0) as [-> | Hne].
    + rewrite round_ulps_zero by lia. now destruct s.
    + now rewrite Hp by lia.
Qed.

(** ** The numbers of the format *)

Lemma bounded_inv (m : positive) (e : Z) :
  bounded Binary32.prec Binary32.emax m e = true ->
  -149 <= e <= 104 /\ Z.pos m < 2 ^ 24 /\ (-149 < e -> 2 ^ 23 <= Z.pos m).
Proof.
  unfold bounded, canonical_mantissa. intros H.
  apply andb_prop in H. destruct H as [Hc He].
  apply Z.eqb_eq in Hc. apply Z.leb_le in He.
  change (Binary32.emax - Binary32.prec) with 104 in He.
  rewrite fexp32 in Hc.
  change (Z.pos (digits2_pos m)) with (Zdigits2 (Z.pos m)) in Hc.
  destruct (Zdigits2_bounds (Z.pos m) ltac:(lia)) as [Hlo Hhi].
  split; [lia|]. split.
  - assert (2 ^ Zdigits2 (Z.pos m) <= 2 ^ 24).
    { apply pow2_le_mono. pose proof (Zdigits2_nonneg (Z.pos m)). lia. }
    lia.
  - intros H. assert (E : Zdigits2 (Z.pos m) = 24) by lia.
    now rewrite E in Hlo.
Qed.

Lemma ulps_finite (s : bool) (m : positive) (e : Z) :
  ulps (S754_finite s m e) = cond_Zopp s (Z.pos m * 2 ^ (e + 149)).
Proof. reflexivity. Qed.

Lemma finite32_abs_ulps (x : float) :
  finite32 x = true ->
  representable (Z.abs (ulps x)) /\ Z.abs (ulps x) < overflow_ulps.
Proof.
  destruct x as [s | s | | s m e]; cbn [finite32]; try discriminate.
  - intros _. split; [now apply representable_small | reflexivity].
  - intros H. apply bounded_inv in H. destruct H as (He & Hm & Hn).
    assert (Hp : 0 < 2 ^ (e + 149)) by (apply pow2_pos; lia).
    assert (Ea : Z.abs (ulps (S754_finite s m e))
                 = Z.pos m * 2 ^ (e + 149)).
    { rewrite ulps_finite. destruct s; cbn [cond_Zopp]; lia. }
    rewrite Ea. split.
    + split; [lia|].
      assert (Hd : Zdigits2 (Z.pos m * 2 ^ (e + 149))
                   = Zdigits2 (Z.pos m) + (e + 149)).
      { pose proof (Zdigits2_div_shiftl (Z.pos m) 1 (e + 149)) as H.
        rewrite !Z.div_1_r in H. apply H; lia. }
      rewrite Hd.
      destruct (Zdigits2_bounds (Z.pos m) ltac:(lia)) as [Hlo Hhi].
      assert (Zdigits2 (Z.pos m) - 1 < 24).
      { apply pow2_lt_mono; [pose proof (Zdigits2_pos (Z.pos m)); lia|lia]. }
      destruct (Z.eq_dec e (-149)) as [-> | Hne].
      * rewrite Z.max_r by lia. apply Z.mod_1_r.
      * assert (Zdigits2 (Z.pos m) = 24) by (apply Zdigits2_unique; lia).
        replace (Z.max (Zdigits2 (Z.pos m) + (e + 149) - 24) 0)
          with (e + 149) by lia.
        apply Z.mod_mul. lia.
    + unfold overflow_ulps.
      assert (2 ^ (e + 149) <= 2 ^ 253) by (apply pow2_le_mono; lia).
      change (2 ^ 277) with (2 ^ 24 * 2 ^ 253). nia.
Qed.

(** ** Comparisons are comparisons of the values *)

Lemma compare_mantissas (m1 m2 : positive) (e1 e2 : Z) :
  bounded Binary32.prec Binary32.emax m1 e1 = true ->
  bounded Binary32.prec Binary32.emax m2 e2 = true ->
  match e1 ?= e2 with
  | Lt => Lt
  | Gt => Gt
  | Eq => Pos.compare_cont Eq m1 m2
  end
  = (Z.pos m1 * 2 ^ (e1 + 149) ?= Z.pos m2 * 2 ^ (e2 + 149)).
Proof.
  intros H1 H2.
  apply bounded_inv in H1. destruct H1 as (He1 & Hm1 & Hn1).
  apply bounded_inv in H2. destruct H2 as (He2 & Hm2 & Hn2).
  assert (Hp1 : 0 < 2 ^ (e1 + 149)) by (apply pow2_pos; lia).
  assert (Hp2 : 0 < 2 ^ (e2 + 149)) by (apply pow2_pos; lia).
  destruct (Z.compare_spec e1 e2) as [E | L | G].
  - subst e2. change (Pos.compare_cont Eq m1 m2) with (Z.pos m1 ?= Z.pos m2).
    destruct (Z.compare_spec (Z.pos m1) (Z.pos m2)); symmetry.
    + apply Z.compare_eq_iff. congruence.
    + apply Z.compare_lt_iff. nia.
    + apply Z.compare_gt_iff. nia.
  - symmetry. apply Z.compare_lt_iff.
    assert (2 * 2 ^ (e1 + 149) <= 2 ^ (e2 + 149)).
    { replace (2 * 2 ^ (e1 + 149)) with (2 ^ (1 + (e1 + 149)))
        by (rewrite pow2_split by lia; now rewrite Z.pow_1_r).
      apply pow2_le_mono. lia. }
    specialize (Hn2 ltac:(lia)).
    change (2 ^ 24) with (2 ^ 23 * 2) in Hm1. nia.
  - symmetry. apply Z.compare_gt_iff.
    assert (2 * 2 ^ (e2 + 149) <= 2 ^ (e1 + 149)).
    { replace (2 * 2 ^ (e2 + 149)) with (2 ^ (1 + (e2 + 149)))
        by (rewrite pow2_split by lia; now rewrite Z.pow_1_r).
      apply pow2_le_mono. lia. }
    specialize (Hn1 ltac:(lia)).
    change (2 ^ 24) with (2 ^ 23 * 2) in Hm2. nia.
Qed.

Lemma SFcompare_ulps (x y : float) :
  finite32 x = true -> finite32 y = true ->
  SFcompare x y = Some (ulps x ?= ulps y).
Proof.
  destruct x as [sx | sx | | sx mx ex]; cbn [finite32]; try discriminate;
    destruct y as [sy | sy | | sy my ey]; cbn [finite32]; try discriminate;
    intros Hx Hy; cbn [SFcompare ulps].
  - reflexivity.
  - f_equal. symmetry.
    pose proof (bounded_inv _ _ Hy) as (He & _).
    assert (0 < 2 ^ (ey + 149)) by (apply pow2_pos; lia).
    destruct sy; cbn [cond_Zopp];
      [apply Z.compare_gt_iff | apply Z.compare_lt_iff]; nia.
  - f_equal. symmetry.
    pose proof (bounded_inv _ _ Hx) as (He & _).
    assert (0 < 2 ^ (ex + 149)) by (apply pow2_pos; lia).
    destruct sx; cbn [cond_Zopp];
      [apply Z.compare_lt_iff | apply Z.compare_gt_iff]; nia.
  - f_equal.
    pose proof (bounded_inv _ _ Hx) as (Hex & _).
    pose proof (bounded_inv _ _ Hy) as (Hey & _).
    assert (0 < 2 ^ (ex + 149)) by (apply pow2_pos; lia).
    assert (0 < 2 ^ (ey + 149)) by (apply pow2_pos; lia).
    destruct sx, sy; cbn [cond_Zopp].
    + rewrite Z.compare_opp.
      rewrite <- (compare_mantissas my mx ey ex Hy Hx).
      rewrite (Z.compare_antisym ex ey).
      destruct (ex ?= ey); cbn [CompOpp]; try reflexivity.
      change (Pos.compare_cont Eq mx my) with (mx ?= my)%positive.
      change (Pos.compare_cont Eq my mx) with (my ?= mx)%positive.
      now rewrite (Pos.compare_antisym mx my).
    + symmetry. apply Z.compare_lt_iff. nia.
    + symmetry. apply Z.compare_gt_iff. nia.
    + apply compare_mantissas; assumption.
Qed.

Lemma ltb_ulps (x y : float) :
  finite32 x = true -> finite32 y = true ->
  Binary32.ltb x y = (ulps x <? ulps y).
Proof.
  intros Hx Hy. unfold Binary32.ltb, SFltb, Z.ltb.
  now rewrite SFcompare_ulps.
Qed.

Lemma leb_ulps (x y : float) :
  finite32 x = true -> finite32 y = true ->
  Binary32.leb x y = (ulps x <=? ulps y).
Proof.
  intros Hx Hy. unfold Binary32.leb, SFleb, Z.leb.
  rewrite SFcompare_ulps by assumption.
  now destruct (ulps x ?= ulps y).
Qed.

(** ** The operations round the exact result *)

Lemma iter_xO (m d : positive) :
  Z.pos (Pos.iter xO m d) = Z.pos m * 2 ^ Z.pos d.
Proof.
  induction d as [|d IH] using Pos.peano_ind.
  - cbn [Pos.iter]. now rewrite Z.pow_1_r, Z.mul_comm.
  - rewrite Pos.iter_succ, Pos2Z.inj_xO, IH, Pos2Z.inj_succ.
    rewrite Z.pow_succ_r by lia. ring.
Qed.

Lemma shl_align_fst (m : positive) (e e' : Z) :
  e' <= e -> Z.pos (fst (shl_align m e e')) = Z.pos m * 2 ^ (e - e').
Proof.
  intros H. unfold shl_align.
  destruct (e' - e) as [|d|d] eqn:E; cbn [fst].
  - replace (e - e') with 0 by lia. now rewrite Z.mul_1_r.
  - lia.
  - rewrite iter_xO. f_equal. f_equal. lia.
Qed.

Lemma Zdigits2_mul_pow2 (m k : Z) :
  0 < m -> 0 <= k -> Zdigits2 (m * 2 ^ k) = Zdigits2 m + k.
Proof.
  intros Hm Hk.
  pose proof (Zdigits2_div_shiftl m 1 k) as H.
  rewrite !Z.div_1_r in H. apply H; lia.
Qed.

(** Rounding an integer mantissa at an exponent of the format. *)
Lemma binary_round_units (s : bool) (m : positive) (e : Z) :
  -149 <= e ->
  round_ulps (Z.pos m * 2 ^ (e + 149)) 1 < overflow_ulps ->
  finite32 (binary_round Binary32.prec Binary32.emax s m e) = true
  /\ ulps (binary_round Binary32.prec Binary32.emax s m e)
     = cond_Zopp s (round_ulps (Z.pos m * 2 ^ (e + 149)) 1).
Proof.
  intros He Hov. unfold binary_round.
  set (fe := fexp Binary32.prec Binary32.emax (Z.pos (digits2_pos m) + e)).
  assert (Hfe : fe = Z.max (Zdigits2 (Z.pos m) + e - 24) (-149))
    by reflexivity.
  clearbody fe.
  assert (Hal : exists mz ez,
             shl_align m e fe = (mz, ez) /\ -149 <= ez
             /\ ez <= fexp Binary32.prec Binary32.emax
                        (Zdigits2 (Z.pos mz) + ez)
             /\ Z.pos mz * 2 ^ (ez + 149) = Z.pos m * 2 ^ (e + 149)).
  { unfold shl_align. destruct (fe - e) as [|d|d] eqn:E.
    - exists m, e. repeat split; try lia. rewrite fexp32. lia.
    - exists m, e. repeat split; try lia. rewrite fexp32. lia.
    - exists (Pos.iter xO m d), fe. rewrite iter_xO.
      rewrite Zdigits2_mul_pow2 by lia. rewrite fexp32.
      repeat split; try lia.
      replace (e + 149) with (Z.pos d + (fe + 149)) by lia.
      rewrite (pow2_split (Z.pos d) (fe + 149)) by lia. ring. }
  destruct Hal as (mz & ez & -> & Hez & Hpre & Hval).
  assert (Ex : binary_round_aux Binary32.prec Binary32.emax s (Z.pos mz) ez
                 loc_Exact
               = binary_round_aux Binary32.prec Binary32.emax s
                   (Z.pos mz / 1) ez (loc_of (Z.pos mz) 1)).
  { now rewrite Z.div_1_r, loc_of_exact. }
  rewrite Ex.
  rewrite <- (Z.div_1_r (Z.pos mz)) in Hpre.
  rewrite binary_round_aux_rebase by (try exact Hpre; lia).
  rewrite (Z.max_l (ez + 149) 0), (Z.max_r (- 149 - ez) 0) by lia.
  rewrite Z.pow_0_r, Z.mul_1_r, Hval.
  apply binary_round_aux_units; [|lia|exact Hov].
  assert (0 < 2 ^ (e + 149)) by (apply pow2_pos; lia). nia.
Qed.

Lemma binary_normalize_units (M e : Z) :
  -149 <= e ->
  Z.abs (round_units (M * 2 ^ (e + 149)) 1) < overflow_ulps ->
  finite32 (binary_normalize Binary32.prec Binary32.emax M e false) = true
  /\ ulps (binary_normalize Binary32.prec Binary32.emax M e false)
     = round_units (M * 2 ^ (e + 149)) 1.
Proof.
  intros He Hov.
  assert (Hp : 0 < 2 ^ (e + 149)) by (apply pow2_pos; lia).
  destruct M as [|p|p]; cbn [binary_normalize].
  - split; [reflexivity|]. cbn [ulps Z.mul].
    rewrite round_units_nonneg by lia. now rewrite round_ulps_zero.
  - rewrite round_units_nonneg in * by nia.
    pose proof (round_ulps_nonneg (Z.pos p * 2 ^ (e + 149)) 1
                  ltac:(nia) ltac:(lia)).
    apply (binary_round_units false p e He). lia.
  - rewrite round_units_neg in * by nia.
    replace (- (Z.neg p * 2 ^ (e + 149))) with (Z.pos p * 2 ^ (e + 149))
      in * by lia.
    pose proof (round_ulps_nonneg (Z.pos p * 2 ^ (e + 149)) 1
                  ltac:(nia) ltac:(lia)).
    apply (binary_round_units true p e He). lia.
Qed.

(** Conversion of an integer. *)
Lemma of_Z_units (n : Z) :
  Z.abs (round_units (n * 2 ^ 149) 1) < overflow_ulps ->
  finite32 (Binary32.of_Z n) = true
  /\ ulps (Binary32.of_Z n) = round_units (n * 2 ^ 149) 1.
Proof.
  intros H. unfold Binary32.of_Z.
  apply (binary_normalize_units n 0); [lia | exact H].
Qed.

(** Addition. *)
Lemma add_units (x y : float) :
  finite32 x = true -> finite32 y = true ->
  Z.abs (round_units (ulps x + ulps y) 1) < overflow_ulps ->
  finite32 (Binary32.add x y) = true
  /\ ulps (Binary32.add x y) = round_units (ulps x + ulps y) 1.
Proof.
  intros Hx Hy Hov.
  pose proof (finite32_abs_ulps x Hx) as [Rx _].
  pose proof (finite32_abs_ulps y Hy) as [Ry _].
  destruct x as [sx | sx | | sx mx ex]; try discriminate;
    destruct y as [sy | sy | | sy my ey]; try discriminate.
  - split; [now destruct sx, sy|]. now destruct sx, sy.
  - cbn [Binary32.add SFadd]. split; [exact Hy|].
    replace (ulps (S754_zero sx) + ulps (S754_finite sy my ey))
      with (ulps (S754_finite sy my ey) * 1) by (cbn [ulps]; lia).
    now rewrite round_units_representable.
  - cbn [Binary32.add SFadd]. split; [exact Hx|].
    replace (ulps (S754_finite sx mx ex) + ulps (S754_zero sy))
      with (ulps (S754_finite sx mx ex) * 1) by (cbn [ulps]; lia).
    now rewrite round_units_representable.
  - cbn [finite32] in Hx, Hy.
    pose proof (bounded_inv _ _ Hx) as (Hex & _).
    pose proof (bounded_inv _ _ Hy) as (Hey & _).
    unfold Binary32.add, SFadd.
    set (ez := Z.min ex ey) in *.
    assert (Hez : ez <= ex /\ ez <= ey /\ -149 <= ez) by (unfold ez; lia).
    clearbody ez.
    assert (E : (cond_Zopp sx (Z.pos (fst (shl_align mx ex ez)))
                 + cond_Zopp sy (Z.pos (fst (shl_align my ey ez))))
                * 2 ^ (ez + 149)
                = ulps (S754_finite sx mx ex) + ulps (S754_finite sy my ey)).
    { rewrite !shl_align_fst by lia. rewrite !ulps_finite.
      replace (ex + 149) with (ex - ez + (ez + 149)) by lia.
      replace (ey + 149) with (ey - ez + (ez + 149)) by lia.
      rewrite (pow2_split (ex - ez) (ez + 149)) by lia.
      rewrite (pow2_split (ey - ez) (ez + 149)) by lia.
      destruct sx, sy; cbn [cond_Zopp]; ring. }
    rewrite <- E in *.
    apply binary_normalize_units; [lia | exact Hov].
Qed.

(** A call of [binary_round_aux] that describes the rational [X / Dx] of
    units rounds it. *)
Lemma binary_round_aux_rational (s : bool) (N D e X Dx : Z) :
  0 <= N -> 0 < D ->
  e <= fexp Binary32.prec Binary32.emax (Zdigits2 (N / D) + e) ->
  0 < Dx ->
  N * 2 ^ Z.max (e + 149) 0 * Dx = Z.abs X * (D * 2 ^ Z.max (- 149 - e) 0) ->
  (X < 0 -> s = true) -> (0 < X -> s = false) ->
  Z.abs (round_units X Dx) < overflow_ulps ->
  finite32 (binary_round_aux Binary32.prec Binary32.emax s (N / D) e
              (loc_of N D)) = true
  /\ ulps (binary_round_aux Binary32.prec Binary32.emax s (N / D) e
             (loc_of N D))
     = round_units X Dx.
Proof.
  intros HN HD Hpre HDx E Hneg Hpos Hov.
  rewrite binary_round_aux_rebase by assumption.
  assert (Ht : 0 < 2 ^ Z.max (e + 149) 0) by (apply pow2_pos; lia).
  assert (Hj : 0 < 2 ^ Z.max (- 149 - e) 0) by (apply pow2_pos; lia).
  set (N' := N * 2 ^ Z.max (e + 149) 0) in *.
  set (D' := D * 2 ^ Z.max (- 149 - e) 0) in *.
  assert (HN' : 0 <= N') by (unfold N'; nia).
  assert (HD' : 0 < D') by (unfold D'; nia).
  assert (Er : round_ulps N' D' = round_ulps (Z.abs X) Dx).
  { apply round_ulps_ext; lia. }
  rewrite <- (cond_Zopp_round s X Dx HDx Hneg Hpos) in *.
  rewrite <- Er in *.
  apply binary_round_aux_units; try assumption.
  pose proof (round_ulps_nonneg N' D' HN' HD').
  destruct s; cbn [cond_Zopp] in Hov; lia.
Qed.

Lemma Zdigits2_ge_24 (m : Z) : 2 ^ 23 <= m -> 24 <= Zdigits2 m.
Proof.
  intros H. change 24 with (Zdigits2 (2 ^ 23)). apply Zdigits2_le. lia.
Qed.

Lemma ulps_sign (s : bool) (m : positive) (e : Z) :
  -149 <= e ->
  (s = true -> ulps (S754_finite s m e) < 0)
  /\ (s = false -> 0 < ulps (S754_finite s m e))
  /\ Z.abs (ulps (S754_finite s m e)) = Z.pos m * 2 ^ (e + 149).
Proof.
  intros He. rewrite ulps_finite.
  assert (0 < 2 ^ (e + 149)) by (apply pow2_pos; lia).
  destruct s; cbn [cond_Zopp]; repeat split; intros; try discriminate; nia.
Qed.

(** Multiplication. *)
Lemma mul_units (x y : float) :
  finite32 x = true -> finite32 y = true ->
  Z.abs (round_units (ulps x * ulps y) (2 ^ 149)) < overflow_ulps ->
  finite32 (Binary32.mul x y) = true
  /\ ulps (Binary32.mul x y) = round_units (ulps x * ulps y) (2 ^ 149).
Proof.
  intros Hx Hy Hov.
  assert (Hz : round_units 0 (2 ^ 149) = 0).
  { rewrite round_units_nonneg by lia. now apply round_ulps_zero. }
  destruct x as [sx | sx | | sx mx ex]; try discriminate;
    destruct y as [sy | sy | | sy my ey]; try discriminate;
    try (cbn [Binary32.mul SFmul ulps finite32];
         rewrite ?Z.mul_0_l, ?Z.mul_0_r, Hz; split; reflexivity).
  cbn [finite32] in Hx, Hy.
  pose proof (bounded_inv _ _ Hx) as (Hex & Hmx & Hnx).
  pose proof (bounded_inv _ _ Hy) as (Hey & Hmy & Hny).
  destruct (ulps_sign sx mx ex ltac:(lia)) as (Hsx1 & Hsx2 & Hax).
  destruct (ulps_sign sy my ey ltac:(lia)) as (Hsy1 & Hsy2 & Hay).
  unfold Binary32.mul, SFmul.
  rewrite Pos2Z.inj_mul.
  set (N := Z.pos mx * Z.pos my) in *.
  assert (HN : 0 < N) by (unfold N; lia).
  assert (Ex : forall s e,
             binary_round_aux Binary32.prec Binary32.emax s N e loc_Exact
             = binary_round_aux Binary32.prec Binary32.emax s (N / 1) e
                 (loc_of N 1)).
  { intros. now rewrite Z.div_1_r, loc_of_exact. }
  rewrite Ex.
  assert (Hp1 : 0 < 2 ^ (ex + 149)) by (apply pow2_pos; lia).
  assert (Hp2 : 0 < 2 ^ (ey + 149)) by (apply pow2_pos; lia).
  apply binary_round_aux_rational; try lia.
  - rewrite Z.div_1_r, fexp32.
    destruct (Z_le_gt_dec (ex + ey) (-149)) as [Hle | Hgt]; [lia|].
    assert (2 ^ 23 <= N).
    { destruct (Z.eq_dec ex (-149)).
      - specialize (Hny ltac:(lia)). unfold N. nia.
      - specialize (Hnx ltac:(lia)). unfold N. nia. }
    pose proof (Zdigits2_ge_24 N ltac:(lia)). lia.
  - rewrite Z.abs_mul, Hax, Hay. unfold N.
    destruct (Z_le_gt_dec (-149) (ex + ey)) as [Hge | Hlt].
    + rewrite (Z.max_l (ex + ey + 149) 0), (Z.max_r (- 149 - (ex + ey)) 0)
        by lia.
      replace (ex + ey + 149) with ((ex + 149) + ey) by lia.
      replace (ey + 149) with (ey + 149) by lia.
      transitivity (Z.pos mx * Z.pos my * 2 ^ (ex + 149 + (ey + 149))).
      * replace (ex + 149 + (ey + 149)) with (ex + 149 + ey + 149) by lia.
        rewrite (pow2_split (ex + 149 + ey) 149) by lia. ring.
      * rewrite (pow2_split (ex + 149) (ey + 149)) by lia. ring.
    + rewrite (Z.max_r (ex + ey + 149) 0), (Z.max_l (- 149 - (ex + ey)) 0)
        by lia.
      transitivity (Z.pos mx * Z.pos my * 2 ^ (ex + 149 + (ey + 149)
                                                 + (- 149 - (ex + ey)))).
      * replace (ex + 149 + (ey + 149) + (- 149 - (ex + ey))) with 149
          by lia. ring.
      * rewrite (pow2_split (ex + 149 + (ey + 149)) (- 149 - (ex + ey)))
          by lia.
        rewrite (pow2_split (ex + 149) (ey + 149)) by lia. ring.
  - intros H. destruct sx, sy; try reflexivity;
      specialize (Hsx1 eq_refl) || specialize (Hsx2 eq_refl);
      specialize (Hsy1 eq_refl) || specialize (Hsy2 eq_refl); nia.
  - intros H. destruct sx, sy; try reflexivity;
      specialize (Hsx1 eq_refl) || specialize (Hsx2 eq_refl);
      specialize (Hsy1 eq_refl) || specialize (Hsy2 eq_refl); nia.
Qed.

Lemma div_eucl_div_mod (a b : Z) : Z.div_eucl a b = (a / b, a mod b).
Proof. unfold Z.div, Z.modulo. now destruct (Z.div_eucl a b). Qed.

Lemma new_location_loc (N D : Z) :
  0 < D -> new_location D (N mod D) = loc_of N D.
Proof.
  intros HD. pose proof (Z.mod_pos_bound N D HD) as Hr.
  unfold new_location, new_location_even, new_location_odd, loc_of.
  destruct (Z.even D) eqn:Ev; [reflexivity|].
  destruct (Z.eqb_spec (N mod D) 0); [reflexivity|]. f_equal.
  assert (Hodd : Z.odd D = true) by (rewrite <- Z.negb_even, Ev; reflexivity).
  apply Z.odd_spec in Hodd. destruct Hodd as [k Hk].
  destruct (Z.compare_spec (2 * (N mod D) + 1) D),
    (Z.compare_spec (2 * (N mod D)) D); try lia; reflexivity.
Qed.

Lemma Zdigits2_pow2 (k : Z) : 0 <= k -> Zdigits2 (2 ^ k) = k + 1.
Proof.
  intros Hk. apply Zdigits2_unique; [|lia].
  replace (k + 1 - 1) with k by lia. split; [lia|].
  apply Z.pow_lt_mono_r; lia.
Qed.

(** Division by a positive number. *)
Lemma div_units (x y : float) :
  finite32 x = true -> finite32 y = true -> 0 < ulps y ->
  Z.abs (round_units (ulps x * 2 ^ 149) (ulps y)) < overflow_ulps ->
  finite32 (Binary32.div x y) = true
  /\ ulps (Binary32.div x y) = round_units (ulps x * 2 ^ 149) (ulps y).
Proof.
  intros Hx Hy Hpos Hov.
  destruct y as [sy | sy | | sy my ey]; try discriminate.
  cbn [finite32] in Hy.
  pose proof (bounded_inv _ _ Hy) as (Hey & Hmy & Hny).
  destruct (ulps_sign sy my ey ltac:(lia)) as (Hsy1 & Hsy2 & Hay).
  destruct sy; [specialize (Hsy1 eq_refl); lia|]. clear Hsy1 Hsy2.
  replace (Z.abs (ulps (S754_finite false my ey)))
    with (ulps (S754_finite false my ey)) in Hay by lia.
  destruct x as [sx | sx | | sx mx ex]; try discriminate.
  { cbn [Binary32.div SFdiv finite32].
    change (ulps (S754_zero sx)) with 0.
    change (ulps (S754_zero (xorb sx false))) with 0. rewrite Z.mul_0_l.
    rewrite round_units_nonneg, round_ulps_zero by lia. now split. }
  cbn [finite32] in Hx.
  pose proof (bounded_inv _ _ Hx) as (Hex & Hmx & Hnx).
  destruct (ulps_sign sx mx ex ltac:(lia)) as (Hsx1 & Hsx2 & Hax).
  unfold Binary32.div, SFdiv, SFdiv_core_binary.
  rewrite div_eucl_div_mod, fexp32.
  set (d1 := Zdigits2 (Z.pos mx)). set (d2 := Zdigits2 (Z.pos my)).
  set (e' := Z.min (Z.max (d1 + ex - (d2 + ey) - 24) (-149)) (ex - ey)).
  set (s := ex - ey - e').
  assert (Hs : 0 <= s) by (unfold s, e'; lia).
  assert (Em : match s with
               | 0 => Z.pos mx
               | Z.pos _ => Z.shiftl (Z.pos mx) s
               | Z.neg _ => 0
               end = Z.pos mx * 2 ^ s).
  { destruct s as [|p|p] eqn:Es; [cbn; lia | | lia].
    now rewrite Z.shiftl_mul_pow2 by lia. }
  rewrite Em, new_location_loc by lia. rewrite xorb_false_r.
  assert (Hps : 0 < 2 ^ s) by (apply pow2_pos; lia).
  destruct (Zdigits2_bounds (Z.pos mx) ltac:(lia)) as [Hlo1 Hhi1].
  destruct (Zdigits2_bounds (Z.pos my) ltac:(lia)) as [Hlo2 Hhi2].
  fold d1 in Hlo1, Hhi1. fold d2 in Hlo2, Hhi2.
  assert (Hd1 : 0 < d1) by (apply Zdigits2_pos; lia).
  assert (Hd2 : 0 < d2) by (apply Zdigits2_pos; lia).
  assert (Hp1 : 0 < 2 ^ (ex + 149)) by (apply pow2_pos; lia).
  assert (Hp2 : 0 < 2 ^ (ey + 149)) by (apply pow2_pos; lia).
  apply binary_round_aux_rational;
    [apply Z.mul_nonneg_nonneg; lia | lia | | lia | | | | exact Hov].
  - rewrite fexp32.
    assert (Hq : d1 + s - d2 <= Zdigits2 (Z.pos mx * 2 ^ s / Z.pos my)).
    { destruct (Z_le_gt_dec (d1 + s - d2) 0) as [Hle | Hgt].
      - pose proof (Zdigits2_nonneg (Z.pos mx * 2 ^ s / Z.pos my)). lia.
      - replace (d1 + s - d2) with (d1 + s - d2 - 1 + 1) by lia.
        rewrite <- (Zdigits2_pow2 (d1 + s - d2 - 1)) by lia.
        apply Zdigits2_le. split; [apply Z.pow_nonneg; lia|].
        apply Z.div_le_lower_bound; [lia|].
        assert (E1 : 2 ^ (d1 - 1 + s) = 2 ^ (d1 + s - d2 - 1) * 2 ^ d2).
        { rewrite <- pow2_split by lia. f_equal. lia. }
        rewrite (pow2_split (d1 - 1) s) in E1 by lia.
        assert (0 < 2 ^ (d1 + s - d2 - 1)) by (apply pow2_pos; lia).
        apply Z.le_trans with (2 ^ (d1 + s - d2 - 1) * 2 ^ d2).
        + rewrite (Z.mul_comm (Z.pos my)).
          apply Z.mul_le_mono_nonneg_l; lia.
        + rewrite <- E1. apply Z.mul_le_mono_nonneg_r; lia. }
    unfold e', s in *. lia.
  - rewrite Z.abs_mul, Hax, Hay.
    rewrite (Z.abs_eq (2 ^ 149)) by lia.
    assert (Et : s + Z.max (e' + 149) 0 + (ey + 149)
                 = ex + 149 + 149 + Z.max (- 149 - e') 0)
      by (unfold s; lia).
    transitivity (Z.pos mx * Z.pos my
                  * 2 ^ (s + Z.max (e' + 149) 0 + (ey + 149))).
    + rewrite (pow2_split (s + Z.max (e' + 149) 0) (ey + 149)) by lia.
      rewrite (pow2_split s (Z.max (e' + 149) 0)) by lia. ring.
    + rewrite Et.
      rewrite (pow2_split (ex + 149 + 149) (Z.max (- 149 - e') 0)) by lia.
      rewrite (pow2_split (ex + 149) 149) by lia. ring.
  - intros H. destruct sx; [reflexivity|]. specialize (Hsx2 eq_refl). nia.
  - intros H. destruct sx; [|reflexivity]. specialize (Hsx1 eq_refl). nia.
Qed.

(** ** Magnitudes *)

Lemma round_units_abs_le (X D k : Z) :
  0 < D -> 0 <= k -> Z.abs X <= 2 ^ k * D ->
  Z.abs (round_units X D) <= 2 ^ k.
Proof.
  intros HD Hk H.
  pose proof (representable_pow2 k Hk) as Hr.
  assert (Hp : 0 < 2 ^ k) by (apply pow2_pos; lia).
  assert (round_units X D <= 2 ^ k).
  { apply round_units_le; [lia | | lia]. now rewrite Z.abs_eq by lia. }
  assert (- 2 ^ k <= round_units X D).
  { apply round_units_ge; [lia | | lia].
    now rewrite Z.abs_opp, Z.abs_eq by lia. }
  lia.
Qed.

Lemma pow2_lt_overflow (k : Z) : k <= 127 -> 2 ^ (k + 149) < overflow_ulps.
Proof.
  intros H. unfold overflow_ulps.
  destruct (Z_lt_le_dec (k + 149) 0) as [Hn | Hn].
  - rewrite Z.pow_neg_r by lia. reflexivity.
  - apply Z.pow_lt_mono_r; lia.
Qed.

Lemma within_weaken (k k' : Z) (x : float) :
  within k x -> 0 <= k + 149 -> k <= k' -> within k' x.
Proof.
  intros [Hf Hb] H0 H. split; [exact Hf|].
  assert (2 ^ (k + 149) <= 2 ^ (k' + 149)) by (apply pow2_le_mono; lia).
  lia.
Qed.

Lemma within_of_Z (n k : Z) :
  0 <= k <= 127 -> Z.abs n <= 2 ^ k ->
  within k (Binary32.of_Z n)
  /\ ulps (Binary32.of_Z n) = round_units (n * 2 ^ 149) 1.
Proof.
  intros Hk Hn.
  assert (Hb : Z.abs (round_units (n * 2 ^ 149) 1) <= 2 ^ (k + 149)).
  { apply round_units_abs_le; try lia.
    rewrite Z.abs_mul, (Z.abs_eq (2 ^ 149)), pow2_split by lia. nia. }
  pose proof (pow2_lt_overflow k ltac:(lia)).
  destruct (of_Z_units n ltac:(lia)) as [Hf Hu].
  split; [split|]; [exact Hf | rewrite Hu; exact Hb | exact Hu].
Qed.

Lemma within_mul (a b : Z) (x y : float) :
  within a x -> within b y -> 0 <= a + 149 -> 0 <= b + 149 ->
  0 <= a + b + 149 -> a + b <= 127 ->
  within (a + b) (Binary32.mul x y)
  /\ ulps (Binary32.mul x y) = round_units (ulps x * ulps y) (2 ^ 149).
Proof.
  intros [Hfx Hbx] [Hfy Hby] Ha Hb Hab Hk.
  assert (Hbd : Z.abs (round_units (ulps x * ulps y) (2 ^ 149))
                <= 2 ^ (a + b + 149)).
  { apply round_units_abs_le; try lia.
    rewrite Z.abs_mul, <- pow2_split by lia.
    replace (a + b + 149 + 149) with ((a + 149) + (b + 149)) by lia.
    rewrite pow2_split by lia.
    apply Z.mul_le_mono_nonneg; lia. }
  pose proof (pow2_lt_overflow (a + b) ltac:(lia)).
  destruct (mul_units x y Hfx Hfy ltac:(lia)) as [Hf Hu].
  split; [split|]; [exact Hf | rewrite Hu; exact Hbd | exact Hu].
Qed.

Lemma within_add (a b : Z) (x y : float) :
  within a x -> within b y -> 0 <= a + 149 -> 0 <= b + 149 ->
  Z.max a b + 1 <= 127 ->
  within (Z.max a b + 1) (Binary32.add x y)
  /\ ulps (Binary32.add x y) = round_units (ulps x + ulps y) 1.
Proof.
  intros [Hfx Hbx] [Hfy Hby] Ha Hb Hk.
  assert (Hbd : Z.abs (round_units (ulps x + ulps y) 1)
                <= 2 ^ (Z.max a b + 1 + 149)).
  { apply round_units_abs_le; try lia.
    assert (2 ^ (a + 149) <= 2 ^ (Z.max a b + 149))
      by (apply pow2_le_mono; lia).
    assert (2 ^ (b + 149) <= 2 ^ (Z.max a b + 149))
      by (apply pow2_le_mono; lia).
    replace (Z.max a b + 1 + 149) with (1 + (Z.max a b + 149)) by lia.
    rewrite (pow2_split 1 (Z.max a b + 149)) by lia.
    rewrite Z.pow_1_r. lia. }
  pose proof (pow2_lt_overflow (Z.max a b + 1) ltac:(lia)).
  destruct (add_units x y Hfx Hfy ltac:(lia)) as [Hf Hu].
  split; [split|]; [exact Hf | rewrite Hu; exact Hbd | exact Hu].
Qed.

(** Division by a number that is at least 1. *)
Lemma within_div (a : Z) (x y : float) :
  within a x -> finite32 y = true -> 2 ^ 149 <= ulps y ->
  0 <= a + 149 -> a <= 127 ->
  within a (Binary32.div x y)
  /\ ulps (Binary32.div x y) = round_units (ulps x * 2 ^ 149) (ulps y).
Proof.
  intros [Hfx Hbx] Hfy Hy Ha Hk.
  assert (Hbd : Z.abs (round_units (ulps x * 2 ^ 149) (ulps y))
                <= 2 ^ (a + 149)).
  { apply round_units_abs_le; try lia.
    rewrite Z.abs_mul, (Z.abs_eq (2 ^ 149)) by lia.
    apply Z.mul_le_mono_nonneg; lia. }
  pose proof (pow2_lt_overflow a ltac:(lia)).
  destruct (div_units x y Hfx Hfy ltac:(lia) ltac:(lia)) as [Hf Hu].
  split; [split|]; [exact Hf | rewrite Hu; exact Hbd | exact Hu].
Qed.

Lemma representable_scaled (m k : Z) :
  0 <= m < 2 ^ 24 -> 0 <= k -> representable (m * 2 ^ k).
Proof.
  intros Hm Hk.
  assert (Hp : 0 < 2 ^ k) by (apply pow2_pos; lia).
  split; [nia|].
  destruct (Z.eq_dec m 0) as [-> | Hne]; [now rewrite Z.mul_0_l|].
  rewrite Zdigits2_mul_pow2 by lia.
  destruct (Zdigits2_bounds m ltac:(lia)) as [Hlo _].
  pose proof (Zdigits2_pos m ltac:(lia)).
  assert (Zdigits2 m - 1 < 24) by (apply pow2_lt_mono; lia).
  set (n := Z.max (Zdigits2 m + k - 24) 0).
  assert (Hn : 0 <= n <= k) by (unfold n; lia).
  replace k with (k - n + n) at 1 by lia.
  rewrite pow2_split by lia.
  rewrite Z.mul_assoc. apply Z.mod_mul. apply Z.pow_nonzero; lia.
Qed.

(** * The program: control flow *)

(** ** Machine integers *)

Lemma wrap32_small (z : Z) : int_range z -> wrap32 z = z.
Proof.
  unfold int_range, INT_MIN, INT_MAX, wrap32. intros H.
  rewrite Z.mod_small; lia.
Qed.

Lemma wrap32_range (z : Z) : int_range (wrap32 z).
Proof.
  unfold int_range, INT_MIN, INT_MAX, wrap32.
  pose proof (Z.mod_pos_bound (z + 2 ^ 31) (2 ^ 32)). lia.
Qed.

Lemma wrap64_small (z : Z) : - 2 ^ 63 <= z < 2 ^ 63 -> wrap64 z = z.
Proof.
  unfold wrap64. intros H. rewrite Z.mod_small; lia.
Qed.

(** ** [log2i] *)

Lemma log2i_loop_spec (fuel : nat) :
  forall n l, 0 <= n < 2 ^ Z.of_nat fuel -> (0 < fuel)%nat ->
              0 <= l -> l + Z.of_nat fuel < 2 ^ 63 ->
              log2i_loop fuel n l = Some (l + Z.log2 n).
Proof.
  induction fuel as [|fuel IH]; intros n l Hn Hf Hl Hb; [lia|].
  cbn [log2i_loop].
  rewrite Z.shiftr_div_pow2, Z.pow_1_r by lia.
  destruct (Z.eqb_spec (n / 2) 0) as [E|E].
  - assert (n < 2) by (apply Z.div_small_iff in E; lia).
    assert (n = 0 \/ n = 1) as [-> | ->] by lia; cbn; f_equal; lia.
  - assert (2 <= n).
    { destruct (Z_lt_le_dec n 2); [|lia]. rewrite Z.div_small in E; lia. }
    assert (Hpos : 0 < n / 2) by (apply Z.div_str_pos; lia).
    rewrite wrap64_small by lia.
    destruct fuel as [|fuel'].
    + cbn in Hn. lia.
    + rewrite IH; try lia.
      * f_equal.
        replace (n / 2) with (Z.shiftr n 1)
          by (rewrite Z.shiftr_div_pow2, Z.pow_1_r; lia).
        rewrite Z.log2_shiftr by lia.
        assert (1 <= Z.log2 n) by (apply Z.log2_le_pow2; cbn; lia).
        lia.
      * split; [lia|].
        apply Z.div_lt_upper_bound; [lia|].
        replace (Z.of_nat (S (S fuel'))) with (Z.succ (Z.of_nat (S fuel')))
          in Hn by lia.
        rewrite Z.pow_succ_r in Hn by lia. lia.
Qed.

(** On a non-negative [long] the loop ends and returns the integer
    logarithm. *)
Lemma log2i_spec (n : Z) : 0 <= n < 2 ^ 63 -> log2i n = Some (Z.log2 n).
Proof.
  intros H. unfold log2i.
  change (Z.log2 n) with (0 + Z.log2 n).
  apply log2i_loop_spec; change (Z.of_nat 64) with 64; lia.
Qed.

(** On a negative argument the condition [n >>= 1] never becomes zero. *)
Lemma log2i_loop_negative (fuel : nat) :
  forall n l, n < 0 -> log2i_loop fuel n l = None.
Proof.
  induction fuel as [|fuel IH]; intros n l Hn; [reflexivity|].
  cbn [log2i_loop].
  assert (Z.shiftr n 1 < 0) by (apply Z.shiftr_neg; lia).
  destruct (Z.eqb_spec (Z.shiftr n 1) 0); [lia|].
  now apply IH.
Qed.

(** ** The tables *)

Lemma table_get_base (algo proto : Z) :
  in_table algo proto -> exists v, table_get nccl_base_lat algo proto = Some v.
Proof.
  intros [Ha Hp]. split_index algo; split_index proto; eexists; reflexivity.
Qed.

Lemma table_get_nvlink (algo proto : Z) :
  in_table algo proto ->
  exists v, table_get nccl_nvlink_lat algo proto = Some v.
Proof.
  intros [Ha Hp]. split_index algo; split_index proto; eexists; reflexivity.
Qed.

Lemma in_all_pairs (ap : Z * Z) :
  In ap all_pairs <-> in_table (fst ap) (snd ap).
Proof.
  destruct ap as [a p]. unfold in_table, all_pairs. cbn [fst snd]. split.
  - intros H. apply in_prod_iff in H. cbn in H.
    unfold NCCL_NUM_ALGORITHMS, NCCL_NUM_PROTOCOLS. lia.
  - intros [Ha Hp]. apply in_prod_iff. cbn.
    unfold NCCL_NUM_ALGORITHMS, NCCL_NUM_PROTOCOLS in *. lia.
Qed.

Lemma admissible_in_table (cn nv : bool) (ap : Z * Z) :
  In ap (admissible cn nv) -> in_table (fst ap) (snd ap).
Proof.
  unfold admissible. intros H. apply filter_In in H.
  now apply in_all_pairs.
Qed.

(** ** The cost function returns *)

Lemma cost_switch_defined params dims func algo latency intraLat interLat :
  2 < num_nodes dims -> int_range (num_nodes dims) ->
  exists x, cost_switch params dims func algo latency intraLat interLat
            = Some x.
Proof.
  intros Hn Hr. unfold cost_switch.
  assert (Hl : log2i (num_nodes dims) = Some (Z.log2 (num_nodes dims))).
  { apply log2i_spec. unfold int_range, INT_MIN, INT_MAX in Hr. lia. }
  assert (Hd : exists q, int_div (num_ranks dims) (num_nodes dims) = Some q).
  { unfold int_div.
    destruct (Z.eqb_spec (num_nodes dims) 0); [lia|].
    destruct (Z.eqb_spec (num_nodes dims) (-1)); [lia|].
    rewrite andb_false_r. eauto. }
  destruct Hd as [q Hq].
  destruct func; try (eexists; reflexivity).
  destruct (algo =? NCCL_ALGO_RING); [eexists; reflexivity|].
  destruct (algo =? NCCL_ALGO_TREE).
  { rewrite Hq, Hl. eexists; reflexivity. }
  destruct (algo =? NCCL_ALGO_NVLS_TREE).
  { rewrite Hl. eexists; reflexivity. }
  eexists; reflexivity.
Qed.

Lemma compute_cost_defined params dims func algo proto pipe_ops size :
  2 < num_nodes dims -> int_range (num_nodes dims) -> in_table algo proto ->
  exists c, nccl_tuner_compute_cost params dims func algo proto pipe_ops size
            = Some c.
Proof.
  intros Hn Hr Ht. unfold nccl_tuner_compute_cost.
  destruct (table_get_base _ _ Ht) as [b ->].
  destruct (table_get_nvlink _ _ Ht) as [v ->]. cbn [bind].
  destruct (cost_switch_defined params dims func algo b v (net_lat params)
              Hn Hr) as [x ->].
  cbn [bind]. destruct x; eauto.
Qed.

(** ** The two loops visit the admissible pairs in order *)

Lemma visit_all_app ctx collType nBytes numPipeOps l1 l2 st :
  visit_all ctx collType nBytes numPipeOps (l1 ++ l2) st
  = bind (visit_all ctx collType nBytes numPipeOps l1 st)
      (visit_all ctx collType nBytes numPipeOps l2).
Proof.
  revert st. induction l1 as [|ap l1 IH]; intros st; cbn; [reflexivity|].
  destruct (visit_pair _ _ _ _ _ _ st); cbn; auto.
Qed.

Lemma proto_loop ctx collType nBytes numPipeOps algo st :
  for_loop (Z.to_nat NCCL_NUM_PROTOCOLS) 0
    (proto_body ctx collType nBytes numPipeOps algo) st
  = visit_all ctx collType nBytes numPipeOps
      (filter (fun ap => compatible (fst ap) (snd ap))
         [(algo, 0); (algo, 1); (algo, 2)]) st.
Proof.
  change (Z.to_nat NCCL_NUM_PROTOCOLS) with 3%nat.
  unfold for_loop, proto_body, compatible, NCCL_PROTO_SIMPLE.
  cbn [filter fst snd Z.add Z.eqb Pos.add Pos.eqb negb orb andb].
  destruct (algo =? NCCL_ALGO_NVLS_TREE);
    cbn [negb orb andb visit_all bind fst snd];
    repeat (destruct (visit_pair _ _ _ _ _ _ _); cbn [bind]; try reflexivity).
Qed.

Lemma algo_body_row ctx collType nBytes collNetSupport nvlsSupport numPipeOps
    algo st :
  algo_body ctx collType nBytes collNetSupport nvlsSupport numPipeOps algo st
  = visit_all ctx collType nBytes numPipeOps
      (admissible_row (truth collNetSupport) (truth nvlsSupport) algo) st.
Proof.
  unfold algo_body. rewrite proto_loop.
  unfold admissible_row, admissible_algo, truth. cbn [filter fst snd].
  destruct (algo =? NCCL_ALGO_NVLS); [reflexivity|].
  destruct (nvlsSupport =? 0), (algo =? NCCL_ALGO_NVLS_TREE),
    (collNetSupport =? 0), (algo =? NCCL_ALGO_COLLNET_DIRECT),
    (algo =? NCCL_ALGO_COLLNET_CHAIN); reflexivity.
Qed.

Lemma algo_loop_from ctx collType nBytes collNetSupport nvlsSupport numPipeOps
    (n : nat) :
  forall i st,
    for_loop n i
      (algo_body ctx collType nBytes collNetSupport nvlsSupport numPipeOps) st
    = visit_all ctx collType nBytes numPipeOps
        (flat_map (admissible_row (truth collNetSupport) (truth nvlsSupport))
           (counter_values i n)) st.
Proof.
  induction n as [|n IH]; intros i st; [reflexivity|].
  cbn [for_loop counter_values flat_map].
  rewrite algo_body_row, visit_all_app.
  destruct (visit_all _ _ _ _ _ st); cbn [bind]; auto.
Qed.

Lemma admissible_rows (cn nv : bool) :
  admissible cn nv
  = flat_map (admissible_row cn nv)
      (counter_values 0 (Z.to_nat NCCL_NUM_ALGORITHMS)).
Proof. destruct cn, nv; reflexivity. Qed.

Lemma algo_loop ctx collType nBytes collNetSupport nvlsSupport numPipeOps st :
  for_loop (Z.to_nat NCCL_NUM_ALGORITHMS) 0
    (algo_body ctx collType nBytes collNetSupport nvlsSupport numPipeOps) st
  = visit_all ctx collType nBytes numPipeOps
      (admissible (truth collNetSupport) (truth nvlsSupport)) st.
Proof. now rewrite algo_loop_from, admissible_rows. Qed.

(** The engine past its guard. *)
Lemma pluginGetCollInfo_search ctx collType nBytes collNetSupport nvlsSupport
    numPipeOps out0 :
  2 < num_nodes (dims ctx) ->
  pluginGetCollInfo ctx collType nBytes collNetSupport nvlsSupport numPipeOps
    out0
  = bind (visit_all ctx collType nBytes numPipeOps
            (admissible (truth collNetSupport) (truth nvlsSupport))
            {| out := out0; lowest := Binary32.FLT_MAX; evaluated := [] |})
      (fun st => Some (ncclSuccess, out st, rev (evaluated st))).
Proof.
  intros H. unfold pluginGetCollInfo.
  destruct (Z.leb_spec (num_nodes (dims ctx)) 2); [lia|].
  now rewrite algo_loop.
Qed.

(** ** What one visit does *)

Lemma visit_pair_cases ctx collType nBytes numPipeOps algo proto st c :
  nccl_tuner_compute_cost (params ctx) (dims ctx) collType algo proto
    numPipeOps nBytes = Some c ->
  exists st',
    visit_pair ctx collType nBytes numPipeOps algo proto st = Some st'
    /\ evaluated st' = (algo, proto) :: evaluated st
    /\ ((Binary32.ltb c Binary32.zero = false
         /\ Binary32.ltb c (lowest st) = true
         /\ out st' = recommend (out st) (algo, proto) /\ lowest st' = c)
        \/ ((Binary32.ltb c Binary32.zero = true
             \/ Binary32.ltb c (lowest st) = false)
            /\ out st' = out st /\ lowest st' = lowest st)).
Proof.
  intros Hc. unfold visit_pair. rewrite Hc. cbn [bind out lowest evaluated].
  change (Binary32.of_Z 0) with Binary32.zero.
  destruct (Binary32.ltb c Binary32.zero) eqn:E0.
  - eexists; split; [reflexivity|]. cbn. split; [reflexivity|].
    right. auto.
  - destruct (Binary32.ltb c (lowest st)) eqn:E1.
    + eexists; split; [reflexivity|]. cbn. split; [reflexivity|].
      left. auto.
    + eexists; split; [reflexivity|]. cbn. split; [reflexivity|].
      right. auto.
Qed.

(** Every visit returns when the cost function does; the trace grows by the
    pairs visited, the channel count is never written, and the incumbent, if
    it changes, is a visited pair of non-negative cost. *)
Lemma visit_all_inv ctx collType nBytes numPipeOps (l : list (Z * Z)) :
  (forall ap, In ap l ->
              exists c, cost_of ctx collType nBytes numPipeOps ap = Some c) ->
  forall st,
  exists st',
    visit_all ctx collType nBytes numPipeOps l st = Some st'
    /\ evaluated st' = rev l ++ evaluated st
    /\ nChannels (out st') = nChannels (out st)
    /\ (out st' = out st /\ lowest st' = lowest st
        \/ exists ap c,
             In ap l /\ cost_of ctx collType nBytes numPipeOps ap = Some c
             /\ Binary32.ltb c Binary32.zero = false
             /\ out st' = recommend (out st) ap /\ lowest st' = c).
Proof.
  induction l as [|ap l IH]; intros Hdef st.
  - exists st. cbn. repeat split; auto.
  - destruct (Hdef ap (or_introl eq_refl)) as [c Hc].
    destruct (visit_pair_cases ctx collType nBytes numPipeOps (fst ap)
                (snd ap) st c Hc) as (st1 & Hv & Htr & Hsel).
    destruct (IH (fun ap' H => Hdef ap' (or_intror H)) st1)
      as (st' & Hv' & Htr' & Hch & Hout).
    exists st'. cbn [visit_all]. rewrite Hv. cbn [bind].
    split; [exact Hv'|]. split.
    { rewrite Htr', Htr. cbn [rev]. rewrite <- app_assoc.
      now destruct ap. }
    assert (Hch1 : nChannels (out st1) = nChannels (out st)).
    { destruct Hsel as [(_ & _ & -> & _) | (_ & -> & _)]; reflexivity. }
    split; [congruence|].
    destruct Hout as [[Ho Hl] | (ap' & c' & Hin & Hc' & Hn & Ho & Hl)].
    + destruct Hsel as [(Hn & _ & Ho1 & Hl1) | (_ & Ho1 & Hl1)].
      * right. exists ap, c. repeat split; auto.
        -- now left.
        -- rewrite Ho, Ho1. now destruct ap.
        -- congruence.
      * left. split; congruence.
    + right. exists ap', c'. repeat split; auto.
      * now right.
      * rewrite Ho. unfold recommend. now rewrite Hch1.
Qed.

Lemma cost_of_defined ctx collType nBytes numPipeOps cn nv ap :
  2 < num_nodes (dims ctx) -> int_range (num_nodes (dims ctx)) ->
  In ap (admissible cn nv) ->
  exists c, cost_of ctx collType nBytes numPipeOps ap = Some c.
Proof.
  intros Hn Hr Hin. apply compute_cost_defined; auto.
  now apply admissible_in_table in Hin.
Qed.

(** The engine always returns, with [ncclSuccess]. *)
Lemma pluginGetCollInfo_returns ctx collType nBytes collNetSupport nvlsSupport
    numPipeOps out0 :
  int_range (num_nodes (dims ctx)) ->
  exists out' tr,
    pluginGetCollInfo ctx collType nBytes collNetSupport nvlsSupport
      numPipeOps out0 = Some (ncclSuccess, out', tr)
    /\ nChannels out' = nChannels out0
    /\ (num_nodes (dims ctx) <= 2 -> out' = out0 /\ tr = [])
    /\ (2 < num_nodes (dims ctx) ->
        tr = admissible (truth collNetSupport) (truth nvlsSupport))
    /\ (out' = out0
        \/ exists ap c,
             In ap tr /\ cost_of ctx collType nBytes numPipeOps ap = Some c
             /\ Binary32.ltb c Binary32.zero = false
             /\ out' = recommend out0 ap).
Proof.
  intros Hr.
  destruct (Z_le_gt_dec (num_nodes (dims ctx)) 2) as [Hle | Hgt].
  - exists out0, []. unfold pluginGetCollInfo.
    destruct (Z.leb_spec (num_nodes (dims ctx)) 2); [|lia].
    repeat split; auto; lia.
  - rewrite pluginGetCollInfo_search by lia.
    destruct (visit_all_inv ctx collType nBytes numPipeOps
                (admissible (truth collNetSupport) (truth nvlsSupport))
                (fun ap H => cost_of_defined ctx collType nBytes numPipeOps
                               _ _ ap ltac:(lia) Hr H)
                {| out := out0; lowest := Binary32.FLT_MAX;
                   evaluated := [] |})
      as (st' & Hv & Htr & Hch & Hsel).
    rewrite Hv. cbn [bind out evaluated lowest] in *.
    exists (out st'), (rev (evaluated st')).
    rewrite Htr, app_nil_r, rev_involutive.
    repeat split; auto; try lia.
    destruct Hsel as [[Ho _] | (ap & c & Hin & Hc & Hn & Ho & _)]; auto.
    right. exists ap, c. auto.
Qed.

(** ** The closed forms of the cost function *)

Lemma compute_cost_break params dims func algo proto pipe_ops size
    base intraLat latency bw :
  table_get nccl_base_lat algo proto = Some base ->
  table_get nccl_nvlink_lat algo proto = Some intraLat ->
  cost_switch params dims func algo base intraLat (net_lat params)
  = Some (Break latency bw) ->
  nccl_tuner_compute_cost params dims func algo proto pipe_ops size
  = Some (total_cost latency pipe_ops size proto bw).
Proof.
  intros Hb Hv Hs. unfold nccl_tuner_compute_cost.
  rewrite Hb, Hv. cbn [bind]. rewrite Hs. reflexivity.
Qed.

Lemma cost_switch_ring params dims base intraLat interLat :
  ring_steps_fit (num_ranks dims) (num_nodes dims) ->
  cost_switch params dims ncclFuncAllReduce NCCL_ALGO_RING base intraLat
    interLat
  = Some (Break (ring_latency base intraLat interLat (num_ranks dims)
                   (num_nodes dims))
            (ring_bandwidth params)).
Proof.
  intros (H1 & H2 & H3 & H4). unfold cost_switch.
  change (NCCL_ALGO_RING =? NCCL_ALGO_RING) with true. cbv iota.
  unfold ring_latency, ring_bandwidth, int_mul, int_sub.
  unfold ring_intranode_steps, ring_internode_steps, ring_total_steps in *.
  rewrite (wrap32_small (num_ranks dims - 1)) by assumption.
  rewrite (wrap32_small (2 * (num_ranks dims - 1))) by assumption.
  rewrite (wrap32_small (2 * num_nodes dims)) by assumption.
  rewrite wrap32_small by assumption.
  reflexivity.
Qed.

Lemma cost_switch_tree params dims base intraLat interLat :
  0 <= num_ranks dims <= INT_MAX -> 1 <= num_nodes dims <= INT_MAX ->
  cost_switch params dims ncclFuncAllReduce NCCL_ALGO_TREE base intraLat
    interLat
  = Some (Break (tree_latency base intraLat interLat (num_ranks dims)
                   (num_nodes dims))
            (tree_bandwidth params)).
Proof.
  intros Hr Hn. unfold cost_switch.
  change (NCCL_ALGO_TREE =? NCCL_ALGO_RING) with false.
  change (NCCL_ALGO_TREE =? NCCL_ALGO_TREE) with true. cbv iota.
  unfold int_div.
  destruct (Z.eqb_spec (num_nodes dims) 0); [lia|].
  destruct (Z.eqb_spec (num_nodes dims) (-1)); [lia|].
  rewrite andb_false_r. cbn [bind].
  unfold INT_MAX in *.
  rewrite log2i_spec by lia. cbn [bind].
  unfold tree_latency, tree_bandwidth, ring_bandwidth, int_sub.
  rewrite wrap32_small; [reflexivity|].
  assert (0 <= num_ranks dims ÷ num_nodes dims <= num_ranks dims).
  { split; [apply Z.quot_pos; lia|].
    rewrite Z.quot_div_nonneg by lia.
    apply Z.div_le_upper_bound; nia. }
  unfold int_range, INT_MIN, INT_MAX. lia.
Qed.

Lemma cost_switch_nvls_tree params dims base intraLat interLat :
  0 <= num_nodes dims <= INT_MAX ->
  cost_switch params dims ncclFuncAllReduce NCCL_ALGO_NVLS_TREE base intraLat
    interLat
  = Some (Break
            (Binary32.add base
               (Binary32.add intraLat
                  (Binary32.mul
                     (Binary32.of_Z (2 * Z.log2 (num_nodes dims)))
                     interLat)))
            (tree_bandwidth params)).
Proof.
  intros Hn. unfold cost_switch. unfold INT_MAX in Hn.
  change (NCCL_ALGO_NVLS_TREE =? NCCL_ALGO_RING) with false.
  change (NCCL_ALGO_NVLS_TREE =? NCCL_ALGO_TREE) with false.
  change (NCCL_ALGO_NVLS_TREE =? NCCL_ALGO_NVLS_TREE) with true. cbv iota.
  rewrite log2i_spec by lia. cbn [bind].
  assert (0 <= Z.log2 (num_nodes dims) < 31).
  { split; [apply Z.log2_nonneg|].
    destruct (Z.eq_dec (num_nodes dims) 0) as [-> | Hne]; [cbn; lia|].
    apply Z.log2_lt_pow2; lia. }
  rewrite wrap64_small by lia. reflexivity.
Qed.

(** ** Magnitudes in the cost function *)

Lemma table_entries (algo proto : Z) :
  in_table algo proto ->
  exists b v,
    table_get nccl_base_lat algo proto = Some b
    /\ table_get nccl_nvlink_lat algo proto = Some v
    /\ within 4 b /\ within 5 v /\ 0 <= ulps b /\ 0 <= ulps v.
Proof.
  intros [Ha Hp].
  split_index algo; split_index proto; do 2 eexists;
    (split; [reflexivity|]); (split; [reflexivity|]);
    unfold within; repeat split; try reflexivity; vm_compute; discriminate.
Qed.

Lemma table_get_in_table (t : list (list float)) (algo proto : Z) (x : float) :
  length t = 6%nat -> Forall (fun row => length row = 3%nat) t ->
  table_get t algo proto = Some x -> in_table algo proto.
Proof.
  intros Hl Hrows. unfold table_get, in_table.
  destruct (Z.ltb_spec algo 0); [discriminate|].
  destruct (Z.ltb_spec proto 0); [discriminate|]. cbn [orb].
  destruct (nth_error t (Z.to_nat algo)) as [row|] eqn:Er; [|discriminate].
  intros Hx.
  assert (Ha : (Z.to_nat algo < length t)%nat).
  { apply nth_error_Some. congruence. }
  assert (Hp : (Z.to_nat proto < length row)%nat).
  { apply nth_error_Some. congruence. }
  apply nth_error_In in Er.
  rewrite Forall_forall in Hrows. rewrite (Hrows row Er) in Hp.
  unfold NCCL_NUM_ALGORITHMS, NCCL_NUM_PROTOCOLS. lia.
Qed.

Lemma base_lat_in_table (algo proto : Z) (x : float) :
  table_get nccl_base_lat algo proto = Some x -> in_table algo proto.
Proof.
  apply table_get_in_table; [reflexivity|].
  repeat constructor.
Qed.

Lemma session_net_lat :
  within 2 (net_lat session_params)
  /\ ulps (net_lat session_params) = 3 * 2 ^ 149.
Proof. unfold within. repeat split; vm_compute; discriminate. Qed.

(** The bandwidth the cost function divides by, with the parameters of
    [pluginInit]: finite and at least 1. *)
Lemma session_bandwidth (proto : Z) (bw : float) :
  bw = ring_bandwidth session_params \/ bw = tree_bandwidth session_params ->
  finite32 (protocol_penalty proto bw) = true
  /\ 2 ^ 149 <= ulps (protocol_penalty proto bw).
Proof.
  unfold protocol_penalty.
  intros [-> | ->];
    destruct (proto =? NCCL_PROTO_LL);
    try destruct (proto =? NCCL_PROTO_LL128);
    split; try reflexivity; vm_compute; discriminate.
Qed.

Lemma int_range_abs (z : Z) : int_range z -> Z.abs z <= 2 ^ 31.
Proof. unfold int_range, INT_MIN, INT_MAX. lia. Qed.

Lemma log2i_range (n l : Z) :
  int_range n -> log2i n = Some l -> 0 <= l <= 31.
Proof.
  unfold int_range, INT_MIN, INT_MAX. intros Hn H.
  destruct (Z_lt_le_dec n 0) as [Hneg | Hpos].
  - unfold log2i in H. rewrite log2i_loop_negative in H by lia. discriminate.
  - rewrite log2i_spec in H by lia. injection H as <-.
    split; [apply Z.log2_nonneg|].
    destruct (Z.eq_dec n 0) as [-> | Hne]; [cbn; lia|].
    assert (Z.log2 n < 31) by (apply Z.log2_lt_pow2; lia). lia.
Qed.

Lemma within_add_le (a b k : Z) (x y : float) :
  within a x -> within b y -> 0 <= a + 149 -> 0 <= b + 149 ->
  Z.max a b + 1 <= k -> k <= 127 -> within k (Binary32.add x y).
Proof.
  intros Hx Hy Ha Hb Hk Hk'.
  destruct (within_add a b x y Hx Hy Ha Hb ltac:(lia)) as [H _].
  apply (within_weaken _ k _ H); lia.
Qed.

Lemma within_mul_le (a b k : Z) (x y : float) :
  within a x -> within b y -> 0 <= a -> 0 <= b ->
  a + b <= k -> k <= 127 -> within k (Binary32.mul x y).
Proof.
  intros Hx Hy Ha Hb Hk Hk'.
  destruct (within_mul a b x y Hx Hy ltac:(lia) ltac:(lia) ltac:(lia)
              ltac:(lia)) as [H _].
  apply (within_weaken _ k _ H); lia.
Qed.

Lemma within_of_int (n : Z) : int_range n -> within 31 (Binary32.of_Z n).
Proof.
  intros H. apply within_of_Z; [lia | now apply int_range_abs].
Qed.

Lemma within_of_small (n k : Z) :
  0 <= k <= 127 -> Z.abs n <= 2 ^ k -> within k (Binary32.of_Z n).
Proof. intros Hk H. now apply within_of_Z. Qed.

(** The shape of every result of the cost function. *)
Lemma compute_cost_shape params dims func algo proto pipe_ops size c :
  nccl_tuner_compute_cost params dims func algo proto pipe_ops size = Some c ->
  exists b v x,
    table_get nccl_base_lat algo proto = Some b
    /\ table_get nccl_nvlink_lat algo proto = Some v
    /\ cost_switch params dims func algo b v (net_lat params) = Some x
    /\ c = match x with
           | Return c' => c'
           | Break latency bw => total_cost latency pipe_ops size proto bw
           end.
Proof.
  unfold nccl_tuner_compute_cost. intros H.
  destruct (table_get nccl_base_lat algo proto) as [b|]; [|discriminate].
  destruct (table_get nccl_nvlink_lat algo proto) as [v|]; [|discriminate].
  cbn [bind] in H.
  destruct (cost_switch params dims func algo b v (net_lat params))
    as [x|] eqn:Ex; [|discriminate].
  cbn [bind] in H. exists b, v, x.
  split; [reflexivity|]. split; [reflexivity|]. split; [exact Ex|].
  destruct x; cbv beta iota in H; now injection H as <-.
Qed.

Lemma some_inj {A : Type} (a b : A) : Some a = Some b -> a = b.
Proof. congruence. Qed.

(** With the session's parameters every latency of the model is finite and
    below [2 ^ 39]. *)
Lemma cost_switch_within dims func algo b v x :
  int_range (num_ranks dims) -> int_range (num_nodes dims) ->
  within 4 b -> within 5 v ->
  cost_switch session_params dims func algo b v (net_lat session_params)
  = Some x ->
  match x with
  | Return c => c = Binary32.minus_one
  | Break latency bw =>
      within 39 latency
      /\ (bw = ring_bandwidth session_params
          \/ bw = tree_bandwidth session_params)
  end.
Proof.
  intros Hr Hn Hb Hv. unfold cost_switch.
  destruct session_net_lat as [Hnet _].
  destruct func; try (intros H; apply some_inj in H; subst x; reflexivity).
  destruct (algo =? NCCL_ALGO_RING).
  { intros H. apply some_inj in H. subst x. split; [|now left].
    apply (within_add_le 4 37); try lia; [exact Hb|].
    apply (within_add_le 33 36); try lia.
    - apply (within_mul_le 31 2); try lia; [|exact Hnet].
      apply within_of_int, wrap32_range.
    - apply (within_mul_le 31 5); try lia; [|exact Hv].
      apply within_of_int, wrap32_range. }
  destruct (algo =? NCCL_ALGO_TREE).
  { destruct (int_div (num_ranks dims) (num_nodes dims)) as [q|] eqn:Eq;
      [|discriminate]. cbn [bind].
    destruct (log2i (num_nodes dims)) as [l|] eqn:El; [|discriminate].
    cbn [bind]. intros H. apply some_inj in H. subst x. split; [|now right].
    pose proof (log2i_range _ _ Hn El) as Hl.
    apply (within_add_le 4 38); try lia; [exact Hb|].
    apply (within_mul_le 1 37); try lia.
    { apply within_of_small; [lia | cbn; lia]. }
    apply (within_add_le 36 7); try lia.
    - apply (within_mul_le 31 5); try lia; [|exact Hv].
      apply within_of_int, wrap32_range.
    - apply (within_mul_le 5 2); try lia; [|exact Hnet].
      apply within_of_small; [lia | cbn; lia]. }
  destruct (algo =? NCCL_ALGO_NVLS_TREE).
  { destruct (log2i (num_nodes dims)) as [l|] eqn:El; [|discriminate].
    cbn [bind]. intros H. apply some_inj in H. subst x. split; [|now right].
    pose proof (log2i_range _ _ Hn El) as Hl.
    apply (within_add_le 4 9); try lia; [exact Hb|].
    apply (within_add_le 5 8); try lia; [exact Hv|].
    apply (within_mul_le 6 2); try lia; [|exact Hnet].
    apply within_of_small; [lia|].
    rewrite wrap64_small by lia. change (2 ^ 6) with 64. lia. }
  intros H. apply some_inj in H. subst x. reflexivity.
Qed.

Lemma within_minus_one : within 0 Binary32.minus_one.
Proof. unfold within. split; [reflexivity | vm_compute; discriminate]. Qed.

Lemma size_range_abs (z : Z) : size_range z -> Z.abs z <= 2 ^ 64.
Proof. unfold size_range, SIZE_MAX. lia. Qed.

(** The total cost, in units, and its magnitude. *)
Lemma total_cost_units latency pipe_ops size proto bw :
  within 39 latency -> int_range pipe_ops -> size_range size ->
  bw = ring_bandwidth session_params \/ bw = tree_bandwidth session_params ->
  within 71 (total_cost latency pipe_ops size proto bw)
  /\ ulps (total_cost latency pipe_ops size proto bw)
     = round_units
         (round_units
            (ulps latency * round_units (pipe_ops * 2 ^ 149) 1) (2 ^ 149)
          + round_units
              (round_units (size * 2 ^ 149) 1 * 2 ^ 149)
              (ulps (protocol_penalty proto bw))) 1.
Proof.
  intros Hl Hp Hs Hbw. unfold total_cost.
  destruct (session_bandwidth proto bw Hbw) as [Hf Hge].
  destruct (within_of_Z pipe_ops 31 ltac:(lia) (int_range_abs _ Hp))
    as [Wp Up].
  destruct (within_of_Z size 64 ltac:(lia) (size_range_abs _ Hs))
    as [Ws Us].
  destruct (within_mul 39 31 _ _ Hl Wp ltac:(lia) ltac:(lia) ltac:(lia)
              ltac:(lia)) as [Wm Um].
  destruct (within_div 64 _ _ Ws Hf Hge ltac:(lia) ltac:(lia)) as [Wd Ud].
  destruct (within_add (39 + 31) 64 _ _ Wm Wd ltac:(lia) ltac:(lia)
              ltac:(cbn; lia)) as [Wa Ua].
  split; [exact Wa|].
  now rewrite Ua, Um, Ud, Up, Us.
Qed.

(** With the session's parameters every cost is a finite number below
    [2 ^ 71]. *)
Lemma compute_cost_within dims func algo proto pipe_ops size c :
  int_range (num_ranks dims) -> int_range (num_nodes dims) ->
  int_range pipe_ops -> size_range size ->
  nccl_tuner_compute_cost session_params dims func algo proto pipe_ops size
  = Some c ->
  within 71 c.
Proof.
  intros Hr Hn Hp Hs H.
  destruct (compute_cost_shape _ _ _ _ _ _ _ _ H)
    as (b & v & x & Hb & Hv & Hx & ->).
  pose proof (base_lat_in_table _ _ _ Hb) as Ht.
  destruct (table_entries _ _ Ht) as (b' & v' & Hb' & Hv' & Wb & Wv & _).
  rewrite Hb in Hb'. rewrite Hv in Hv'.
  injection Hb' as <-. injection Hv' as <-.
  pose proof (cost_switch_within dims func algo b v x Hr Hn Wb Wv Hx) as Hsw.
  destruct x as [c | latency bw].
  - subst c. apply (within_weaken 0); [apply within_minus_one | lia | lia].
  - destruct Hsw as [Wl Hbw].
    now apply total_cost_units.
Qed.

(** ** Signs *)

Lemma of_Z_nonneg (n k : Z) :
  0 <= k <= 127 -> 0 <= n <= 2 ^ k ->
  within k (Binary32.of_Z n) /\ 0 <= ulps (Binary32.of_Z n).
Proof.
  intros Hk Hn.
  destruct (within_of_Z n k Hk ltac:(lia)) as [W U]. split; [exact W|].
  rewrite U. apply round_units_sign; nia.
Qed.

Lemma mul_nonneg (a b k : Z) (x y : float) :
  within a x -> within b y -> 0 <= ulps x -> 0 <= ulps y ->
  0 <= a -> 0 <= b -> a + b <= k -> k <= 127 ->
  within k (Binary32.mul x y) /\ 0 <= ulps (Binary32.mul x y).
Proof.
  intros Wx Wy Hx Hy Ha Hb Hk Hk'.
  destruct (within_mul a b x y Wx Wy ltac:(lia) ltac:(lia) ltac:(lia)
              ltac:(lia)) as [W U].
  split; [apply (within_weaken _ k _ W); lia|].
  rewrite U. apply round_units_sign; [lia | nia].
Qed.

Lemma add_nonneg (a b k : Z) (x y : float) :
  within a x -> within b y -> 0 <= ulps x + ulps y ->
  0 <= a -> 0 <= b -> Z.max a b + 1 <= k -> k <= 127 ->
  within k (Binary32.add x y) /\ 0 <= ulps (Binary32.add x y).
Proof.
  intros Wx Wy Hxy Ha Hb Hk Hk'.
  destruct (within_add a b x y Wx Wy ltac:(lia) ltac:(lia) ltac:(lia))
    as [W U].
  split; [apply (within_weaken _ k _ W); lia|].
  rewrite U. apply round_units_sign; lia.
Qed.

(** A non-negative latency gives a non-negative total cost. *)
Lemma total_cost_nonneg latency pipe_ops size proto bw :
  within 39 latency -> 0 <= ulps latency ->
  0 <= pipe_ops <= INT_MAX -> size_range size ->
  bw = ring_bandwidth session_params \/ bw = tree_bandwidth session_params ->
  Binary32.leb Binary32.zero (total_cost latency pipe_ops size proto bw)
  = true.
Proof.
  intros Wl Hl Hp Hs Hbw.
  assert (Hp' : int_range pipe_ops).
  { unfold int_range, INT_MIN, INT_MAX in *. lia. }
  destruct (total_cost_units latency pipe_ops size proto bw Wl Hp' Hs Hbw)
    as [[Hf _] U].
  destruct (session_bandwidth proto bw Hbw) as [_ Hge].
  rewrite leb_ulps by (try exact Hf; reflexivity).
  change (ulps Binary32.zero) with 0. apply Z.leb_le. rewrite U.
  unfold size_range in Hs.
  pose proof (proj1 (round_units_sign (pipe_ops * 2 ^ 149) 1 ltac:(lia))
                ltac:(nia)) as H1.
  pose proof (proj1 (round_units_sign (size * 2 ^ 149) 1 ltac:(lia))
                ltac:(nia)) as H2.
  pose proof (proj1 (round_units_sign
                       (ulps latency * round_units (pipe_ops * 2 ^ 149) 1)
                       (2 ^ 149) ltac:(lia)) ltac:(nia)) as H3.
  pose proof (proj1 (round_units_sign
                       (round_units (size * 2 ^ 149) 1 * 2 ^ 149)
                       (ulps (protocol_penalty proto bw)) ltac:(lia))
                ltac:(nia)) as H4.
  apply round_units_sign; lia.
Qed.

(** The cost never decreases when the payload grows. *)
Lemma total_cost_monotone latency pipe_ops s1 s2 proto bw :
  within 39 latency -> int_range pipe_ops ->
  size_range s1 -> size_range s2 -> s1 <= s2 ->
  bw = ring_bandwidth session_params \/ bw = tree_bandwidth session_params ->
  Binary32.leb (total_cost latency pipe_ops s1 proto bw)
    (total_cost latency pipe_ops s2 proto bw) = true.
Proof.
  intros Wl Hp Hs1 Hs2 Hle Hbw.
  destruct (total_cost_units latency pipe_ops s1 proto bw Wl Hp Hs1 Hbw)
    as [[Hf1 _] U1].
  destruct (total_cost_units latency pipe_ops s2 proto bw Wl Hp Hs2 Hbw)
    as [[Hf2 _] U2].
  destruct (session_bandwidth proto bw Hbw) as [_ Hge].
  rewrite leb_ulps by assumption. apply Z.leb_le. rewrite U1, U2.
  apply round_units_mono; try lia.
  rewrite !Z.mul_1_r. apply Z.add_le_mono_l.
  assert (H1 : round_units (s1 * 2 ^ 149) 1 <= round_units (s2 * 2 ^ 149) 1).
  { apply round_units_mono; nia. }
  apply round_units_mono; try lia. nia.
Qed.

Lemma compute_cost_of_shape params dims func algo proto pipe_ops size b v x :
  table_get nccl_base_lat algo proto = Some b ->
  table_get nccl_nvlink_lat algo proto = Some v ->
  cost_switch params dims func algo b v (net_lat params) = Some x ->
  nccl_tuner_compute_cost params dims func algo proto pipe_ops size
  = Some match x with
         | Return c' => c'
         | Break latency bw => total_cost latency pipe_ops size proto bw
         end.
Proof.
  intros Hb Hv Hx. unfold nccl_tuner_compute_cost.
  rewrite Hb, Hv. cbn [bind]. rewrite Hx. cbn [bind]. now destruct x.
Qed.

(** ** The search keeps the first minimum *)

Section Search.

Variable ctx : nccl_tuner_context.
Variable collType : ncclFunc_t.
Variables nBytes numPipeOps : Z.
Variable out0 : outputs.

Let cost := cost_of ctx collType nBytes numPipeOps.

Lemma searched_nil :
  searched cost out0 []
    {| out := out0; lowest := Binary32.FLT_MAX; evaluated := [] |}.
Proof. left. repeat split. intros ap c []. Qed.

Lemma costs_finite_app (l1 l2 : list (Z * Z)) :
  costs_finite cost (l1 ++ l2) -> costs_finite cost l1 /\ costs_finite cost l2.
Proof.
  intros H. split; intros ap Hin; apply H; apply in_or_app; auto.
Qed.

Lemma nonneg_of_not_ltb (c : float) :
  finite32 c = true -> Binary32.ltb c Binary32.zero = false ->
  Binary32.leb Binary32.zero c = true.
Proof.
  intros Hf H. rewrite leb_ulps by (try assumption; reflexivity).
  rewrite ltb_ulps in H by (try assumption; reflexivity).
  change (ulps Binary32.zero) with 0 in *.
  apply Z.leb_le. apply Z.ltb_ge in H. lia.
Qed.

(** A visited pair that does not become the incumbent is negative or not
    below the incumbent. *)
Lemma skipped_not_better (c low : float) :
  finite32 c = true -> finite32 low = true ->
  Binary32.ltb c Binary32.zero = true \/ Binary32.ltb c low = false ->
  Binary32.leb Binary32.zero c = true -> ulps low <= ulps c.
Proof.
  intros Hf Hl H Hnn.
  rewrite leb_ulps in Hnn by (try assumption; reflexivity).
  change (ulps Binary32.zero) with 0 in Hnn. apply Z.leb_le in Hnn.
  destruct H as [H | H].
  - rewrite ltb_ulps in H by (try assumption; reflexivity).
    change (ulps Binary32.zero) with 0 in H. apply Z.ltb_lt in H. lia.
  - rewrite ltb_ulps in H by assumption. now apply Z.ltb_ge in H.
Qed.

Lemma searched_step (l : list (Z * Z)) (ap : Z * Z) (st : search_state) :
  costs_finite cost (l ++ [ap]) -> searched cost out0 l st ->
  exists st',
    visit_pair ctx collType nBytes numPipeOps (fst ap) (snd ap) st = Some st'
    /\ searched cost out0 (l ++ [ap]) st'.
Proof.
  intros Hfin Hs.
  destruct (costs_finite_app _ _ Hfin) as [Hfl Hfa].
  destruct (Hfa ap (or_introl eq_refl)) as (c & Hc & Hf & Hmax).
  assert (Hc' : nccl_tuner_compute_cost (params ctx) (dims ctx) collType
                  (fst ap) (snd ap) numPipeOps nBytes = Some c) by exact Hc.
  destruct (visit_pair_cases ctx collType nBytes numPipeOps (fst ap) (snd ap)
              st c Hc') as (st' & Hv & _ & Hsel).
  exists st'. split; [exact Hv|].
  assert (Hm : finite32 Binary32.FLT_MAX = true) by reflexivity.
  assert (Hfc : forall ap' c', In ap' l -> cost ap' = Some c' ->
                               finite32 c' = true).
  { intros ap' c' Hin Hc1.
    destruct (Hfl ap' Hin) as (c'' & Hc'' & Hf'' & _). congruence. }
  destruct Hs as [(Hnone & Ho & Hl) | (ap0 & c0 & Hbest & Ho & Hl)].
  - (* nothing selected yet *)
    destruct Hsel as [(Hn & Hlt & Ho' & Hl') | (Hskip & Ho' & Hl')].
    + right. exists ap, c. split; [|split].
      * exists l, []. split; [reflexivity|]. split; [exact Hc|].
        split; [now apply nonneg_of_not_ltb|]. split.
        -- intros ap' c' Hin Hc1 Hnn.
           rewrite (Hnone ap' c' Hin Hc1) in Hnn. discriminate.
        -- intros ap' c' [].
      * rewrite Ho', Ho. now destruct ap.
      * exact Hl'.
    + left. split; [|split; congruence].
      intros ap' c' Hin Hc1. apply in_app_or in Hin.
      destruct Hin as [Hin | [<- | []]]; [now apply (Hnone ap' c')|].
      assert (c' = c) by congruence. subst c'.
      destruct (Binary32.leb Binary32.zero c) eqn:Hnn; [|reflexivity].
      rewrite Hl in Hskip.
      pose proof (skipped_not_better c Binary32.FLT_MAX Hf Hm Hskip Hnn).
      lia.
  - (* an incumbent *)
    destruct Hbest as (before & after & El & Hc0 & Hn0 & Hbefore & Hafter).
    assert (Hf0 : finite32 c0 = true).
    { apply (Hfc ap0); [|exact Hc0].
      rewrite El. apply in_or_app. right. now left. }
    destruct Hsel as [(Hn & Hlt & Ho' & Hl') | (Hskip & Ho' & Hl')].
    + right. exists ap, c. split; [|split].
      * exists l, []. split; [reflexivity|]. split; [exact Hc|].
        split; [now apply nonneg_of_not_ltb|]. split.
        -- intros ap' c' Hin Hc1 Hnn.
           rewrite Hl, ltb_ulps in Hlt by assumption.
           apply Z.ltb_lt in Hlt.
           assert (Hf1 : finite32 c' = true) by now apply (Hfc ap').
           rewrite ltb_ulps by assumption. apply Z.ltb_lt.
           rewrite El in Hin. apply in_app_or in Hin.
           destruct Hin as [Hin | [<- | Hin]].
           ++ pose proof (Hbefore ap' c' Hin Hc1 Hnn) as Hb.
              rewrite ltb_ulps in Hb by assumption.
              apply Z.ltb_lt in Hb. lia.
           ++ assert (c' = c0) by congruence. subst c'. exact Hlt.
           ++ pose proof (Hafter ap' c' Hin Hc1 Hnn) as Ha.
              rewrite leb_ulps in Ha by assumption.
              apply Z.leb_le in Ha. lia.
        -- intros ap' c' [].
      * rewrite Ho', Ho. now destruct ap.
      * exact Hl'.
    + right. exists ap0, c0. split; [|split; congruence].
      exists before, (after ++ [ap]). split.
      { rewrite El, <- app_assoc. reflexivity. }
      split; [exact Hc0|]. split; [exact Hn0|]. split; [exact Hbefore|].
      intros ap' c' Hin Hc1 Hnn. apply in_app_or in Hin.
      destruct Hin as [Hin | [<- | []]]; [now apply (Hafter ap' c')|].
      assert (c' = c) by congruence. subst c'.
      rewrite Hl in Hskip.
      pose proof (skipped_not_better c c0 Hf Hf0 Hskip Hnn).
      rewrite leb_ulps by assumption. now apply Z.leb_le.
Qed.

Lemma searched_all (l2 : list (Z * Z)) :
  forall l1 st,
    costs_finite cost (l1 ++ l2) -> searched cost out0 l1 st ->
    exists st',
      visit_all ctx collType nBytes numPipeOps l2 st = Some st'
      /\ searched cost out0 (l1 ++ l2) st'.
Proof.
  induction l2 as [|ap l2 IH]; intros l1 st Hfin Hs.
  - exists st. cbn [visit_all]. now rewrite app_nil_r.
  - replace (l1 ++ ap :: l2) with ((l1 ++ [ap]) ++ l2) in *
      by (rewrite <- app_assoc; reflexivity).
    destruct (costs_finite_app _ _ Hfin) as [Hf1 _].
    destruct (searched_step l1 ap st Hf1 Hs) as (st1 & Hv & Hs1).
    destruct (IH (l1 ++ [ap]) st1 Hfin Hs1) as (st' & Hv' & Hs').
    exists st'. cbn [visit_all]. rewrite Hv. cbn [bind]. auto.
Qed.

End Search.

Lemma session_costs_finite nRanks nNodes collType nBytes numPipeOps cn nv :
  2 < num_nodes (dims (session nRanks nNodes)) ->
  size_range nBytes -> int_range numPipeOps ->
  costs_finite (cost_of (session nRanks nNodes) collType nBytes numPipeOps)
    (admissible cn nv).
Proof.
  intros Hn Hs Hp ap Hin.
  assert (Hr : int_range (num_nodes (dims (session nRanks nNodes))))
    by apply wrap32_range.
  destruct (cost_of_defined (session nRanks nNodes) collType nBytes
              numPipeOps cn nv ap Hn Hr Hin) as [c Hc].
  exists c. split; [exact Hc|].
  assert (W : within 71 c).
  { apply (compute_cost_within (dims (session nRanks nNodes)) collType
             (fst ap) (snd ap) numPipeOps nBytes); auto.
    apply wrap32_range. }
  destruct W as [Hf Hb]. split; [exact Hf|].
  assert (2 ^ (71 + 149) < ulps Binary32.FLT_MAX) by (vm_compute; reflexivity).
  lia.
Qed.

(** ** The latencies of the model are not negative *)

Lemma ring_table_entries (proto : Z) :
  0 <= proto < NCCL_NUM_PROTOCOLS ->
  exists b v,
    table_get nccl_base_lat NCCL_ALGO_RING proto = Some b
    /\ table_get nccl_nvlink_lat NCCL_ALGO_RING proto = Some v
    /\ within 4 b /\ within 5 v
    /\ 2 * 2 ^ 148 <= ulps b /\ 0 <= ulps v <= 7 * 2 ^ 148.
Proof.
  intros Hp.
  split_index proto; do 2 eexists;
    (split; [reflexivity|]); (split; [reflexivity|]);
    unfold within; repeat split; try reflexivity; vm_compute; discriminate.
Qed.

(** With at most as many nodes as ranks, the latency of the ring is not
    negative, also when [rankCount = nodeCount] makes the number of
    intra-node steps negative. *)
Lemma ring_latency_nonneg (b v : float) (r n : Z) :
  within 4 b -> within 5 v ->
  2 * 2 ^ 148 <= ulps b -> 0 <= ulps v <= 7 * 2 ^ 148 ->
  1 <= n <= r -> r < 2 ^ 30 ->
  within 39 (ring_latency b v (net_lat session_params) r n)
  /\ 0 <= ulps (ring_latency b v (net_lat session_params) r n).
Proof.
  intros Wb Wv Hb Hv Hn Hr. unfold ring_latency.
  destruct session_net_lat as [Wnet Unet].
  unfold ring_intranode_steps, ring_total_steps, ring_internode_steps.
  set (inter := 2 * n). set (intra := 2 * (r - 1) - inter).
  assert (Hinter : 2 <= inter < 2 ^ 31) by (unfold inter; lia).
  assert (Hintra : -2 <= intra < 2 ^ 31) by (unfold intra; lia).
  clearbody inter intra.
  destruct (within_of_Z inter 31 ltac:(lia) ltac:(lia)) as [W1 U1].
  destruct (within_of_Z intra 31 ltac:(lia) ltac:(lia)) as [W3 U3].
  destruct (within_mul 31 2 _ _ W1 Wnet ltac:(lia) ltac:(lia) ltac:(lia)
              ltac:(lia)) as [W2 U2].
  destruct (within_mul 31 5 _ _ W3 Wv ltac:(lia) ltac:(lia) ltac:(lia)
              ltac:(lia)) as [W4 U4].
  destruct (within_add (31 + 2) (31 + 5) _ _ W2 W4 ltac:(lia) ltac:(lia)
              ltac:(cbn; lia)) as [W5 U5].
  destruct (within_add 4 (Z.max (31 + 2) (31 + 5) + 1) _ _ Wb W5 ltac:(lia)
              ltac:(cbn; lia) ltac:(cbn; lia)) as [W6 U6].
  split; [apply (within_weaken _ 39 _ W6); cbn; lia|].
  assert (L1 : 2 ^ 150 <= ulps (Binary32.of_Z inter)).
  { rewrite U1. apply round_units_ge; [lia | | lia].
    exact (representable_pow2 150 ltac:(lia)). }
  assert (L2 : 6 * 2 ^ 149
               <= ulps (Binary32.mul (Binary32.of_Z inter)
                          (net_lat session_params))).
  { rewrite U2, Unet. apply round_units_ge; [lia | | lia].
    exact (representable_scaled 6 149 ltac:(lia) ltac:(lia)). }
  assert (L3 : - 2 ^ 150 <= ulps (Binary32.of_Z intra)).
  { rewrite U3. apply round_units_ge; [lia | | lia].
    exact (representable_pow2 150 ltac:(lia)). }
  assert (L4 : - (7 * 2 ^ 149)
               <= ulps (Binary32.mul (Binary32.of_Z intra) v)).
  { rewrite U4. apply round_units_ge; [lia | |].
    - exact (representable_scaled 7 149 ltac:(lia) ltac:(lia)).
    - assert (0 <= (ulps (Binary32.of_Z intra) + 2 ^ 150) * ulps v)
        by (apply Z.mul_nonneg_nonneg; lia).
      lia. }
  assert (L5 : - 2 ^ 149
               <= ulps (Binary32.add
                          (Binary32.mul (Binary32.of_Z inter)
                             (net_lat session_params))
                          (Binary32.mul (Binary32.of_Z intra) v))).
  { rewrite U5. apply round_units_ge; [lia | | lia].
    exact (representable_pow2 149 ltac:(lia)). }
  rewrite U6. apply round_units_sign; lia.
Qed.

Lemma tree_latency_nonneg (b v : float) (r n : Z) :
  within 4 b -> within 5 v -> 0 <= ulps b -> 0 <= ulps v ->
  1 <= n <= r -> r < 2 ^ 30 ->
  within 39 (tree_latency b v (net_lat session_params) r n)
  /\ 0 <= ulps (tree_latency b v (net_lat session_params) r n).
Proof.
  intros Wb Wv Hb Hv Hn Hr. unfold tree_latency.
  destruct session_net_lat as [Wnet Unet].
  assert (Hq : 0 <= r ÷ n - 1 <= 2 ^ 31).
  { rewrite Z.quot_div_nonneg by lia.
    assert (1 <= r / n) by (apply Z.div_le_lower_bound; lia).
    assert (r / n <= r) by (apply Z.div_le_upper_bound; nia).
    lia. }
  assert (Hl : 0 <= Z.log2 n <= 2 ^ 5).
  { split; [apply Z.log2_nonneg|].
    assert (Z.log2 n < 30) by (apply Z.log2_lt_pow2; lia). lia. }
  destruct (of_Z_nonneg (r ÷ n - 1) 31 ltac:(lia) Hq) as [W1 N1].
  destruct (of_Z_nonneg (Z.log2 n) 5 ltac:(lia) Hl) as [W2 N2].
  destruct (of_Z_nonneg 2 1 ltac:(lia) ltac:(lia)) as [W3 N3].
  destruct (mul_nonneg 31 5 36 _ _ W1 Wv N1 Hv ltac:(lia) ltac:(lia)
              ltac:(lia) ltac:(lia)) as [W4 N4].
  assert (Nnet : 0 <= ulps (net_lat session_params)) by (rewrite Unet; lia).
  destruct (mul_nonneg 5 2 7 _ _ W2 Wnet N2 Nnet ltac:(lia) ltac:(lia)
              ltac:(lia) ltac:(lia)) as [W5 N5].
  destruct (add_nonneg 36 7 37 _ _ W4 W5 ltac:(lia) ltac:(lia) ltac:(lia)
              ltac:(lia) ltac:(lia)) as [W6 N6].
  destruct (mul_nonneg 1 37 38 _ _ W3 W6 N3 N6 ltac:(lia) ltac:(lia)
              ltac:(lia) ltac:(lia)) as [W7 N7].
  apply (add_nonneg 4 38 39); try lia; assumption.
Qed.

Lemma nvls_tree_latency_nonneg (b v : float) (n : Z) :
  within 4 b -> within 5 v -> 0 <= ulps b -> 0 <= ulps v ->
  1 <= n < 2 ^ 30 ->
  within 39
    (Binary32.add b
       (Binary32.add v
          (Binary32.mul (Binary32.of_Z (2 * Z.log2 n))
             (net_lat session_params))))
  /\ 0 <= ulps
            (Binary32.add b
               (Binary32.add v
                  (Binary32.mul (Binary32.of_Z (2 * Z.log2 n))
                     (net_lat session_params)))).
Proof.
  intros Wb Wv Hb Hv Hn.
  destruct session_net_lat as [Wnet Unet].
  assert (Hl : 0 <= 2 * Z.log2 n <= 2 ^ 6).
  { pose proof (Z.log2_nonneg n).
    assert (Z.log2 n < 30) by (apply Z.log2_lt_pow2; lia). lia. }
  assert (Nnet : 0 <= ulps (net_lat session_params)) by (rewrite Unet; lia).
  destruct (of_Z_nonneg (2 * Z.log2 n) 6 ltac:(lia) Hl) as [W1 N1].
  destruct (mul_nonneg 6 2 8 _ _ W1 Wnet N1 Nnet ltac:(lia) ltac:(lia)
              ltac:(lia) ltac:(lia)) as [W2 N2].
  destruct (add_nonneg 5 8 9 _ _ Wv W2 ltac:(lia) ltac:(lia) ltac:(lia)
              ltac:(lia) ltac:(lia)) as [W3 N3].
  apply (add_nonneg 4 9 39); try lia; assumption.
Qed.

(** ** The step counts of the ring, as the code computes them *)

Lemma wrap32_shift (z k : Z) : wrap32 (z + k * 2 ^ 32) = wrap32 z.
Proof.
  unfold wrap32.
  replace (z + k * 2 ^ 32 + 2 ^ 31) with (z + 2 ^ 31 + k * 2 ^ 32) by ring.
  now rewrite Z_mod_plus_full.
Qed.

Lemma wrap32_eq (z : Z) : exists k, wrap32 z = z + k * 2 ^ 32.
Proof.
  exists (- ((z + 2 ^ 31) / 2 ^ 32)). unfold wrap32.
  rewrite Z.mod_eq by lia. ring.
Qed.

Lemma wrap32_fixed (z : Z) : wrap32 z = z <-> int_range z.
Proof.
  split; [intros <-; apply wrap32_range | apply wrap32_small].
Qed.

(** The two step counts the cost depends on are those of the closed form,
    reduced to an [int]; the intermediate count [2 * (num_ranks - 1)] may
    wrap around without any effect on them. *)
Lemma ring_steps_wrap (r n : Z) :
  int_mul 2 n = wrap32 (ring_internode_steps n)
  /\ int_sub (int_mul 2 (int_sub r 1)) (int_mul 2 n)
     = wrap32 (ring_intranode_steps r n).
Proof.
  split; [reflexivity|].
  unfold int_sub, int_mul, ring_intranode_steps, ring_total_steps,
    ring_internode_steps.
  destruct (wrap32_eq (r - 1)) as [k1 ->].
  destruct (wrap32_eq (2 * (r - 1 + k1 * 2 ^ 32))) as [k2 ->].
  destruct (wrap32_eq (2 * n)) as [k3 ->].
  replace (2 * (r - 1 + k1 * 2 ^ 32) + k2 * 2 ^ 32 - (2 * n + k3 * 2 ^ 32))
    with (2 * (r - 1) - 2 * n + (2 * k1 + k2 - k3) * 2 ^ 32) by ring.
  apply wrap32_shift.
Qed.

Lemma cost_switch_ring_fit params dims base intraLat interLat :
  int_range (ring_internode_steps (num_nodes dims)) ->
  int_range (ring_intranode_steps (num_ranks dims) (num_nodes dims)) ->
  cost_switch params dims ncclFuncAllReduce NCCL_ALGO_RING base intraLat
    interLat
  = Some (Break (ring_latency base intraLat interLat (num_ranks dims)
                   (num_nodes dims))
            (ring_bandwidth params)).
Proof.
  intros Hinter Hintra. unfold cost_switch.
  change (NCCL_ALGO_RING =? NCCL_ALGO_RING) with true. cbv iota.
  destruct (ring_steps_wrap (num_ranks dims) (num_nodes dims)) as [-> ->].
  now rewrite (wrap32_small _ Hinter), (wrap32_small _ Hintra).
Qed.

(** ** The latencies of the closed forms, for every topology of [int]s *)

Lemma ring_latency_nonneg_wide (b v : float) (r n : Z) :
  within 4 b -> within 5 v ->
  2 * 2 ^ 148 <= ulps b -> 0 <= ulps v <= 7 * 2 ^ 148 ->
  1 <= n <= r -> r <= INT_MAX ->
  within 39 (ring_latency b v (net_lat session_params) r n)
  /\ 0 <= ulps (ring_latency b v (net_lat session_params) r n).
Proof.
  intros Wb Wv Hb Hv Hn Hr. unfold INT_MAX in Hr. unfold ring_latency.
  destruct session_net_lat as [Wnet Unet].
  unfold ring_intranode_steps, ring_total_steps, ring_internode_steps.
  set (inter := 2 * n). set (intra := 2 * (r - 1) - inter).
  assert (Hinter : 2 <= inter < 2 ^ 32) by (unfold inter; lia).
  assert (Hintra : -2 <= intra < 2 ^ 32) by (unfold intra; lia).
  clearbody inter intra.
  destruct (within_of_Z inter 32 ltac:(lia) ltac:(lia)) as [W1 U1].
  destruct (within_of_Z intra 32 ltac:(lia) ltac:(lia)) as [W3 U3].
  destruct (within_mul 32 2 _ _ W1 Wnet ltac:(lia) ltac:(lia) ltac:(lia)
              ltac:(lia)) as [W2 U2].
  destruct (within_mul 32 5 _ _ W3 Wv ltac:(lia) ltac:(lia) ltac:(lia)
              ltac:(lia)) as [W4 U4].
  destruct (within_add (32 + 2) (32 + 5) _ _ W2 W4 ltac:(lia) ltac:(lia)
              ltac:(cbn; lia)) as [W5 U5].
  destruct (within_add 4 (Z.max (32 + 2) (32 + 5) + 1) _ _ Wb W5 ltac:(lia)
              ltac:(cbn; lia) ltac:(cbn; lia)) as [W6 U6].
  split; [apply (within_weaken _ 39 _ W6); cbn; lia|].
  assert (L1 : 2 ^ 150 <= ulps (Binary32.of_Z inter)).
  { rewrite U1. apply round_units_ge; [lia | | lia].
    exact (representable_pow2 150 ltac:(lia)). }
  assert (L2 : 6 * 2 ^ 149
               <= ulps (Binary32.mul (Binary32.of_Z inter)
                          (net_lat session_params))).
  { rewrite U2, Unet. apply round_units_ge; [lia | | lia].
    exact (representable_scaled 6 149 ltac:(lia) ltac:(lia)). }
  assert (L3 : - 2 ^ 150 <= ulps (Binary32.of_Z intra)).
  { rewrite U3. apply round_units_ge; [lia | | lia].
    exact (representable_pow2 150 ltac:(lia)). }
  assert (L4 : - (7 * 2 ^ 149)
               <= ulps (Binary32.mul (Binary32.of_Z intra) v)).
  { rewrite U4. apply round_units_ge; [lia | |].
    - exact (representable_scaled 7 149 ltac:(lia) ltac:(lia)).
    - assert (0 <= (ulps (Binary32.of_Z intra) + 2 ^ 150) * ulps v)
        by (apply Z.mul_nonneg_nonneg; lia).
      lia. }
  assert (L5 : - 2 ^ 149
               <= ulps (Binary32.add
                          (Binary32.mul (Binary32.of_Z inter)
                             (net_lat session_params))
                          (Binary32.mul (Binary32.of_Z intra) v))).
  { rewrite U5. apply round_units_ge; [lia | | lia].
    exact (representable_pow2 149 ltac:(lia)). }
  rewrite U6. apply round_units_sign; lia.
Qed.

Lemma tree_latency_nonneg_wide (b v : float) (r n : Z) :
  within 4 b -> within 5 v -> 0 <= ulps b -> 0 <= ulps v ->
  1 <= n <= r -> r <= INT_MAX ->
  within 39 (tree_latency b v (net_lat session_params) r n)
  /\ 0 <= ulps (tree_latency b v (net_lat session_params) r n).
Proof.
  intros Wb Wv Hb Hv Hn Hr. unfold INT_MAX in Hr. unfold tree_latency.
  destruct session_net_lat as [Wnet Unet].
  assert (Hq : 0 <= r ÷ n - 1 <= 2 ^ 31).
  { rewrite Z.quot_div_nonneg by lia.
    assert (1 <= r / n) by (apply Z.div_le_lower_bound; lia).
    assert (r / n <= r) by (apply Z.div_le_upper_bound; nia).
    lia. }
  assert (Hl : 0 <= Z.log2 n <= 2 ^ 5).
  { split; [apply Z.log2_nonneg|].
    assert (Z.log2 n < 31) by (apply Z.log2_lt_pow2; lia). lia. }
  destruct (of_Z_nonneg (r ÷ n - 1) 31 ltac:(lia) Hq) as [W1 N1].
  destruct (of_Z_nonneg (Z.log2 n) 5 ltac:(lia) Hl) as [W2 N2].
  destruct (of_Z_nonneg 2 1 ltac:(lia) ltac:(lia)) as [W3 N3].
  destruct (mul_nonneg 31 5 36 _ _ W1 Wv N1 Hv ltac:(lia) ltac:(lia)
              ltac:(lia) ltac:(lia)) as [W4 N4].
  assert (Nnet : 0 <= ulps (net_lat session_params)) by (rewrite Unet; lia).
  destruct (mul_nonneg 5 2 7 _ _ W2 Wnet N2 Nnet ltac:(lia) ltac:(lia)
              ltac:(lia) ltac:(lia)) as [W5 N5].
  destruct (add_nonneg 36 7 37 _ _ W4 W5 ltac:(lia) ltac:(lia) ltac:(lia)
              ltac:(lia) ltac:(lia)) as [W6 N6].
  destruct (mul_nonneg 1 37 38 _ _ W3 W6 N3 N6 ltac:(lia) ltac:(lia)
              ltac:(lia) ltac:(lia)) as [W7 N7].
  apply (add_nonneg 4 38 39); try lia; assumption.
Qed.

Lemma nvls_tree_latency_nonneg_wide (b v : float) (n : Z) :
  within 4 b -> within 5 v -> 0 <= ulps b -> 0 <= ulps v ->
  1 <= n <= INT_MAX ->
  within 39 (nvls_tree_latency b v (net_lat session_params) n)
  /\ 0 <= ulps (nvls_tree_latency b v (net_lat session_params) n).
Proof.
  intros Wb Wv Hb Hv Hn. unfold INT_MAX in Hn. unfold nvls_tree_latency.
  destruct session_net_lat as [Wnet Unet].
  assert (Hl : 0 <= 2 * Z.log2 n <= 2 ^ 6).
  { pose proof (Z.log2_nonneg n).
    assert (Z.log2 n < 31) by (apply Z.log2_lt_pow2; lia). lia. }
  assert (Nnet : 0 <= ulps (net_lat session_params)) by (rewrite Unet; lia).
  destruct (of_Z_nonneg (2 * Z.log2 n) 6 ltac:(lia) Hl) as [W1 N1].
  destruct (mul_nonneg 6 2 8 _ _ W1 Wnet N1 Nnet ltac:(lia) ltac:(lia)
              ltac:(lia) ltac:(lia)) as [W2 N2].
  destruct (add_nonneg 5 8 9 _ _ Wv W2 ltac:(lia) ltac:(lia) ltac:(lia)
              ltac:(lia) ltac:(lia)) as [W3 N3].
  apply (add_nonneg 4 9 39); try lia; assumption.
Qed.

(** * The properties of the specification *)

(** ** The embedding at work *)

(** [session] is the context [pluginInit] hands out. *)
Lemma pluginInit_session (nRanks nNodes : Z) :
  pluginInit true nRanks nNodes = (ncclSuccess, Some (session nRanks nNodes))
  /\ pluginInit false nRanks nNodes = (ncclInternalError, None).
Proof. split; reflexivity. Qed.

Example log2i_8 : log2i 8 = Some 3.
Proof. reflexivity. Qed.

Example log2i_diverges : log2i (-1) = None.
Proof. reflexivity. Qed.

Example wrap32_steps : int_mul 2 (int_sub (2 ^ 30 + 4) 1) = - 2 ^ 31 + 6.
Proof. reflexivity. Qed.

(** 0.1f + 0.2f is 0x3E99999A. *)
Example binary32_sum :
  Binary32.add (flit 1 10) (flit 2 10) = S754_finite false 10066330 (-25).
Proof. reflexivity. Qed.

(** (float) 1e-6 is 0x358637BD. *)
Example binary32_of_double :
  flit 1 1000000 = S754_finite false 8796093 (-43).
Proof. reflexivity. Qed.

(** The six costs of the scenario of 64 ranks on 8 nodes, all-reduce of
    1 MiB: about 38.08, 52.10, 412.4, 123.0, 272.3 and 431.6. *)
Example scenario_costs :
  map (cost_of (session 64 8) ncclFuncAllReduce (2 ^ 20) 1)
    (admissible false false)
  = [ Some (S754_finite false 9983181 (-18));
      Some (S754_finite false 13658795 (-18));
      Some (S754_finite false 13514880 (-15));
      Some (S754_finite false 16127283 (-17));
      Some (S754_finite false 8922795 (-15));
      Some (S754_finite false 14143347 (-15)) ].
Proof. vm_compute. reflexivity. Qed.

(** ** The closed forms of the cost function *)

(** C2, as stated, fails where a step count leaves the range of [int]: with
    [2^30 + 4] ranks on 3 nodes the number of intra-node steps,
    [2 * (rankCount - 1) - 2 * nodeCount = 2^31], wraps around to [-2^31],
    and the cost of the ring under the LL protocol is about [-1.29e9] where
    the closed form gives about [+1.29e9]. *)
Lemma C2_ring_overflow_counterexample :
  table_get nccl_base_lat NCCL_ALGO_RING NCCL_PROTO_LL = Some (flit 66 10)
  /\ table_get nccl_nvlink_lat NCCL_ALGO_RING NCCL_PROTO_LL
     = Some (flit 6 10)
  /\ ring_intranode_steps (2 ^ 30 + 4) 3 = 2 ^ 31
  /\ int_sub (int_mul 2 (int_sub (2 ^ 30 + 4) 1)) (int_mul 2 3) = - 2 ^ 31
  /\ nccl_tuner_compute_cost session_params
       {| num_ranks := 2 ^ 30 + 4; num_nodes := 3 |} ncclFuncAllReduce
       NCCL_ALGO_RING NCCL_PROTO_LL 1 (2 ^ 20)
     = Some (S754_finite true 10066330 7)
  /\ total_cost
       (ring_latency (flit 66 10) (flit 6 10) (net_lat session_params)
          (2 ^ 30 + 4) 3)
       1 (2 ^ 20) NCCL_PROTO_LL (ring_bandwidth session_params)
     = S754_finite false 10066330 7.
Proof. repeat split; vm_compute; reflexivity. Qed.

(** C2, amended. For an all-reduce with the ring algorithm, the two step
    counts the cost depends on are, in the code, those of the closed form
    ([2 * nodeCount] steps at the inter-node latency and the remaining
    [2 * (rankCount - 1) - 2 * nodeCount] at the intra-node latency) exactly
    when these two numbers are representable as [int]; and whenever they
    are, the cost function uses the inter-node bandwidth times the channel
    count as effective bandwidth (before the protocol penalty) and returns
    [(totalLatency * pipelineDepth) + payloadBytes / effectiveBandwidth].
    The total [2 * (rankCount - 1)] itself may wrap around without any
    effect on the cost. *)
Theorem C2_ring_allreduce_cost params dims proto pipe_ops size base intraLat :
  table_get nccl_base_lat NCCL_ALGO_RING proto = Some base ->
  table_get nccl_nvlink_lat NCCL_ALGO_RING proto = Some intraLat ->
  ((int_mul 2 (num_nodes dims) = ring_internode_steps (num_nodes dims)
    /\ int_sub (int_mul 2 (int_sub (num_ranks dims) 1))
         (int_mul 2 (num_nodes dims))
       = ring_intranode_steps (num_ranks dims) (num_nodes dims))
   <-> (int_range (ring_internode_steps (num_nodes dims))
        /\ int_range
             (ring_intranode_steps (num_ranks dims) (num_nodes dims))))
  /\ (int_range (ring_internode_steps (num_nodes dims)) ->
      int_range (ring_intranode_steps (num_ranks dims) (num_nodes dims)) ->
      nccl_tuner_compute_cost params dims ncclFuncAllReduce NCCL_ALGO_RING
        proto pipe_ops size
      = Some (total_cost
                (ring_latency base intraLat (net_lat params) (num_ranks dims)
                   (num_nodes dims))
                pipe_ops size proto (ring_bandwidth params))).
Proof.
  intros Hb Hv. split.
  - destruct (ring_steps_wrap (num_ranks dims) (num_nodes dims)) as [-> ->].
    rewrite !wrap32_fixed. reflexivity.
  - intros Hinter Hintra.
    apply (compute_cost_break _ _ _ _ _ _ _ base intraLat); auto.
    now apply cost_switch_ring_fit.
Qed.

Lemma C2_ring_allreduce_cost_witness :
  ((int_mul 2 8 = ring_internode_steps 8
    /\ int_sub (int_mul 2 (int_sub (2 ^ 30 + 4) 1)) (int_mul 2 8)
       = ring_intranode_steps (2 ^ 30 + 4) 8)
   <-> (int_range (ring_internode_steps 8)
        /\ int_range (ring_intranode_steps (2 ^ 30 + 4) 8)))
  /\ nccl_tuner_compute_cost session_params
       {| num_ranks := 2 ^ 30 + 4; num_nodes := 8 |} ncclFuncAllReduce
       NCCL_ALGO_RING NCCL_PROTO_SIMPLE 1 (2 ^ 20)
     = Some (total_cost
               (ring_latency (flit 84 10) (flit 34 10)
                  (net_lat session_params) (2 ^ 30 + 4) 8)
               1 (2 ^ 20) NCCL_PROTO_SIMPLE
               (ring_bandwidth session_params)).
Proof.
  destruct (C2_ring_allreduce_cost session_params
              {| num_ranks := 2 ^ 30 + 4; num_nodes := 8 |} NCCL_PROTO_SIMPLE
              1 (2 ^ 20) (flit 84 10) (flit 34 10) eq_refl eq_refl)
    as [Hsteps Hcost].
  split; [exact Hsteps|].
  apply Hcost; vm_compute; split; discriminate.
Defined.

(** C6. For an all-reduce with the tree algorithm the latency is the base
    latency plus twice the sum of [log2 nodeCount] inter-node latencies and
    [rankCount / nodeCount - 1] intra-node latencies, the loop of [log2i]
    computing the base-2 logarithm; the effective bandwidth before the
    protocol penalty is the ring's (inter-node bandwidth times channel
    count) divided by two, and with the session's constants the halving is
    exact. *)
Theorem C6_tree_allreduce_cost params dims proto pipe_ops size base intraLat :
  table_get nccl_base_lat NCCL_ALGO_TREE proto = Some base ->
  table_get nccl_nvlink_lat NCCL_ALGO_TREE proto = Some intraLat ->
  0 <= num_ranks dims <= INT_MAX -> 1 <= num_nodes dims <= INT_MAX ->
  log2i (num_nodes dims) = Some (Z.log2 (num_nodes dims))
  /\ nccl_tuner_compute_cost params dims ncclFuncAllReduce NCCL_ALGO_TREE
       proto pipe_ops size
     = Some (total_cost
               (tree_latency base intraLat (net_lat params) (num_ranks dims)
                  (num_nodes dims))
               pipe_ops size proto
               (Binary32.div (ring_bandwidth params) (Binary32.of_Z 2)))
  /\ Binary32.mul (Binary32.of_Z 2)
       (Binary32.div (ring_bandwidth session_params) (Binary32.of_Z 2))
     = ring_bandwidth session_params.
Proof.
  intros Hb Hv Hr Hn. split; [|split].
  - apply log2i_spec. unfold INT_MAX in Hn. lia.
  - apply (compute_cost_break _ _ _ _ _ _ _ base intraLat); auto.
    now apply cost_switch_tree.
  - reflexivity.
Qed.

Lemma C6_tree_allreduce_cost_witness :
  log2i 8 = Some 3
  /\ nccl_tuner_compute_cost session_params
       {| num_ranks := 64; num_nodes := 8 |} ncclFuncAllReduce NCCL_ALGO_TREE
       NCCL_PROTO_LL 1 (2 ^ 20)
     = Some (total_cost
               (tree_latency (flit 68 10) (flit 6 10) (Binary32.of_Z 3) 64 8)
               1 (2 ^ 20) NCCL_PROTO_LL
               (Binary32.div (ring_bandwidth session_params)
                  (Binary32.of_Z 2)))
  /\ Binary32.mul (Binary32.of_Z 2)
       (Binary32.div (ring_bandwidth session_params) (Binary32.of_Z 2))
     = ring_bandwidth session_params.
Proof.
  apply (C6_tree_allreduce_cost session_params
           {| num_ranks := 64; num_nodes := 8 |} NCCL_PROTO_LL 1 (2 ^ 20)
           (flit 68 10) (flit 6 10)).
  - reflexivity.
  - reflexivity.
  - simpl. unfold INT_MAX. lia.
  - simpl. unfold INT_MAX. lia.
Defined.

(** ** The guard on the node count *)

(** C3. With at most two nodes the engine makes no recommendation, whatever
    the operation: no pair is submitted to the cost function, the three
    outputs stay as the caller passed them, and the call succeeds. *)
Theorem C3_small_topology_no_recommendation ctx collType nBytes collNetSupport
    nvlsSupport numPipeOps out0 :
  num_nodes (dims ctx) <= 2 ->
  pluginGetCollInfo ctx collType nBytes collNetSupport nvlsSupport numPipeOps
    out0 = Some (ncclSuccess, out0, []).
Proof.
  intros H. unfold pluginGetCollInfo.
  destruct (Z.leb_spec (num_nodes (dims ctx)) 2); [reflexivity|lia].
Qed.

Lemma C3_small_topology_no_recommendation_witness :
  pluginGetCollInfo (session 16 2) ncclFuncAllReduce (2 ^ 20) 1 1 1
    {| algorithm := -1; protocol := -1; nChannels := 0 |}
  = Some (ncclSuccess, {| algorithm := -1; protocol := -1; nChannels := 0 |},
          []).
Proof.
  apply (C3_small_topology_no_recommendation (session 16 2)).
  vm_compute. discriminate.
Defined.

(** ** The channel count *)

(** C4, as stated, fails: in the scenario of 64 ranks on 8 nodes the engine
    recommends the tree under the LL protocol and leaves the channel count
    at the caller's value, here 0, not at the configured 16. *)
Lemma C4_channel_count_counterexample :
  pluginGetCollInfo (session 64 8) ncclFuncAllReduce (2 ^ 20) 0 0 1
    {| algorithm := -1; protocol := -1; nChannels := 0 |}
  = Some (ncclSuccess,
          {| algorithm := NCCL_ALGO_TREE; protocol := NCCL_PROTO_LL;
             nChannels := 0 |},
          [(0, 0); (0, 1); (0, 2); (1, 0); (1, 1); (1, 2)])
  /\ num_channels (params (session 64 8)) = 16.
Proof. split; vm_compute; reflexivity. Qed.

(** C4, amended. The engine never writes the channel count: after every
    call, with or without a recommendation, it is the value the caller
    passed in. *)
Theorem C4_channel_count_untouched ctx collType nBytes collNetSupport
    nvlsSupport numPipeOps out0 :
  int_range (num_nodes (dims ctx)) ->
  exists out' tr,
    pluginGetCollInfo ctx collType nBytes collNetSupport nvlsSupport
      numPipeOps out0 = Some (ncclSuccess, out', tr)
    /\ nChannels out' = nChannels out0.
Proof.
  intros Hr.
  destruct (pluginGetCollInfo_returns ctx collType nBytes collNetSupport
              nvlsSupport numPipeOps out0 Hr) as (out' & tr & H & Hc & _).
  eauto.
Qed.

Lemma C4_channel_count_untouched_witness :
  exists out' tr,
    pluginGetCollInfo (session 64 8) ncclFuncAllReduce (2 ^ 20) 0 0 1
      {| algorithm := -1; protocol := -1; nChannels := 0 |}
    = Some (ncclSuccess, out', tr)
    /\ nChannels out' = 0.
Proof.
  apply (C4_channel_count_untouched (session 64 8) ncclFuncAllReduce (2 ^ 20)
           0 0 1 {| algorithm := -1; protocol := -1; nChannels := 0 |}).
  vm_compute. split; discriminate.
Defined.

(** ** Zero entries of the base-latency table *)

(** C5, as stated, fails: the tree under the full-payload protocol is
    submitted to the cost function although its base latency is the zero
    entry. *)
Lemma C5_zero_entry_counterexample :
  exists out' tr,
    pluginGetCollInfo (session 64 8) ncclFuncAllReduce (2 ^ 20) 0 0 1
      {| algorithm := -1; protocol := -1; nChannels := 0 |}
    = Some (ncclSuccess, out', tr)
    /\ In (NCCL_ALGO_TREE, NCCL_PROTO_SIMPLE) tr
    /\ table_get nccl_base_lat NCCL_ALGO_TREE NCCL_PROTO_SIMPLE
       = Some Binary32.zero.
Proof.
  do 2 eexists. split; [vm_compute; reflexivity|].
  split; [cbn; tauto|reflexivity].
Qed.

Lemma base_lat_nonzero (ap : Z * Z) :
  in_table (fst ap) (snd ap) ->
  exists v,
    table_get nccl_base_lat (fst ap) (snd ap) = Some v
    /\ (Binary32.eqb v Binary32.zero = false
        <-> (fst ap = NCCL_ALGO_TREE /\ snd ap <> NCCL_PROTO_SIMPLE)
            \/ fst ap = NCCL_ALGO_RING).
Proof.
  destruct ap as [a p]. cbn [fst snd]. intros [Ha Hp].
  unfold NCCL_ALGO_TREE, NCCL_ALGO_RING, NCCL_PROTO_SIMPLE.
  split_index a; split_index p; eexists; (split; [reflexivity|]);
    vm_compute; split; intros H; try discriminate; try reflexivity;
    try (left; split; [reflexivity | discriminate]);
    try (right; reflexivity);
    destruct H as [[H1 H2] | H]; congruence.
Qed.

(** C5, amended. The pairs the engine submits to the cost function are the
    admissible pairs, and admissibility does not look at the table: among
    the submitted pairs the base latency is non-zero exactly for the ring
    and for the tree under the two low-latency protocols.  The tree under
    the full-payload protocol is always submitted, and its cost is computed
    with the zero entry as base latency, an ordinary zero addend. *)
Theorem C5_zero_entries_evaluated ctx collType nBytes collNetSupport
    nvlsSupport numPipeOps out0 :
  2 < num_nodes (dims ctx) -> int_range (num_nodes (dims ctx)) ->
  exists out' tr,
    pluginGetCollInfo ctx collType nBytes collNetSupport nvlsSupport
      numPipeOps out0 = Some (ncclSuccess, out', tr)
    /\ tr = admissible (truth collNetSupport) (truth nvlsSupport)
    /\ (forall ap, In ap tr ->
          exists v,
            table_get nccl_base_lat (fst ap) (snd ap) = Some v
            /\ (Binary32.eqb v Binary32.zero = false
                <-> (fst ap = NCCL_ALGO_TREE /\ snd ap <> NCCL_PROTO_SIMPLE)
                    \/ fst ap = NCCL_ALGO_RING))
    /\ In (NCCL_ALGO_TREE, NCCL_PROTO_SIMPLE) tr
    /\ table_get nccl_base_lat NCCL_ALGO_TREE NCCL_PROTO_SIMPLE
       = Some Binary32.zero
    /\ (0 <= num_ranks (dims ctx) <= INT_MAX ->
        cost_of ctx ncclFuncAllReduce nBytes numPipeOps
          (NCCL_ALGO_TREE, NCCL_PROTO_SIMPLE)
        = Some (total_cost
                  (tree_latency Binary32.zero (flit 28 1)
                     (net_lat (params ctx)) (num_ranks (dims ctx))
                     (num_nodes (dims ctx)))
                  numPipeOps nBytes NCCL_PROTO_SIMPLE
                  (tree_bandwidth (params ctx)))).
Proof.
  intros Hn Hr.
  destruct (pluginGetCollInfo_returns ctx collType nBytes collNetSupport
              nvlsSupport numPipeOps out0 Hr)
    as (out' & tr & H & _ & _ & Htr & _).
  specialize (Htr Hn). exists out', tr. split; [exact H|].
  split; [exact Htr|]. subst tr. split; [|split; [|split; [reflexivity|]]].
  - intros ap Hin. apply base_lat_nonzero.
    now apply admissible_in_table in Hin.
  - destruct (truth collNetSupport), (truth nvlsSupport); cbn; tauto.
  - intros Hranks. unfold cost_of. cbn [fst snd].
    apply (compute_cost_break _ _ _ _ _ _ _ Binary32.zero (flit 28 1));
      try reflexivity.
    apply cost_switch_tree; [exact Hranks|].
    unfold int_range, INT_MIN, INT_MAX in *. lia.
Qed.

Lemma C5_zero_entries_evaluated_witness :
  exists out' tr,
    pluginGetCollInfo (session 64 8) ncclFuncAllReduce (2 ^ 20) 0 0 1
      {| algorithm := -1; protocol := -1; nChannels := 0 |}
    = Some (ncclSuccess, out', tr)
    /\ tr = admissible (truth 0) (truth 0)
    /\ (forall ap, In ap tr ->
          exists v,
            table_get nccl_base_lat (fst ap) (snd ap) = Some v
            /\ (Binary32.eqb v Binary32.zero = false
                <-> (fst ap = NCCL_ALGO_TREE /\ snd ap <> NCCL_PROTO_SIMPLE)
                    \/ fst ap = NCCL_ALGO_RING))
    /\ In (NCCL_ALGO_TREE, NCCL_PROTO_SIMPLE) tr
    /\ table_get nccl_base_lat NCCL_ALGO_TREE NCCL_PROTO_SIMPLE
       = Some Binary32.zero
    /\ (0 <= num_ranks (dims (session 64 8)) <= INT_MAX ->
        cost_of (session 64 8) ncclFuncAllReduce (2 ^ 20) 1
          (NCCL_ALGO_TREE, NCCL_PROTO_SIMPLE)
        = Some (total_cost
                  (tree_latency Binary32.zero (flit 28 1)
                     (net_lat (params (session 64 8)))
                     (num_ranks (dims (session 64 8)))
                     (num_nodes (dims (session 64 8))))
                  1 (2 ^ 20) NCCL_PROTO_SIMPLE
                  (tree_bandwidth (params (session 64 8))))).
Proof.
  apply (C5_zero_entries_evaluated (session 64 8) ncclFuncAllReduce (2 ^ 20)
           0 0 1 {| algorithm := -1; protocol := -1; nChannels := 0 |}).
  - vm_compute. reflexivity.
  - vm_compute. split; discriminate.
Defined.

(** ** Pairs without a model *)

Lemma compute_cost_no_model params dims func algo proto pipe_ops size :
  in_table algo proto ->
  func <> ncclFuncAllReduce
  \/ (algo <> NCCL_ALGO_RING /\ algo <> NCCL_ALGO_TREE
      /\ algo <> NCCL_ALGO_NVLS_TREE) ->
  nccl_tuner_compute_cost params dims func algo proto pipe_ops size
  = Some Binary32.minus_one.
Proof.
  intros Ht H. unfold nccl_tuner_compute_cost.
  destruct (table_get_base _ _ Ht) as [b ->].
  destruct (table_get_nvlink _ _ Ht) as [v ->]. cbn [bind].
  unfold cost_switch.
  destruct H as [H | (H1 & H2 & H3)].
  - destruct func; try reflexivity. congruence.
  - destruct func; try reflexivity.
    destruct (Z.eqb_spec algo NCCL_ALGO_RING); [congruence|].
    destruct (Z.eqb_spec algo NCCL_ALGO_TREE); [congruence|].
    destruct (Z.eqb_spec algo NCCL_ALGO_NVLS_TREE); [congruence|].
    reflexivity.
Qed.

(** C8. The cost function returns -1 for every operation other than
    all-reduce and, for all-reduce, for every algorithm other than ring,
    tree and the fast-fabric tree.  The engine never hands such a result to
    its caller: it returns [ncclSuccess], a pair it recommends has a cost
    that is not negative, hence not -1, and for an operation other than
    all-reduce it leaves the outputs as they were. *)
Theorem C8_no_model_excluded :
  (forall params dims func algo proto pipe_ops size,
      in_table algo proto ->
      func <> ncclFuncAllReduce
      \/ (algo <> NCCL_ALGO_RING /\ algo <> NCCL_ALGO_TREE
          /\ algo <> NCCL_ALGO_NVLS_TREE) ->
      nccl_tuner_compute_cost params dims func algo proto pipe_ops size
      = Some Binary32.minus_one)
  /\ (forall ctx collType nBytes collNetSupport nvlsSupport numPipeOps out0,
      int_range (num_nodes (dims ctx)) ->
      exists out' tr,
        pluginGetCollInfo ctx collType nBytes collNetSupport nvlsSupport
          numPipeOps out0 = Some (ncclSuccess, out', tr)
        /\ (out' = out0
            \/ exists ap c,
                 In ap tr /\ out' = recommend out0 ap
                 /\ cost_of ctx collType nBytes numPipeOps ap = Some c
                 /\ Binary32.ltb c Binary32.zero = false
                 /\ c <> Binary32.minus_one)
        /\ (collType <> ncclFuncAllReduce -> out' = out0)).
Proof.
  split; [exact compute_cost_no_model|].
  intros ctx collType nBytes collNetSupport nvlsSupport numPipeOps out0 Hr.
  destruct (pluginGetCollInfo_returns ctx collType nBytes collNetSupport
              nvlsSupport numPipeOps out0 Hr)
    as (out' & tr & H & _ & Hsmall & Htr & Hsel).
  exists out', tr. split; [exact H|]. split.
  - destruct Hsel as [Ho | (ap & c & Hin & Hc & Hn & Ho)]; [now left|].
    right. exists ap, c. repeat split; auto.
    intros ->. discriminate Hn.
  - intros Hfunc.
    destruct Hsel as [Ho | (ap & c & Hin & Hc & Hn & Ho)]; [exact Ho|].
    destruct (Z_le_gt_dec (num_nodes (dims ctx)) 2) as [Hle | Hgt].
    + now destruct (Hsmall Hle).
    + rewrite (Htr ltac:(lia)) in Hin.
      apply admissible_in_table in Hin.
      unfold cost_of in Hc.
      rewrite (compute_cost_no_model _ _ _ _ _ _ _ Hin (or_introl Hfunc))
        in Hc.
      apply some_inj in Hc. subst c. discriminate Hn.
Qed.

Lemma C8_no_model_excluded_witness :
  nccl_tuner_compute_cost session_params
    {| num_ranks := 64; num_nodes := 8 |} ncclFuncBroadcast NCCL_ALGO_RING
    NCCL_PROTO_SIMPLE 1 (2 ^ 20) = Some Binary32.minus_one
  /\ exists out' tr,
       pluginGetCollInfo (session 64 8) ncclFuncBroadcast (2 ^ 20) 1 1 1
         {| algorithm := -1; protocol := -1; nChannels := 0 |}
       = Some (ncclSuccess, out', tr)
       /\ (out' = {| algorithm := -1; protocol := -1; nChannels := 0 |}
           \/ exists ap c,
                In ap tr
                /\ out' = recommend
                            {| algorithm := -1; protocol := -1;
                               nChannels := 0 |} ap
                /\ cost_of (session 64 8) ncclFuncBroadcast (2 ^ 20) 1 ap
                   = Some c
                /\ Binary32.ltb c Binary32.zero = false
                /\ c <> Binary32.minus_one)
       /\ (ncclFuncBroadcast <> ncclFuncAllReduce ->
           out' = {| algorithm := -1; protocol := -1; nChannels := 0 |}).
Proof.
  split.
  - apply (proj1 C8_no_model_excluded).
    + vm_compute. repeat split; discriminate.
    + left. discriminate.
  - apply (proj2 C8_no_model_excluded (session 64 8)).
    vm_compute. split; discriminate.
Defined.

(** ** The bandwidth at the division *)

Lemma protocol_penalty_session_ring proto :
  Binary32.ltb Binary32.zero
    (protocol_penalty proto (ring_bandwidth session_params)) = true.
Proof.
  unfold protocol_penalty.
  destruct (proto =? NCCL_PROTO_LL); [reflexivity|].
  destruct (proto =? NCCL_PROTO_LL128); reflexivity.
Qed.

Lemma protocol_penalty_session_tree proto :
  Binary32.ltb Binary32.zero
    (protocol_penalty proto (tree_bandwidth session_params)) = true.
Proof.
  unfold protocol_penalty.
  destruct (proto =? NCCL_PROTO_LL); [reflexivity|].
  destruct (proto =? NCCL_PROTO_LL128); reflexivity.
Qed.

Lemma cost_switch_break_bw params dims func algo base intraLat interLat
    latency bw :
  cost_switch params dims func algo base intraLat interLat
  = Some (Break latency bw) ->
  func = ncclFuncAllReduce
  /\ ((algo = NCCL_ALGO_RING /\ bw = ring_bandwidth params)
      \/ ((algo = NCCL_ALGO_TREE \/ algo = NCCL_ALGO_NVLS_TREE)
          /\ bw = tree_bandwidth params)).
Proof.
  unfold cost_switch. intros H.
  destruct func; try discriminate. split; [reflexivity|].
  destruct (Z.eqb_spec algo NCCL_ALGO_RING).
  { injection H as _ <-. left. auto. }
  destruct (Z.eqb_spec algo NCCL_ALGO_TREE).
  { destruct (int_div _ _); [|discriminate]. cbn [bind] in H.
    destruct (log2i _); [|discriminate]. cbn [bind] in H.
    injection H as _ <-. right. auto. }
  destruct (Z.eqb_spec algo NCCL_ALGO_NVLS_TREE).
  { destruct (log2i _); [|discriminate]. cbn [bind] in H.
    injection H as _ <-. right. auto. }
  discriminate.
Qed.

(** C9. With the parameters built by [pluginInit], whenever the cost
    function gets past its [switch] to the division, for whatever topology,
    operation, algorithm and protocol, the bandwidth it divides by (after
    the protocol penalty) is a finite, strictly positive number. *)
Theorem C9_bandwidth_positive dims func algo proto base intraLat interLat
    latency bw :
  cost_switch session_params dims func algo base intraLat interLat
  = Some (Break latency bw) ->
  finite32 (protocol_penalty proto bw) = true
  /\ Binary32.ltb Binary32.zero (protocol_penalty proto bw) = true.
Proof.
  intros H. apply cost_switch_break_bw in H.
  destruct H as [_ [[_ ->] | [_ ->]]].
  - split; [apply session_bandwidth; now left|].
    apply protocol_penalty_session_ring.
  - split; [apply session_bandwidth; now right|].
    apply protocol_penalty_session_tree.
Qed.

Lemma C9_bandwidth_positive_witness :
  finite32 (protocol_penalty NCCL_PROTO_LL (tree_bandwidth session_params))
  = true
  /\ Binary32.ltb Binary32.zero
       (protocol_penalty NCCL_PROTO_LL (tree_bandwidth session_params))
     = true.
Proof.
  apply (C9_bandwidth_positive {| num_ranks := 64; num_nodes := 8 |}
           ncclFuncAllReduce NCCL_ALGO_TREE NCCL_PROTO_LL (flit 68 10)
           (flit 6 10) (Binary32.of_Z 3)
           (tree_latency (flit 68 10) (flit 6 10) (Binary32.of_Z 3) 64 8)
           (tree_bandwidth session_params)).
  reflexivity.
Defined.

(** ** Monotonicity in the payload *)

(** C7. With the topology (and so the parameters of [pluginInit]), the
    operation, the algorithm, the protocol and the pipeline depth fixed,
    the cost does not decrease when the payload grows: if the cost function
    returns for [s1], it returns for every [s2 >= s1], with a cost at least
    as large.  (Where it returns the sentinel -1 it does so for both
    sizes.) *)
Theorem C7_cost_monotone_in_payload dims func algo proto pipe_ops s1 s2 c1 :
  int_range (num_ranks dims) -> int_range (num_nodes dims) ->
  int_range pipe_ops -> size_range s1 -> size_range s2 -> s1 <= s2 ->
  nccl_tuner_compute_cost session_params dims func algo proto pipe_ops s1
  = Some c1 ->
  exists c2,
    nccl_tuner_compute_cost session_params dims func algo proto pipe_ops s2
    = Some c2
    /\ Binary32.leb c1 c2 = true.
Proof.
  intros Hr Hn Hp Hs1 Hs2 Hle H1.
  destruct (compute_cost_shape _ _ _ _ _ _ _ _ H1)
    as (b & v & x & Hb & Hv & Hx & ->).
  rewrite (compute_cost_of_shape _ _ _ _ _ _ s2 b v x Hb Hv Hx).
  eexists. split; [reflexivity|].
  pose proof (base_lat_in_table _ _ _ Hb) as Ht.
  destruct (table_entries _ _ Ht) as (b' & v' & Hb' & Hv' & Wb & Wv & _).
  rewrite Hb in Hb'. rewrite Hv in Hv'.
  apply some_inj in Hb'. apply some_inj in Hv'. subst b' v'.
  pose proof (cost_switch_within dims func algo b v x Hr Hn Wb Wv Hx) as Hsw.
  destruct x as [c | latency bw].
  - subst c. reflexivity.
  - destruct Hsw as [Wl Hbw]. now apply total_cost_monotone.
Qed.

Lemma C7_cost_monotone_in_payload_witness :
  exists c2,
    nccl_tuner_compute_cost session_params
      {| num_ranks := 64; num_nodes := 8 |} ncclFuncAllReduce NCCL_ALGO_RING
      NCCL_PROTO_SIMPLE 1 (2 ^ 20 + 1) = Some c2
    /\ Binary32.leb (S754_finite false 14143347 (-15)) c2 = true.
Proof.
  apply (C7_cost_monotone_in_payload {| num_ranks := 64; num_nodes := 8 |}
           ncclFuncAllReduce NCCL_ALGO_RING NCCL_PROTO_SIMPLE 1 (2 ^ 20)
           (2 ^ 20 + 1)).
  - vm_compute. split; discriminate.
  - vm_compute. split; discriminate.
  - vm_compute. split; discriminate.
  - vm_compute. split; discriminate.
  - vm_compute. split; discriminate.
  - lia.
  - vm_compute. reflexivity.
Defined.

(** ** The selection *)

(** C1. For every topology built by [pluginInit] with more than two nodes
    and every operation, the engine returns [ncclSuccess] and sets algorithm
    and protocol to the admissible pair of minimum cost among the admissible
    pairs of non-negative cost, the first such pair in the order of
    enumeration: pairs enumerated before it cost strictly more, pairs
    enumerated after it at least as much, and pairs of negative cost do not
    count.  If no admissible pair has a non-negative cost, the outputs are
    left as they were. *)
Theorem C1_minimum_cost_selected nRanks nNodes collType nBytes collNetSupport
    nvlsSupport numPipeOps out0 :
  2 < num_nodes (dims (session nRanks nNodes)) ->
  size_range nBytes -> int_range numPipeOps ->
  exists out' tr,
    pluginGetCollInfo (session nRanks nNodes) collType nBytes collNetSupport
      nvlsSupport numPipeOps out0 = Some (ncclSuccess, out', tr)
    /\ tr = admissible (truth collNetSupport) (truth nvlsSupport)
    /\ (forall ap, In ap tr ->
          exists c,
            cost_of (session nRanks nNodes) collType nBytes numPipeOps ap
            = Some c)
    /\ ((none_computable
           (cost_of (session nRanks nNodes) collType nBytes numPipeOps)
           (admissible (truth collNetSupport) (truth nvlsSupport))
         /\ out' = out0)
        \/ (exists ap c,
              first_minimum
                (cost_of (session nRanks nNodes) collType nBytes numPipeOps)
                (admissible (truth collNetSupport) (truth nvlsSupport)) ap c
              /\ out' = recommend out0 ap)).
Proof.
  intros Hn Hs Hp.
  rewrite pluginGetCollInfo_search by exact Hn.
  destruct (searched_all (session nRanks nNodes) collType nBytes numPipeOps
              out0 (admissible (truth collNetSupport) (truth nvlsSupport))
              [] _
              (session_costs_finite nRanks nNodes collType nBytes numPipeOps
                 _ _ Hn Hs Hp)
              (searched_nil _ _ _ _ out0))
    as (st' & Hv & Hsearched).
  assert (Hr : int_range (num_nodes (dims (session nRanks nNodes))))
    by apply wrap32_range.
  destruct (visit_all_inv (session nRanks nNodes) collType nBytes numPipeOps
              (admissible (truth collNetSupport) (truth nvlsSupport))
              (fun ap H => cost_of_defined _ collType nBytes numPipeOps
                             _ _ ap Hn Hr H)
              {| out := out0; lowest := Binary32.FLT_MAX;
                 evaluated := [] |})
    as (st'' & Hv'' & Htr & _).
  rewrite Hv in Hv''. apply some_inj in Hv''. subst st''.
  rewrite Hv. cbn [bind app evaluated] in *.
  exists (out st'), (rev (evaluated st')). split; [reflexivity|].
  rewrite Htr, app_nil_r, rev_involutive. split; [reflexivity|].
  split.
  { intros ap Hin.
    exact (cost_of_defined _ collType nBytes numPipeOps _ _ ap Hn Hr Hin). }
  destruct Hsearched as [(Hnone & Ho & _) | (ap & c & Hbest & Ho & _)].
  - left. auto.
  - right. exists ap, c. auto.
Qed.

Lemma C1_minimum_cost_selected_witness :
  exists out' tr,
    pluginGetCollInfo (session 64 8) ncclFuncAllReduce (2 ^ 20) 0 0 1
      {| algorithm := -1; protocol := -1; nChannels := 0 |}
    = Some (ncclSuccess, out', tr)
    /\ tr = admissible (truth 0) (truth 0)
    /\ (forall ap, In ap tr ->
          exists c,
            cost_of (session 64 8) ncclFuncAllReduce (2 ^ 20) 1 ap = Some c)
    /\ ((none_computable
           (cost_of (session 64 8) ncclFuncAllReduce (2 ^ 20) 1)
           (admissible (truth 0) (truth 0))
         /\ out' = {| algorithm := -1; protocol := -1; nChannels := 0 |})
        \/ (exists ap c,
              first_minimum
                (cost_of (session 64 8) ncclFuncAllReduce (2 ^ 20) 1)
                (admissible (truth 0) (truth 0)) ap c
              /\ out' = recommend
                          {| algorithm := -1; protocol := -1;
                             nChannels := 0 |} ap)).
Proof.
  apply (C1_minimum_cost_selected 64 8 ncclFuncAllReduce (2 ^ 20) 0 0 1).
  - vm_compute. reflexivity.
  - vm_compute. split; discriminate.
  - vm_compute. split; discriminate.
Defined.

(** ** Genuine costs are not negative *)

(** C10, as stated, fails where a step count of the ring no longer fits an
    [int]: with [2^30 + 4] ranks on 3 nodes the number of intra-node steps,
    [2^31], wraps around to [-2^31] and the ring under the LL protocol gets
    a negative cost that is not the sentinel. *)
Lemma C10_rank_overflow_counterexample :
  1 <= num_nodes (dims (session (2 ^ 30 + 4) 3))
    <= num_ranks (dims (session (2 ^ 30 + 4) 3))
  /\ nccl_tuner_compute_cost session_params (dims (session (2 ^ 30 + 4) 3))
       ncclFuncAllReduce NCCL_ALGO_RING NCCL_PROTO_LL 1 (2 ^ 20)
     = Some (S754_finite true 10066330 7)
  /\ S754_finite true 10066330 7 <> Binary32.minus_one
  /\ Binary32.leb Binary32.zero (S754_finite true 10066330 7) = false.
Proof.
  split; [vm_compute; split; discriminate|].
  split; [vm_compute; reflexivity|].
  split; [discriminate | reflexivity].
Qed.

(** The bound on the ring is sharp on both sides: one rank less than in the
    counterexample, or [2^30 - 1] nodes, and the cost is not negative; with
    [2^30] nodes the number of inter-node steps wraps around and the cost is
    negative again. *)
Example ring_overflow_boundary :
  nccl_tuner_compute_cost session_params
    {| num_ranks := 2 ^ 30 + 3; num_nodes := 3 |} ncclFuncAllReduce
    NCCL_ALGO_RING NCCL_PROTO_LL 1 (2 ^ 20)
  = Some (S754_finite false 10066330 7)
  /\ nccl_tuner_compute_cost session_params
       {| num_ranks := 2 ^ 30 - 1; num_nodes := 2 ^ 30 - 1 |}
       ncclFuncAllReduce NCCL_ALGO_RING NCCL_PROTO_LL 1 (2 ^ 20)
     = Some (S754_finite false 12582912 9)
  /\ nccl_tuner_compute_cost session_params
       {| num_ranks := 2 ^ 30; num_nodes := 2 ^ 30 |} ncclFuncAllReduce
       NCCL_ALGO_RING NCCL_PROTO_LL 1 (2 ^ 20)
     = Some (S754_finite true 12582912 9).
Proof. repeat split; vm_compute; reflexivity. Qed.

(** C10, amended. For every topology of [int]s with
    [1 <= nodeCount <= rankCount], the parameters of [pluginInit], every
    operation, algorithm, protocol, pipeline depth of at least 1 and payload
    size, the cost function returns, and returns either exactly -1 or a
    number that is not negative, provided that, for the ring of an
    all-reduce, the two step counts [2 * nodeCount] and
    [2 * (rankCount - 1) - 2 * nodeCount] do not exceed [INT_MAX]; no bound
    beyond [INT_MAX] is needed for any other algorithm or operation.  In
    particular the latency of the ring is not negative, also when
    [rankCount = nodeCount] makes the number of intra-node steps
    negative. *)
Theorem C10_cost_sentinel_or_nonneg dims func algo proto pipe_ops size :
  1 <= num_nodes dims <= num_ranks dims -> num_ranks dims <= INT_MAX ->
  (func = ncclFuncAllReduce -> algo = NCCL_ALGO_RING ->
   ring_internode_steps (num_nodes dims) <= INT_MAX
   /\ ring_intranode_steps (num_ranks dims) (num_nodes dims) <= INT_MAX) ->
  in_table algo proto -> 1 <= pipe_ops <= INT_MAX -> size_range size ->
  (exists c,
      nccl_tuner_compute_cost session_params dims func algo proto pipe_ops
        size = Some c
      /\ (c = Binary32.minus_one
          \/ Binary32.leb Binary32.zero c = true))
  /\ (forall b v,
        table_get nccl_base_lat NCCL_ALGO_RING proto = Some b ->
        table_get nccl_nvlink_lat NCCL_ALGO_RING proto = Some v ->
        Binary32.leb Binary32.zero
          (ring_latency b v (net_lat session_params) (num_ranks dims)
             (num_nodes dims)) = true).
Proof.
  intros Hn Hr Hring Ht Hp Hs. split.
  - destruct (table_entries _ _ Ht) as (b & v & Hb & Hv & Wb & Wv & Nb & Nv).
    assert (Hmodel :
              func <> ncclFuncAllReduce
              \/ (algo <> NCCL_ALGO_RING /\ algo <> NCCL_ALGO_TREE
                  /\ algo <> NCCL_ALGO_NVLS_TREE)
              \/ (func = ncclFuncAllReduce
                  /\ (algo = NCCL_ALGO_RING \/ algo = NCCL_ALGO_TREE
                      \/ algo = NCCL_ALGO_NVLS_TREE))).
    { destruct func; try (left; discriminate).
      destruct (Z.eq_dec algo NCCL_ALGO_RING); [right; right; auto|].
      destruct (Z.eq_dec algo NCCL_ALGO_TREE); [right; right; auto|].
      destruct (Z.eq_dec algo NCCL_ALGO_NVLS_TREE); [right; right; auto|].
      right. left. auto. }
    destruct Hmodel as [Hf | [Ha | [-> Ha]]].
    + exists Binary32.minus_one. split; [|now left].
      apply compute_cost_no_model; auto.
    + exists Binary32.minus_one. split; [|now left].
      apply compute_cost_no_model; auto.
    + assert (Hp0 : 0 <= pipe_ops <= INT_MAX) by lia.
      destruct Ha as [-> | [-> | ->]].
      * destruct (Hring eq_refl eq_refl) as [Hinter Hintra].
        destruct (ring_table_entries proto (proj2 Ht))
          as (b' & v' & Hb' & Hv' & _ & _ & Lb & Lv).
        rewrite Hb in Hb'. rewrite Hv in Hv'.
        apply some_inj in Hb'. apply some_inj in Hv'. subst b' v'.
        destruct (ring_latency_nonneg_wide b v _ _ Wb Wv Lb Lv Hn Hr)
          as [Wl Nl].
        eexists. split.
        -- apply (compute_cost_break _ _ _ _ _ _ _ b v); auto.
           apply cost_switch_ring_fit;
             unfold int_range, INT_MIN, INT_MAX, ring_intranode_steps,
               ring_internode_steps, ring_total_steps in *; lia.
        -- right. apply total_cost_nonneg; auto.
      * destruct (tree_latency_nonneg_wide b v _ _ Wb Wv Nb Nv Hn Hr)
          as [Wl Nl].
        eexists. split.
        -- apply (compute_cost_break _ _ _ _ _ _ _ b v); auto.
           apply cost_switch_tree; unfold INT_MAX in *; lia.
        -- right. apply total_cost_nonneg; auto.
      * destruct (nvls_tree_latency_nonneg_wide b v (num_nodes dims) Wb Wv
                    Nb Nv ltac:(lia)) as [Wl Nl].
        unfold nvls_tree_latency in Wl, Nl.
        eexists. split.
        -- apply (compute_cost_break _ _ _ _ _ _ _ b v); auto.
           apply cost_switch_nvls_tree; unfold INT_MAX in *; lia.
        -- right. apply total_cost_nonneg; auto.
  - intros b v Hb Hv.
    destruct (ring_table_entries proto (proj2 Ht))
      as (b' & v' & Hb' & Hv' & Wb & Wv & Lb & Lv).
    rewrite Hb in Hb'. rewrite Hv in Hv'.
    apply some_inj in Hb'. apply some_inj in Hv'. subst b' v'.
    destruct (ring_latency_nonneg_wide b v _ _ Wb Wv Lb Lv Hn Hr)
      as [[Hf _] Nl].
    rewrite leb_ulps by (try exact Hf; reflexivity).
    now apply Z.leb_le.
Qed.

Lemma C10_cost_sentinel_or_nonneg_witness :
  (exists c,
      nccl_tuner_compute_cost session_params
        {| num_ranks := 4; num_nodes := 4 |} ncclFuncAllReduce NCCL_ALGO_RING
        NCCL_PROTO_SIMPLE 1 0 = Some c
      /\ (c = Binary32.minus_one
          \/ Binary32.leb Binary32.zero c = true))
  /\ (forall b v,
        table_get nccl_base_lat NCCL_ALGO_RING NCCL_PROTO_SIMPLE = Some b ->
        table_get nccl_nvlink_lat NCCL_ALGO_RING NCCL_PROTO_SIMPLE = Some v ->
        Binary32.leb Binary32.zero
          (ring_latency b v (net_lat session_params) 4 4) = true).
Proof.
  apply (C10_cost_sentinel_or_nonneg {| num_ranks := 4; num_nodes := 4 |}
           ncclFuncAllReduce NCCL_ALGO_RING NCCL_PROTO_SIMPLE 1 0).
  - simpl. lia.
  - vm_compute. discriminate.
  - intros _ _. vm_compute. split; discriminate.
  - vm_compute. repeat split; discriminate.
  - unfold INT_MAX. lia.
  - vm_compute. split; discriminate.
Defined.

(** * Further properties of the code *)

(** ** [log2i] *)

(** X1. [log2i] returns exactly on the non-negative arguments: shifting a
    negative [long] to the right keeps it negative, so the loop never ends,
    whatever number of tests it is allowed. *)
Theorem X1_log2i_returns_iff_nonneg (n : Z) :
  - 2 ^ 63 <= n < 2 ^ 63 ->
  ((exists l, log2i n = Some l) <-> 0 <= n)
  /\ (n < 0 -> forall fuel l, log2i_loop fuel n l = None).
Proof.
  intros Hn. split; [split|].
  - intros [l Hl]. destruct (Z_lt_le_dec n 0) as [Hneg | Hpos]; [|exact Hpos].
    unfold log2i in Hl. rewrite log2i_loop_negative in Hl by exact Hneg.
    discriminate.
  - intros Hpos. exists (Z.log2 n). apply log2i_spec. lia.
  - intros Hneg fuel l. now apply log2i_loop_negative.
Qed.

Lemma X1_log2i_returns_iff_nonneg_witness :
  ((exists l, log2i (-8) = Some l) <-> 0 <= -8)
  /\ (-8 < 0 -> forall fuel l, log2i_loop fuel (-8) l = None).
Proof. apply (X1_log2i_returns_iff_nonneg (-8)). lia. Defined.

(** X2. On a non-negative [long], [log2i] is the floor of the base-2
    logarithm: the result [l] lies between 0 and 62, it is 0 for 0 and for
    1, and [2^l <= n < 2^(l+1)] from 1 on. *)
Theorem X2_log2i_floor_of_log2 (n : Z) :
  0 <= n < 2 ^ 63 ->
  exists l,
    log2i n = Some l /\ 0 <= l <= 62
    /\ (n <= 1 -> l = 0)
    /\ (1 <= n -> 2 ^ l <= n < 2 ^ (l + 1)).
Proof.
  intros Hn. exists (Z.log2 n). split; [now apply log2i_spec|].
  pose proof (Z.log2_nonneg n) as H0.
  split; [|split].
  - split; [exact H0|].
    destruct (Z.eq_dec n 0) as [-> | Hz]; [cbn; lia|].
    assert (Z.log2 n < 63) by (apply Z.log2_lt_pow2; lia). lia.
  - intros H1. assert (n = 0 \/ n = 1) as [-> | ->] by lia; reflexivity.
  - intros H1. apply Z.log2_spec. lia.
Qed.

Lemma X2_log2i_floor_of_log2_witness :
  exists l,
    log2i 1000 = Some l /\ 0 <= l <= 62
    /\ (1000 <= 1 -> l = 0)
    /\ (1 <= 1000 -> 2 ^ l <= 1000 < 2 ^ (l + 1)).
Proof. apply (X2_log2i_floor_of_log2 1000). lia. Defined.

(** ** Where the cost function has a result *)

Lemma compute_cost_undefined_outside params dims func algo proto pipe_ops
    size :
  ~ in_table algo proto ->
  nccl_tuner_compute_cost params dims func algo proto pipe_ops size = None.
Proof.
  intros Hn. unfold nccl_tuner_compute_cost.
  destruct (table_get nccl_base_lat algo proto) as [b |] eqn:Hb;
    [|reflexivity].
  elim Hn. exact (base_lat_in_table _ _ _ Hb).
Qed.

(** X3. The cost function has a defined result exactly when the two indices
    lie inside the latency tables and, for an all-reduce, the node count is
    positive for the tree (no division by zero, no endless [log2i]) and not
    negative for the fast-fabric tree ([int] arithmetic being taken with its
    wrap-around, as everywhere in this development). *)
Theorem X3_cost_defined_iff params dims func algo proto pipe_ops size :
  int_range (num_nodes dims) ->
  ((exists c,
       nccl_tuner_compute_cost params dims func algo proto pipe_ops size
       = Some c)
   <-> in_table algo proto
       /\ (func = ncclFuncAllReduce -> algo = NCCL_ALGO_TREE ->
           0 < num_nodes dims)
       /\ (func = ncclFuncAllReduce -> algo = NCCL_ALGO_NVLS_TREE ->
           0 <= num_nodes dims)).
Proof.
  intros Hn. unfold int_range, INT_MIN, INT_MAX in Hn. split.
  - intros [c Hc].
    destruct (compute_cost_shape _ _ _ _ _ _ _ _ Hc)
      as (b & v & x & Hb & Hv & Hx & _).
    split; [exact (base_lat_in_table _ _ _ Hb)|].
    split; intros -> ->; unfold cost_switch in Hx.
    + change (NCCL_ALGO_TREE =? NCCL_ALGO_RING) with false in Hx.
      change (NCCL_ALGO_TREE =? NCCL_ALGO_TREE) with true in Hx.
      cbv iota in Hx.
      destruct (Z_lt_le_dec 0 (num_nodes dims)) as [Hpos | Hle];
        [exact Hpos|].
      destruct (int_div (num_ranks dims) (num_nodes dims)) as [q |] eqn:Hq;
        [|discriminate].
      cbn [bind] in Hx.
      destruct (Z.eq_dec (num_nodes dims) 0) as [Hz | Hz].
      * unfold int_div in Hq. rewrite Hz in Hq. discriminate.
      * unfold log2i in Hx.
        rewrite log2i_loop_negative in Hx by lia. discriminate.
    + change (NCCL_ALGO_NVLS_TREE =? NCCL_ALGO_RING) with false in Hx.
      change (NCCL_ALGO_NVLS_TREE =? NCCL_ALGO_TREE) with false in Hx.
      change (NCCL_ALGO_NVLS_TREE =? NCCL_ALGO_NVLS_TREE) with true in Hx.
      cbv iota in Hx.
      destruct (Z_lt_le_dec (num_nodes dims) 0) as [Hneg | Hpos];
        [|exact Hpos].
      unfold log2i in Hx. rewrite log2i_loop_negative in Hx by lia.
      discriminate.
  - intros (Ht & Htree & Hnvls).
    destruct (table_get_base _ _ Ht) as [b Hb].
    destruct (table_get_nvlink _ _ Ht) as [v Hv].
    assert (Hx : exists x,
               cost_switch params dims func algo b v (net_lat params)
               = Some x).
    { destruct func; try (eexists; reflexivity).
      unfold cost_switch.
      destruct (algo =? NCCL_ALGO_RING) eqn:E1; [eexists; reflexivity|].
      destruct (algo =? NCCL_ALGO_TREE) eqn:E2.
      - apply Z.eqb_eq in E2. specialize (Htree eq_refl E2).
        unfold int_div.
        replace (num_nodes dims =? 0) with false by (symmetry; lia).
        replace (num_nodes dims =? -1) with false by (symmetry; lia).
        rewrite andb_false_r. cbn [bind].
        rewrite log2i_spec by lia. eexists; reflexivity.
      - destruct (algo =? NCCL_ALGO_NVLS_TREE) eqn:E3;
          [|eexists; reflexivity].
        apply Z.eqb_eq in E3. specialize (Hnvls eq_refl E3).
        rewrite log2i_spec by lia. eexists; reflexivity. }
    destruct Hx as [x Hx].
    rewrite (compute_cost_of_shape _ _ _ _ _ pipe_ops size b v x Hb Hv Hx).
    eexists; reflexivity.
Qed.

Lemma X3_cost_defined_iff_witness :
  (exists c,
      nccl_tuner_compute_cost session_params
        {| num_ranks := 8; num_nodes := 0 |} ncclFuncAllReduce NCCL_ALGO_TREE
        NCCL_PROTO_LL 1 1024 = Some c)
  <-> in_table NCCL_ALGO_TREE NCCL_PROTO_LL
      /\ (ncclFuncAllReduce = ncclFuncAllReduce ->
          NCCL_ALGO_TREE = NCCL_ALGO_TREE -> 0 < 0)
      /\ (ncclFuncAllReduce = ncclFuncAllReduce ->
          NCCL_ALGO_TREE = NCCL_ALGO_NVLS_TREE -> 0 <= 0).
Proof.
  apply (X3_cost_defined_iff session_params
           {| num_ranks := 8; num_nodes := 0 |} ncclFuncAllReduce
           NCCL_ALGO_TREE NCCL_PROTO_LL 1 1024).
  vm_compute. split; discriminate.
Defined.

(** ** What the cost depends on *)

(** X4. The cost function never reads the intra-node bandwidth: two
    parameter sets that agree on the network latency, the inter-node
    bandwidth and the channel count give the same cost, defined or not. *)
Theorem X4_intranode_bw_unused p1 p2 dims func algo proto pipe_ops size :
  net_lat p1 = net_lat p2 -> internode_bw p1 = internode_bw p2 ->
  num_channels p1 = num_channels p2 ->
  nccl_tuner_compute_cost p1 dims func algo proto pipe_ops size
  = nccl_tuner_compute_cost p2 dims func algo proto pipe_ops size.
Proof.
  intros Hl Hb Hc. unfold nccl_tuner_compute_cost, cost_switch.
  now rewrite Hl, Hb, Hc.
Qed.

Lemma X4_intranode_bw_unused_witness :
  nccl_tuner_compute_cost session_params
    {| num_ranks := 64; num_nodes := 8 |} ncclFuncAllReduce NCCL_ALGO_RING
    NCCL_PROTO_LL 1 (2 ^ 20)
  = nccl_tuner_compute_cost
      {| net_lat := net_lat session_params;
         internode_bw := internode_bw session_params;
         intranode_bw := Binary32.zero;
         num_channels := num_channels session_params |}
      {| num_ranks := 64; num_nodes := 8 |} ncclFuncAllReduce NCCL_ALGO_RING
      NCCL_PROTO_LL 1 (2 ^ 20).
Proof.
  apply (X4_intranode_bw_unused session_params
           {| net_lat := net_lat session_params;
              internode_bw := internode_bw session_params;
              intranode_bw := Binary32.zero;
              num_channels := num_channels session_params |});
    reflexivity.
Defined.

(** X5. With the parameters of [pluginInit] the cost function never returns
    an infinity or a NaN: for every topology, operation, algorithm, protocol,
    pipeline depth and payload size of the argument types, a cost it returns
    is a finite number of magnitude at most [2^71], strictly below
    [FLT_MAX]. *)
Theorem X5_cost_finite dims func algo proto pipe_ops size c :
  int_range (num_ranks dims) -> int_range (num_nodes dims) ->
  int_range pipe_ops -> size_range size ->
  nccl_tuner_compute_cost session_params dims func algo proto pipe_ops size
  = Some c ->
  finite32 c = true
  /\ Z.abs (ulps c) <= 2 ^ 71 * 2 ^ 149
  /\ Binary32.ltb c Binary32.FLT_MAX = true.
Proof.
  intros Hr Hn Hp Hs Hc.
  destruct (compute_cost_within _ _ _ _ _ _ _ Hr Hn Hp Hs Hc) as [Hf Hu].
  split; [exact Hf|]. split.
  - change (71 + 149) with 220 in Hu. lia.
  - rewrite ltb_ulps by (try exact Hf; reflexivity).
    apply Z.ltb_lt. change (71 + 149) with 220 in Hu.
    change (ulps Binary32.FLT_MAX) with ((2 ^ 24 - 1) * 2 ^ 253). lia.
Qed.

Lemma X5_cost_finite_witness :
  finite32 (S754_finite false 14143347 (-15)) = true
  /\ Z.abs (ulps (S754_finite false 14143347 (-15))) <= 2 ^ 71 * 2 ^ 149
  /\ Binary32.ltb (S754_finite false 14143347 (-15)) Binary32.FLT_MAX = true.
Proof.
  apply (X5_cost_finite {| num_ranks := 64; num_nodes := 8 |}
           ncclFuncAllReduce NCCL_ALGO_RING NCCL_PROTO_SIMPLE 1 (2 ^ 20)).
  - vm_compute. split; discriminate.
  - vm_compute. split; discriminate.
  - vm_compute. split; discriminate.
  - vm_compute. split; discriminate.
  - vm_compute. reflexivity.
Defined.

(** ** The latency term *)

(** On a topology with [1 <= nodeCount <= rankCount < 2^30] the latency of
    each of the three models is a finite number that is not negative. *)
Lemma session_latency_nonneg dims func algo proto b v latency bw :
  1 <= num_nodes dims <= num_ranks dims -> num_ranks dims < 2 ^ 30 ->
  table_get nccl_base_lat algo proto = Some b ->
  table_get nccl_nvlink_lat algo proto = Some v ->
  cost_switch session_params dims func algo b v (net_lat session_params)
  = Some (Break latency bw) ->
  within 39 latency /\ 0 <= ulps latency
  /\ (bw = ring_bandwidth session_params
      \/ bw = tree_bandwidth session_params).
Proof.
  intros Hn Hr Hb Hv Hx.
  pose proof (base_lat_in_table _ _ _ Hb) as Ht.
  destruct (table_entries _ _ Ht) as (b' & v' & Hb' & Hv' & Wb & Wv & Nb & Nv).
  rewrite Hb in Hb'. rewrite Hv in Hv'.
  apply some_inj in Hb'. apply some_inj in Hv'. subst b' v'.
  destruct (cost_switch_break_bw _ _ _ _ _ _ _ _ _ Hx)
    as [-> [[-> Hbw] | [[-> | ->] Hbw]]].
  - rewrite cost_switch_ring in Hx.
    + apply some_inj in Hx. injection Hx as <- _.
      destruct (ring_table_entries proto (proj2 Ht))
        as (b' & v' & Hb' & Hv' & _ & _ & Lb & Lv).
      rewrite Hb in Hb'. rewrite Hv in Hv'.
      apply some_inj in Hb'. apply some_inj in Hv'. subst b' v'.
      destruct (ring_latency_nonneg b v _ _ Wb Wv Lb Lv Hn Hr) as [Wl Nl].
      auto.
    + unfold ring_steps_fit, int_range, INT_MIN, INT_MAX,
        ring_intranode_steps, ring_internode_steps, ring_total_steps.
      lia.
  - rewrite cost_switch_tree in Hx by (unfold INT_MAX; lia).
    apply some_inj in Hx. injection Hx as <- _.
    destruct (tree_latency_nonneg b v _ _ Wb Wv Nb Nv Hn Hr) as [Wl Nl].
    auto.
  - rewrite cost_switch_nvls_tree in Hx by (unfold INT_MAX; lia).
    apply some_inj in Hx. injection Hx as <- _.
    destruct (nvls_tree_latency_nonneg b v (num_nodes dims) Wb Wv Nb Nv
                ltac:(lia)) as [Wl Nl].
    auto.
Qed.

(** With a latency that is not negative the cost does not decrease when the
    pipeline gets deeper. *)
Lemma total_cost_monotone_depth latency p1 p2 size proto bw :
  within 39 latency -> 0 <= ulps latency ->
  int_range p1 -> int_range p2 -> p1 <= p2 -> size_range size ->
  bw = ring_bandwidth session_params \/ bw = tree_bandwidth session_params ->
  Binary32.leb (total_cost latency p1 size proto bw)
    (total_cost latency p2 size proto bw) = true.
Proof.
  intros Wl Nl Hp1 Hp2 Hle Hs Hbw.
  destruct (total_cost_units latency p1 size proto bw Wl Hp1 Hs Hbw)
    as [[Hf1 _] U1].
  destruct (total_cost_units latency p2 size proto bw Wl Hp2 Hs Hbw)
    as [[Hf2 _] U2].
  rewrite leb_ulps by assumption. apply Z.leb_le. rewrite U1, U2.
  apply round_units_mono; try lia.
  rewrite !Z.mul_1_r. apply Z.add_le_mono_r.
  assert (H1 : round_units (p1 * 2 ^ 149) 1 <= round_units (p2 * 2 ^ 149) 1).
  { apply round_units_mono; nia. }
  apply round_units_mono; try lia.
  apply Z.mul_le_mono_nonneg_r; [lia|].
  now apply Z.mul_le_mono_nonneg_l.
Qed.

(** X6. On a topology with [1 <= nodeCount <= rankCount < 2^30] and with the
    parameters of [pluginInit], the cost does not decrease when the number
    of pipelined operations grows, everything else fixed: if the cost
    function returns for [p1], it returns for every [p2 >= p1], with a cost
    at least as large. *)
Theorem X6_cost_monotone_in_pipeline_depth dims func algo proto p1 p2 size c1 :
  1 <= num_nodes dims <= num_ranks dims -> num_ranks dims < 2 ^ 30 ->
  int_range p1 -> int_range p2 -> p1 <= p2 -> size_range size ->
  nccl_tuner_compute_cost session_params dims func algo proto p1 size
  = Some c1 ->
  exists c2,
    nccl_tuner_compute_cost session_params dims func algo proto p2 size
    = Some c2
    /\ Binary32.leb c1 c2 = true.
Proof.
  intros Hn Hr Hp1 Hp2 Hle Hs H1.
  destruct (compute_cost_shape _ _ _ _ _ _ _ _ H1)
    as (b & v & x & Hb & Hv & Hx & ->).
  rewrite (compute_cost_of_shape _ _ _ _ _ p2 size b v x Hb Hv Hx).
  eexists. split; [reflexivity|].
  destruct x as [c | latency bw].
  - assert (Hrange : int_range (num_ranks dims)
                     /\ int_range (num_nodes dims)).
    { unfold int_range, INT_MIN, INT_MAX. lia. }
    pose proof (base_lat_in_table _ _ _ Hb) as Ht.
    destruct (table_entries _ _ Ht) as (b' & v' & Hb' & Hv' & Wb & Wv & _).
    rewrite Hb in Hb'. rewrite Hv in Hv'.
    apply some_inj in Hb'. apply some_inj in Hv'. subst b' v'.
    pose proof (cost_switch_within dims func algo b v _ (proj1 Hrange)
                  (proj2 Hrange) Wb Wv Hx) as Hsw.
    cbv beta iota in Hsw. subst c. reflexivity.
  - destruct (session_latency_nonneg _ _ _ _ _ _ _ _ Hn Hr Hb Hv Hx)
      as (Wl & Nl & Hbw).
    now apply total_cost_monotone_depth.
Qed.

Lemma X6_cost_monotone_in_pipeline_depth_witness :
  exists c2,
    nccl_tuner_compute_cost session_params
      {| num_ranks := 64; num_nodes := 8 |} ncclFuncAllReduce NCCL_ALGO_RING
      NCCL_PROTO_SIMPLE 2 (2 ^ 20) = Some c2
    /\ Binary32.leb (S754_finite false 14143347 (-15)) c2 = true.
Proof.
  apply (X6_cost_monotone_in_pipeline_depth
           {| num_ranks := 64; num_nodes := 8 |} ncclFuncAllReduce
           NCCL_ALGO_RING NCCL_PROTO_SIMPLE 1 2 (2 ^ 20)).
  - cbn. lia.
  - cbn. lia.
  - vm_compute. split; discriminate.
  - vm_compute. split; discriminate.
  - lia.
  - vm_compute. split; discriminate.
  - vm_compute. reflexivity.
Defined.

(** ** The empty payload *)

Lemma round_units_zero (D : Z) : 0 < D -> round_units 0 D = 0.
Proof.
  intros HD. unfold round_units. change (0 <? 0) with false. cbv iota.
  now apply round_ulps_zero.
Qed.

Lemma total_cost_zero_payload latency pipe_ops proto bw :
  within 39 latency -> int_range pipe_ops ->
  bw = ring_bandwidth session_params \/ bw = tree_bandwidth session_params ->
  finite32 (total_cost latency pipe_ops 0 proto bw) = true
  /\ Binary32.eqb (total_cost latency pipe_ops 0 proto bw)
       (Binary32.mul latency (Binary32.of_Z pipe_ops)) = true.
Proof.
  intros Wl Hp Hbw.
  assert (Hs : size_range 0) by (unfold size_range, SIZE_MAX; lia).
  destruct (total_cost_units latency pipe_ops 0 proto bw Wl Hp Hs Hbw)
    as [[Hf _] U].
  destruct (session_bandwidth proto bw Hbw) as [_ Hge].
  destruct (within_of_Z pipe_ops 31 ltac:(lia) (int_range_abs _ Hp))
    as [Wp Up].
  destruct (within_mul 39 31 _ _ Wl Wp ltac:(lia) ltac:(lia) ltac:(lia)
              ltac:(lia)) as [[Hfm _] Um].
  split; [exact Hf|].
  unfold Binary32.eqb, SFeqb. rewrite SFcompare_ulps by assumption.
  rewrite U, Um, Up.
  change (0 * 2 ^ 149) with 0.
  rewrite (round_units_zero 1) by lia.
  change (0 * 2 ^ 149) with 0.
  rewrite (round_units_zero (ulps (protocol_penalty proto bw))) by lia.
  rewrite Z.add_0_r.
  set (A := round_units (ulps latency * round_units (pipe_ops * 2 ^ 149) 1)
              (2 ^ 149)).
  assert (HA : round_units A 1 = A).
  { pose proof (round_units_representable A 1) as HR.
    rewrite Z.mul_1_r in HR. apply HR; [|lia].
    unfold A. rewrite <- Up, <- Um. now apply finite32_abs_ulps. }
  rewrite HA. now rewrite Z.compare_refl.
Qed.

(** X7. For a payload of zero bytes the cost is the latency term alone:
    with the parameters of [pluginInit], whenever the cost function gets
    past its [switch] with a latency, the cost it returns for [size = 0] is a
    finite number equal to [latency * pipe_ops]. *)
Theorem X7_zero_payload_costs_latency dims func algo proto pipe_ops b v
    latency bw :
  int_range (num_ranks dims) -> int_range (num_nodes dims) ->
  int_range pipe_ops ->
  table_get nccl_base_lat algo proto = Some b ->
  table_get nccl_nvlink_lat algo proto = Some v ->
  cost_switch session_params dims func algo b v (net_lat session_params)
  = Some (Break latency bw) ->
  exists c,
    nccl_tuner_compute_cost session_params dims func algo proto pipe_ops 0
    = Some c
    /\ finite32 c = true
    /\ Binary32.eqb c (Binary32.mul latency (Binary32.of_Z pipe_ops)) = true.
Proof.
  intros Hr Hn Hp Hb Hv Hx.
  rewrite (compute_cost_of_shape _ _ _ _ _ pipe_ops 0 b v _ Hb Hv Hx).
  eexists. split; [reflexivity|].
  pose proof (base_lat_in_table _ _ _ Hb) as Ht.
  destruct (table_entries _ _ Ht) as (b' & v' & Hb' & Hv' & Wb & Wv & _).
  rewrite Hb in Hb'. rewrite Hv in Hv'.
  apply some_inj in Hb'. apply some_inj in Hv'. subst b' v'.
  destruct (cost_switch_within dims func algo b v _ Hr Hn Wb Wv Hx)
    as [Wl Hbw].
  now apply total_cost_zero_payload.
Qed.

Lemma X7_zero_payload_costs_latency_witness :
  exists c,
    nccl_tuner_compute_cost session_params
      {| num_ranks := 64; num_nodes := 8 |} ncclFuncAllReduce NCCL_ALGO_RING
      NCCL_PROTO_SIMPLE 3 0 = Some c
    /\ finite32 c = true
    /\ Binary32.eqb c
         (Binary32.mul
            (ring_latency (flit 84 10) (flit 34 10) (Binary32.of_Z 3) 64 8)
            (Binary32.of_Z 3)) = true.
Proof.
  apply (X7_zero_payload_costs_latency
           {| num_ranks := 64; num_nodes := 8 |} ncclFuncAllReduce
           NCCL_ALGO_RING NCCL_PROTO_SIMPLE 3 (flit 84 10) (flit 34 10)
           (ring_latency (flit 84 10) (flit 34 10) (Binary32.of_Z 3) 64 8)
           (ring_bandwidth session_params)).
  - vm_compute. split; discriminate.
  - vm_compute. split; discriminate.
  - vm_compute. split; discriminate.
  - vm_compute. reflexivity.
  - vm_compute. reflexivity.
  - vm_compute. reflexivity.
Defined.

(** ** The fast-fabric tree *)

Lemma nvls_tree_latency_exact (l : Z) :
  0 <= l <= 30 ->
  Binary32.add Binary32.zero
    (Binary32.add (flit 25 1)
       (Binary32.mul (Binary32.of_Z (2 * l)) (net_lat session_params)))
  = Binary32.of_Z (25 + 6 * l).
Proof.
  intros Hl. rewrite <- (Z2Nat.id l) by lia.
  assert (Hk : (Z.to_nat l <= 30)%nat) by lia.
  revert Hk. generalize (Z.to_nat l). clear l Hl. intros k Hk.
  do 31 (destruct k as [| k]; [vm_compute; reflexivity|]).
  lia.
Qed.

(** X8. For an all-reduce with the fast-fabric tree the latency is the base
    latency plus one intra-node latency plus [2 * log2 nodeCount] inter-node
    latencies, and the bandwidth before the protocol penalty is half the
    ring's.  Under the full-payload protocol, the only one the engine
    submits for this algorithm, and with the parameters of [pluginInit] the
    latency is exactly [25 + 6 * log2 nodeCount], without any rounding
    error. *)
Theorem X8_nvls_tree_allreduce_cost params dims proto pipe_ops size base
    intraLat :
  table_get nccl_base_lat NCCL_ALGO_NVLS_TREE proto = Some base ->
  table_get nccl_nvlink_lat NCCL_ALGO_NVLS_TREE proto = Some intraLat ->
  0 <= num_nodes dims <= INT_MAX ->
  nccl_tuner_compute_cost params dims ncclFuncAllReduce NCCL_ALGO_NVLS_TREE
    proto pipe_ops size
  = Some (total_cost
            (nvls_tree_latency base intraLat (net_lat params)
               (num_nodes dims))
            pipe_ops size proto (tree_bandwidth params))
  /\ table_get nccl_base_lat NCCL_ALGO_NVLS_TREE NCCL_PROTO_SIMPLE
     = Some Binary32.zero
  /\ table_get nccl_nvlink_lat NCCL_ALGO_NVLS_TREE NCCL_PROTO_SIMPLE
     = Some (flit 25 1)
  /\ nvls_tree_latency Binary32.zero (flit 25 1) (net_lat session_params)
       (num_nodes dims)
     = Binary32.of_Z (25 + 6 * Z.log2 (num_nodes dims)).
Proof.
  intros Hb Hv Hn. split; [|split; [reflexivity|split; [reflexivity|]]].
  - apply (compute_cost_break _ _ _ _ _ _ _ base intraLat); auto.
    now apply cost_switch_nvls_tree.
  - unfold nvls_tree_latency. apply nvls_tree_latency_exact.
    split; [apply Z.log2_nonneg|].
    destruct (Z.eq_dec (num_nodes dims) 0) as [-> | Hz]; [cbn; lia|].
    assert (Z.log2 (num_nodes dims) < 31); [|lia].
    apply Z.log2_lt_pow2; unfold INT_MAX in Hn; lia.
Qed.

Lemma X8_nvls_tree_allreduce_cost_witness :
  nccl_tuner_compute_cost session_params
    {| num_ranks := 64; num_nodes := 8 |} ncclFuncAllReduce
    NCCL_ALGO_NVLS_TREE NCCL_PROTO_SIMPLE 1 (2 ^ 20)
  = Some (total_cost
            (nvls_tree_latency Binary32.zero (flit 25 1)
               (net_lat session_params) 8)
            1 (2 ^ 20) NCCL_PROTO_SIMPLE (tree_bandwidth session_params))
  /\ table_get nccl_base_lat NCCL_ALGO_NVLS_TREE NCCL_PROTO_SIMPLE
     = Some Binary32.zero
  /\ table_get nccl_nvlink_lat NCCL_ALGO_NVLS_TREE NCCL_PROTO_SIMPLE
     = Some (flit 25 1)
  /\ nvls_tree_latency Binary32.zero (flit 25 1) (net_lat session_params) 8
     = Binary32.of_Z (25 + 6 * Z.log2 8).
Proof.
  apply (X8_nvls_tree_allreduce_cost session_params
           {| num_ranks := 64; num_nodes := 8 |} NCCL_PROTO_SIMPLE 1
           (2 ^ 20) Binary32.zero (flit 25 1)).
  - vm_compute. reflexivity.
  - vm_compute. reflexivity.
  - vm_compute. split; discriminate.
Defined.

(** ** The search as a fold over the costs *)

Lemma visit_all_selection ctx collType nBytes numPipeOps (l : list (Z * Z)) :
  forall best low out0 ev,
    visit_all ctx collType nBytes numPipeOps l
      {| out := recommended best out0; lowest := low; evaluated := ev |}
    = bind (selection (cost_of ctx collType nBytes numPipeOps) l best low)
        (fun r => Some {| out := recommended (fst r) out0;
                          lowest := snd r;
                          evaluated := rev l ++ ev |}).
Proof.
  induction l as [| [algo proto] l IH]; intros best low out0 ev.
  - reflexivity.
  - cbn [visit_all selection fst snd rev]. unfold visit_pair, cost_of.
    cbn [fst snd params dims out lowest evaluated].
    destruct (nccl_tuner_compute_cost (params ctx) (dims ctx) collType algo
                proto numPipeOps nBytes) as [c |]; [|reflexivity].
    cbn [bind]. change (Binary32.of_Z 0) with Binary32.zero.
    rewrite <- app_assoc. cbn [app].
    destruct (Binary32.ltb c Binary32.zero).
    + apply IH.
    + destruct (Binary32.ltb c low).
      * replace {| algorithm := algo; protocol := proto;
                   nChannels := nChannels (recommended best out0) |}
          with (recommended (Some (algo, proto)) out0)
          by (destruct best; reflexivity).
        apply IH.
      * apply IH.
Qed.

(** The engine in terms of [selection]. *)
Lemma pluginGetCollInfo_selection ctx collType nBytes collNetSupport
    nvlsSupport numPipeOps out0 :
  2 < num_nodes (dims ctx) ->
  pluginGetCollInfo ctx collType nBytes collNetSupport nvlsSupport numPipeOps
    out0
  = bind (selection (cost_of ctx collType nBytes numPipeOps)
            (admissible (truth collNetSupport) (truth nvlsSupport)) None
            Binary32.FLT_MAX)
      (fun r => Some (ncclSuccess, recommended (fst r) out0,
                      admissible (truth collNetSupport) (truth nvlsSupport))).
Proof.
  intros Hn. rewrite pluginGetCollInfo_search by exact Hn.
  rewrite (visit_all_selection ctx collType nBytes numPipeOps _ None
             Binary32.FLT_MAX out0 []).
  destruct (selection _ _ None Binary32.FLT_MAX) as [r |]; [|reflexivity].
  cbn [bind out evaluated]. now rewrite app_nil_r, rev_involutive.
Qed.

Lemma selection_defined (cost : Z * Z -> option float) (l : list (Z * Z)) :
  (forall ap, In ap l -> exists c, cost ap = Some c) ->
  forall best low, exists r, selection cost l best low = Some r.
Proof.
  induction l as [| ap l IH]; intros Hd best low.
  - eexists; reflexivity.
  - cbn [selection]. destruct (Hd ap (or_introl eq_refl)) as [c ->].
    cbn [bind].
    assert (Hd' : forall ap', In ap' l -> exists c', cost ap' = Some c')
      by (intros ap' H; apply Hd; now right).
    destruct (Binary32.ltb c Binary32.zero); [now apply IH|].
    destruct (Binary32.ltb c low); now apply IH.
Qed.

Lemma recommended_twice (choice : option (Z * Z)) (out0 : outputs) :
  recommended choice (recommended choice out0) = recommended choice out0.
Proof. destruct choice; reflexivity. Qed.

(** X10. What the engine selects does not depend on what the output objects
    held before the call: there is one choice (a pair, or none) such that,
    whatever the outputs were, the call succeeds and leaves them with this
    choice written over algorithm and protocol, or untouched if there is
    none.  In particular a second call on the outputs of a first one changes
    nothing. *)
Theorem X10_selection_ignores_previous_outputs ctx collType nBytes
    collNetSupport nvlsSupport numPipeOps :
  int_range (num_nodes (dims ctx)) ->
  exists choice tr,
    (forall out0,
        pluginGetCollInfo ctx collType nBytes collNetSupport nvlsSupport
          numPipeOps out0
        = Some (ncclSuccess, recommended choice out0, tr))
    /\ (forall out0 out1 tr1,
          pluginGetCollInfo ctx collType nBytes collNetSupport nvlsSupport
            numPipeOps out0 = Some (ncclSuccess, out1, tr1) ->
          pluginGetCollInfo ctx collType nBytes collNetSupport nvlsSupport
            numPipeOps out1 = Some (ncclSuccess, out1, tr1)).
Proof.
  intros Hr.
  assert (H : exists choice tr, forall out0,
               pluginGetCollInfo ctx collType nBytes collNetSupport
                 nvlsSupport numPipeOps out0
               = Some (ncclSuccess, recommended choice out0, tr)).
  { destruct (Z_le_gt_dec (num_nodes (dims ctx)) 2) as [Hle | Hgt].
    - exists None, []. intros out0. unfold pluginGetCollInfo.
      now replace (num_nodes (dims ctx) <=? 2) with true by (symmetry; lia).
    - assert (Hn : 2 < num_nodes (dims ctx)) by lia.
      destruct (selection_defined (cost_of ctx collType nBytes numPipeOps)
                  (admissible (truth collNetSupport) (truth nvlsSupport))
                  (fun ap Hin => cost_of_defined ctx collType nBytes
                                   numPipeOps _ _ ap Hn Hr Hin)
                  None Binary32.FLT_MAX) as [[choice low] Hsel].
      exists choice, (admissible (truth collNetSupport) (truth nvlsSupport)).
      intros out0. rewrite pluginGetCollInfo_selection by exact Hn.
      now rewrite Hsel. }
  destruct H as (choice & tr & H). exists choice, tr. split; [exact H|].
  intros out0 out1 tr1 H1. rewrite H in H1. apply some_inj in H1.
  injection H1 as <- <-. rewrite H. now rewrite recommended_twice.
Qed.

Lemma X10_selection_ignores_previous_outputs_witness :
  exists choice tr,
    (forall out0,
        pluginGetCollInfo (session 64 8) ncclFuncAllReduce (2 ^ 20) 0 0 1 out0
        = Some (ncclSuccess, recommended choice out0, tr))
    /\ (forall out0 out1 tr1,
          pluginGetCollInfo (session 64 8) ncclFuncAllReduce (2 ^ 20) 0 0 1
            out0 = Some (ncclSuccess, out1, tr1) ->
          pluginGetCollInfo (session 64 8) ncclFuncAllReduce (2 ^ 20) 0 0 1
            out1 = Some (ncclSuccess, out1, tr1)).
Proof.
  apply (X10_selection_ignores_previous_outputs (session 64 8)
           ncclFuncAllReduce (2 ^ 20) 0 0 1).
  vm_compute. split; discriminate.
Defined.

(** Pairs whose cost is the sentinel can be left out of the search. *)
Lemma selection_filter (cost : Z * Z -> option float) (keep : Z * Z -> bool)
    (l : list (Z * Z)) :
  (forall ap, In ap l -> keep ap = false ->
              cost ap = Some Binary32.minus_one) ->
  forall best low,
    selection cost l best low = selection cost (filter keep l) best low.
Proof.
  induction l as [| ap l IH]; intros Hs best low; [reflexivity|].
  assert (Hs' : forall ap', In ap' l -> keep ap' = false ->
                            cost ap' = Some Binary32.minus_one)
    by (intros ap' H; apply Hs; now right).
  cbn [filter]. destruct (keep ap) eqn:Hk.
  - cbn [selection]. destruct (cost ap) as [c |]; [|reflexivity].
    cbn [bind].
    destruct (Binary32.ltb c Binary32.zero); [now apply IH|].
    destruct (Binary32.ltb c low); now apply IH.
  - cbn [selection]. rewrite (Hs ap (or_introl eq_refl) Hk). cbn [bind].
    change (Binary32.ltb Binary32.minus_one Binary32.zero) with true.
    cbv iota. now apply IH.
Qed.

Lemma admissible_without_collnet (cn nv : bool) :
  filter without_collnet (admissible cn nv) = admissible false nv.
Proof. destruct cn, nv; reflexivity. Qed.

Lemma collnet_cost ctx collType nBytes numPipeOps cn nv ap :
  In ap (admissible cn nv) -> without_collnet ap = false ->
  cost_of ctx collType nBytes numPipeOps ap = Some Binary32.minus_one.
Proof.
  intros Hin Hk. unfold cost_of.
  apply compute_cost_no_model; [exact (admissible_in_table _ _ _ Hin)|].
  right. unfold without_collnet in Hk.
  apply negb_false_iff, orb_true_iff in Hk.
  unfold NCCL_ALGO_COLLNET_DIRECT, NCCL_ALGO_COLLNET_CHAIN, NCCL_ALGO_RING,
    NCCL_ALGO_TREE, NCCL_ALGO_NVLS_TREE in *.
  destruct Hk as [Hk | Hk]; apply Z.eqb_eq in Hk; lia.
Qed.

(** X9. The flag [collNetSupport] has no influence on what the engine
    returns: the two network-offload algorithms have no cost model, so
    whether they are enumerated or not, the call succeeds with the same
    outputs. *)
Theorem X9_collnet_support_irrelevant ctx collType nBytes cn1 cn2 nvlsSupport
    numPipeOps out0 :
  int_range (num_nodes (dims ctx)) ->
  exists out' tr1 tr2,
    pluginGetCollInfo ctx collType nBytes cn1 nvlsSupport numPipeOps out0
    = Some (ncclSuccess, out', tr1)
    /\ pluginGetCollInfo ctx collType nBytes cn2 nvlsSupport numPipeOps out0
       = Some (ncclSuccess, out', tr2).
Proof.
  intros Hr.
  destruct (Z_le_gt_dec (num_nodes (dims ctx)) 2) as [Hle | Hgt].
  - exists out0, [], []. unfold pluginGetCollInfo.
    now replace (num_nodes (dims ctx) <=? 2) with true by (symmetry; lia).
  - assert (Hn : 2 < num_nodes (dims ctx)) by lia.
    rewrite !pluginGetCollInfo_selection by exact Hn.
    rewrite (selection_filter _ without_collnet
               (admissible (truth cn1) (truth nvlsSupport)))
      by apply collnet_cost.
    rewrite (selection_filter _ without_collnet
               (admissible (truth cn2) (truth nvlsSupport)))
      by apply collnet_cost.
    rewrite !admissible_without_collnet.
    destruct (selection_defined (cost_of ctx collType nBytes numPipeOps)
                (admissible false (truth nvlsSupport))
                (fun ap Hin => cost_of_defined ctx collType nBytes
                                 numPipeOps _ _ ap Hn Hr Hin)
                None Binary32.FLT_MAX) as [[choice low] ->].
    cbn [bind fst]. eauto.
Qed.

Lemma X9_collnet_support_irrelevant_witness :
  exists out' tr1 tr2,
    pluginGetCollInfo (session 64 8) ncclFuncAllReduce (2 ^ 20) 0 1 1
      {| algorithm := -1; protocol := -1; nChannels := 0 |}
    = Some (ncclSuccess, out', tr1)
    /\ pluginGetCollInfo (session 64 8) ncclFuncAllReduce (2 ^ 20) 1 1 1
         {| algorithm := -1; protocol := -1; nChannels := 0 |}
       = Some (ncclSuccess, out', tr2).
Proof.
  apply (X9_collnet_support_irrelevant (session 64 8) ncclFuncAllReduce
           (2 ^ 20) 0 1 1 1).
  vm_compute. split; discriminate.
Defined.

(** ** An all-reduce always gets a recommendation *)

(** The three models give a cost that is not negative. *)
Lemma allreduce_cost_nonneg dims algo proto pipe_ops size :
  1 <= num_nodes dims <= num_ranks dims -> num_ranks dims < 2 ^ 30 ->
  in_table algo proto ->
  algo = NCCL_ALGO_TREE \/ algo = NCCL_ALGO_RING
  \/ algo = NCCL_ALGO_NVLS_TREE ->
  0 <= pipe_ops <= INT_MAX -> size_range size ->
  exists c,
    nccl_tuner_compute_cost session_params dims ncclFuncAllReduce algo proto
      pipe_ops size = Some c
    /\ Binary32.leb Binary32.zero c = true.
Proof.
  intros Hn Hr Ht Ha Hp Hs.
  destruct (table_get_base _ _ Ht) as [b Hb].
  destruct (table_get_nvlink _ _ Ht) as [v Hv].
  assert (Hx : exists latency bw,
             cost_switch session_params dims ncclFuncAllReduce algo b v
               (net_lat session_params) = Some (Break latency bw)).
  { destruct Ha as [-> | [-> | ->]].
    - rewrite cost_switch_tree by (unfold INT_MAX; lia). eauto.
    - rewrite cost_switch_ring; [eauto|].
      unfold ring_steps_fit, int_range, INT_MIN, INT_MAX,
        ring_intranode_steps, ring_internode_steps, ring_total_steps.
      lia.
    - rewrite cost_switch_nvls_tree by (unfold INT_MAX; lia). eauto. }
  destruct Hx as (latency & bw & Hx).
  destruct (session_latency_nonneg _ _ _ _ _ _ _ _ Hn Hr Hb Hv Hx)
    as (Wl & Nl & Hbw).
  rewrite (compute_cost_break _ _ _ _ _ pipe_ops size b v latency bw Hb Hv Hx).
  eexists. split; [reflexivity|]. now apply total_cost_nonneg.
Qed.

Lemma admissible_models (cn nv : bool) (ap : Z * Z) :
  In ap (admissible cn nv) ->
  fst ap = NCCL_ALGO_TREE \/ fst ap = NCCL_ALGO_RING
  \/ (fst ap = NCCL_ALGO_NVLS_TREE /\ nv = true
      /\ snd ap = NCCL_PROTO_SIMPLE)
  \/ (fst ap <> NCCL_ALGO_TREE /\ fst ap <> NCCL_ALGO_RING
      /\ fst ap <> NCCL_ALGO_NVLS_TREE).
Proof.
  intros Hin.
  destruct cn, nv; cbn in Hin;
    repeat (destruct Hin as [<- | Hin];
            [cbn; first [ now left | now (right; left)
                        | now (right; right; left)
                        | right; right; right; repeat split; discriminate ]
            |]);
    contradiction.
Qed.

Lemma tree_ll_admissible (cn nv : bool) :
  In (NCCL_ALGO_TREE, NCCL_PROTO_LL) (admissible cn nv).
Proof. destruct cn, nv; cbn; auto. Qed.

(** X11. For an all-reduce on a topology with
    [3 <= nNodes <= nRanks < 2^30], a pipeline depth that is not negative
    and any payload size, the engine always makes a recommendation: it
    overwrites algorithm and protocol, whatever they held, with the tree,
    the ring or (only when [nvlsSupport] is set, and then under the
    full-payload protocol) the fast-fabric tree, and with a protocol index
    inside the table. *)
Theorem X11_allreduce_always_recommended nRanks nNodes nBytes collNetSupport
    nvlsSupport numPipeOps out0 :
  3 <= nNodes <= nRanks -> nRanks < 2 ^ 30 ->
  0 <= numPipeOps <= INT_MAX -> size_range nBytes ->
  exists out' tr,
    pluginGetCollInfo (session nRanks nNodes) ncclFuncAllReduce nBytes
      collNetSupport nvlsSupport numPipeOps out0
    = Some (ncclSuccess, out', tr)
    /\ (algorithm out' = NCCL_ALGO_TREE \/ algorithm out' = NCCL_ALGO_RING
        \/ (algorithm out' = NCCL_ALGO_NVLS_TREE /\ nvlsSupport <> 0
            /\ protocol out' = NCCL_PROTO_SIMPLE))
    /\ 0 <= protocol out' < NCCL_NUM_PROTOCOLS
    /\ nChannels out' = nChannels out0.
Proof.
  intros Hn Hr Hp Hs.
  assert (Hwn : wrap32 nNodes = nNodes)
    by (apply wrap32_small; unfold int_range, INT_MIN, INT_MAX; lia).
  assert (Hwr : wrap32 nRanks = nRanks)
    by (apply wrap32_small; unfold int_range, INT_MIN, INT_MAX; lia).
  assert (Hn2 : 2 < num_nodes (dims (session nRanks nNodes)))
    by (cbn [session dims num_nodes]; lia).
  assert (Hp' : int_range numPipeOps)
    by (unfold int_range, INT_MIN, INT_MAX in *; lia).
  rewrite pluginGetCollInfo_search by exact Hn2.
  destruct (searched_all (session nRanks nNodes) ncclFuncAllReduce nBytes
              numPipeOps out0
              (admissible (truth collNetSupport) (truth nvlsSupport)) [] _
              (session_costs_finite nRanks nNodes ncclFuncAllReduce nBytes
                 numPipeOps _ _ Hn2 Hs Hp')
              (searched_nil _ _ _ _ out0))
    as (st' & Hv & Hsearched).
  rewrite Hv. cbn [bind app] in *.
  exists (out st'), (rev (evaluated st')). split; [reflexivity|].
  assert (Hcost : forall ap,
             in_table (fst ap) (snd ap) ->
             fst ap = NCCL_ALGO_TREE \/ fst ap = NCCL_ALGO_RING
             \/ fst ap = NCCL_ALGO_NVLS_TREE ->
             exists c,
               cost_of (session nRanks nNodes) ncclFuncAllReduce nBytes
                 numPipeOps ap = Some c
               /\ Binary32.leb Binary32.zero c = true).
  { intros ap Ht Ha. unfold cost_of.
    apply allreduce_cost_nonneg; auto;
      cbn [session dims params num_nodes num_ranks]; lia. }
  destruct Hsearched as [(Hnone & _ & _) | (ap & c & Hbest & Ho & _)].
  - destruct (Hcost (NCCL_ALGO_TREE, NCCL_PROTO_LL))
      as (c & Hc & Hpos); [cbv; repeat split; discriminate | now left |].
    rewrite (Hnone _ c (tree_ll_admissible _ _) Hc) in Hpos. discriminate.
  - destruct Hbest as (before & after & Hl & Hc & Hpos & _).
    assert (Hin : In ap (admissible (truth collNetSupport)
                           (truth nvlsSupport)))
      by (rewrite Hl; apply in_or_app; right; now left).
    pose proof (admissible_in_table _ _ _ Hin) as Ht.
    rewrite Ho. cbn [recommend algorithm protocol nChannels].
    split; [|split; [exact (proj2 Ht) | reflexivity]].
    destruct (admissible_models _ _ _ Hin)
      as [Ha | [Ha | [(Ha & Hnv & Hpr) | Ha]]]; auto.
    + right. right. repeat split; auto.
      unfold truth in Hnv. apply negb_true_iff, Z.eqb_neq in Hnv. exact Hnv.
    + unfold cost_of in Hc.
      destruct Ha as (Ha1 & Ha2 & Ha3).
      rewrite (compute_cost_no_model _ _ _ _ _ _ _ Ht
                 (or_intror (conj Ha2 (conj Ha1 Ha3)))) in Hc.
      apply some_inj in Hc. subst c. discriminate.
Qed.

Lemma X11_allreduce_always_recommended_witness :
  exists out' tr,
    pluginGetCollInfo (session 64 8) ncclFuncAllReduce (2 ^ 20) 1 1 1
      {| algorithm := -1; protocol := -1; nChannels := 0 |}
    = Some (ncclSuccess, out', tr)
    /\ (algorithm out' = NCCL_ALGO_TREE \/ algorithm out' = NCCL_ALGO_RING
        \/ (algorithm out' = NCCL_ALGO_NVLS_TREE /\ 1 <> 0
            /\ protocol out' = NCCL_PROTO_SIMPLE))
    /\ 0 <= protocol out' < NCCL_NUM_PROTOCOLS
    /\ nChannels out' = 0.
Proof.
  apply (X11_allreduce_always_recommended 64 8 (2 ^ 20) 1 1 1
           {| algorithm := -1; protocol := -1; nChannels := 0 |}).
  - lia.
  - lia.
  - vm_compute. split; discriminate.
  - vm_compute. split; discriminate.
Defined.

(** ** The life of a context *)


Lemma load_release_other (h : heap) (p q : pointer) :
  q <> p -> load (release h p) q = load h q.
Proof.
  intros Hq. induction h as [| [r c] h IH]; [reflexivity|].
  unfold release in *. cbn [filter fst].
  destruct (r =? p) eqn:E; cbn [negb load].
  - apply Z.eqb_eq in E. subst r.
    replace (q =? p) with false by (symmetry; now apply Z.eqb_neq).
    exact IH.
  - now rewrite IH.
Qed.

Lemma release_fresh (h : heap) (p : pointer) :
  load h p = None -> release h p = h.
Proof.
  induction h as [| [q c] h IH]; [reflexivity|].
  cbn [load]. unfold release in *. cbn [filter fst].
  rewrite (Z.eqb_sym q p). destruct (p =? q); [discriminate|].
  intros H. cbn [negb]. now rewrite IH.
Qed.

Lemma release_head (h : heap) (p : pointer) (c : nccl_tuner_context) :
  release ((p, c) :: h) p = release h p.
Proof. unfold release. cbn [filter fst]. now rewrite Z.eqb_refl. Qed.

(** The entry point [init] is [pluginInit] with the context placed on the
    heap. *)
Lemma init_pluginInit h block nRanks nNodes context0 :
  fst (fst (init ncclTunerPlugin_v2 h block nRanks nNodes context0))
  = fst (pluginInit (negb (block =? NULL)) nRanks nNodes)
  /\ (block <> NULL ->
      option_map (fun c => (block, c) :: h)
        (snd (pluginInit (negb (block =? NULL)) nRanks nNodes))
      = Some (snd (fst (init ncclTunerPlugin_v2 h block nRanks nNodes
                         context0))))
  /\ init ncclTunerPlugin_v2 h NULL nRanks nNodes context0
     = (ncclInternalError, h, context0).
Proof.
  cbn [init ncclTunerPlugin_v2]. unfold Mem.pluginInit, pluginInit.
  split; [|split].
  - now destruct (block =? NULL).
  - intros Hb.
    now replace (block =? NULL) with false by (symmetry; now apply Z.eqb_neq).
  - reflexivity.
Qed.

(** X12. A context lives from [init] to [destroy] and leaves nothing
    behind: when [calloc] returns a fresh block, [init] succeeds and hands
    out that block, holding the rank and node counts (narrowed to [int]) and
    the constants of the plugin; [getCollInfo] on it is the engine on this
    context and returns [ncclSuccess], whatever its arguments; and [destroy]
    succeeds and gives back exactly the heap that [init] found. *)
Theorem X12_init_destroy_round_trip h block nRanks nNodes context0 :
  block <> NULL -> load h block = None ->
  exists h',
    init ncclTunerPlugin_v2 h block nRanks nNodes context0
    = (ncclSuccess, h', block)
    /\ load h' block = Some (session nRanks nNodes)
    /\ (forall collType nBytes collNetSupport nvlsSupport numPipeOps out0,
          getCollInfo ncclTunerPlugin_v2 h' block collType nBytes
            collNetSupport nvlsSupport numPipeOps out0
          = pluginGetCollInfo (session nRanks nNodes) collType nBytes
              collNetSupport nvlsSupport numPipeOps out0
          /\ exists out' tr,
               getCollInfo ncclTunerPlugin_v2 h' block collType nBytes
                 collNetSupport nvlsSupport numPipeOps out0
               = Some (ncclSuccess, out', tr))
    /\ destroy ncclTunerPlugin_v2 h' block = Some (ncclSuccess, h).
Proof.
  intros Hnull Hfresh.
  cbn [init getCollInfo destroy ncclTunerPlugin_v2].
  unfold Mem.pluginInit, Mem.pluginGetCollInfo, Mem.pluginDestroy.
  replace (block =? NULL) with false by (symmetry; now apply Z.eqb_neq).
  eexists. split; [reflexivity|]. cbn [load negb]. rewrite Z.eqb_refl.
  split; [reflexivity|]. split.
  - intros collType nBytes cn nv pipe out0. split; [reflexivity|].
    cbn [bind].
    destruct (pluginGetCollInfo_returns (session nRanks nNodes) collType
                nBytes cn nv pipe out0 (wrap32_range nNodes))
      as (out' & tr & H & _).
    eauto.
  - now rewrite release_head, (release_fresh h block Hfresh).
Qed.

Lemma X12_init_destroy_round_trip_witness :
  exists h',
    init ncclTunerPlugin_v2 [(4096, session 16 2)] 8192 64 8 NULL
    = (ncclSuccess, h', 8192)
    /\ load h' 8192 = Some (session 64 8)
    /\ (forall collType nBytes collNetSupport nvlsSupport numPipeOps out0,
          getCollInfo ncclTunerPlugin_v2 h' 8192 collType nBytes
            collNetSupport nvlsSupport numPipeOps out0
          = pluginGetCollInfo (session 64 8) collType nBytes
              collNetSupport nvlsSupport numPipeOps out0
          /\ exists out' tr,
               getCollInfo ncclTunerPlugin_v2 h' 8192 collType nBytes
                 collNetSupport nvlsSupport numPipeOps out0
               = Some (ncclSuccess, out', tr))
    /\ destroy ncclTunerPlugin_v2 h' 8192
       = Some (ncclSuccess, [(4096, session 16 2)]).
Proof.
  apply (X12_init_destroy_round_trip [(4096, session 16 2)] 8192 64 8 NULL).
  - discriminate.
  - reflexivity.
Defined.


(** X14. Contexts do not interfere: creating a context at a block [p], or
    destroying the context at [p], leaves every other context as it was, so
    that [getCollInfo] through another pointer returns what it returned
    before. *)
Theorem X14_contexts_independent (h : heap) (p q : pointer) :
  q <> p ->
  (forall nRanks nNodes context0 collType nBytes collNetSupport nvlsSupport
          numPipeOps out0,
      getCollInfo ncclTunerPlugin_v2
        (snd (fst (init ncclTunerPlugin_v2 h p nRanks nNodes context0))) q
        collType nBytes collNetSupport nvlsSupport numPipeOps out0
      = getCollInfo ncclTunerPlugin_v2 h q collType nBytes collNetSupport
          nvlsSupport numPipeOps out0)
  /\ (forall r h' collType nBytes collNetSupport nvlsSupport numPipeOps out0,
        destroy ncclTunerPlugin_v2 h p = Some (r, h') ->
        getCollInfo ncclTunerPlugin_v2 h' q collType nBytes collNetSupport
          nvlsSupport numPipeOps out0
        = getCollInfo ncclTunerPlugin_v2 h q collType nBytes collNetSupport
            nvlsSupport numPipeOps out0).
Proof.
  intros Hq. cbn [init getCollInfo destroy ncclTunerPlugin_v2].
  unfold Mem.pluginInit, Mem.pluginGetCollInfo, Mem.pluginDestroy. split.
  - intros. destruct (p =? NULL); cbn [fst snd load]; [reflexivity|].
    now replace (q =? p) with false by (symmetry; now apply Z.eqb_neq).
  - intros r h' collType nBytes cn nv pipe out0 H.
    destruct (negb (p =? NULL)).
    + destruct (load h p); [|discriminate].
      apply some_inj in H. injection H as _ <-.
      now rewrite load_release_other.
    + apply some_inj in H. injection H as _ <-. reflexivity.
Qed.

Lemma X14_contexts_independent_witness :
  (forall nRanks nNodes context0 collType nBytes collNetSupport nvlsSupport
          numPipeOps out0,
      getCollInfo ncclTunerPlugin_v2
        (snd (fst (init ncclTunerPlugin_v2 [(4096, session 64 8)] 8192
                     nRanks nNodes context0))) 4096
        collType nBytes collNetSupport nvlsSupport numPipeOps out0
      = getCollInfo ncclTunerPlugin_v2 [(4096, session 64 8)] 4096 collType
          nBytes collNetSupport nvlsSupport numPipeOps out0)
  /\ (forall r h' collType nBytes collNetSupport nvlsSupport numPipeOps out0,
        destroy ncclTunerPlugin_v2 [(4096, session 64 8)] 8192
        = Some (r, h') ->
        getCollInfo ncclTunerPlugin_v2 h' 4096 collType nBytes collNetSupport
          nvlsSupport numPipeOps out0
        = getCollInfo ncclTunerPlugin_v2 [(4096, session 64 8)] 4096 collType
            nBytes collNetSupport nvlsSupport numPipeOps out0).
Proof.
  apply (X14_contexts_independent [(4096, session 64 8)] 8192 4096).
  discriminate.
Defined.

(** ** The counts handed to [pluginInit] *)

Lemma wrap32_above (z : Z) :
  INT_MAX < z < 2 ^ 32 + 3 -> wrap32 z = z - 2 ^ 32 /\ wrap32 z <= 2.
Proof.
  unfold INT_MAX, wrap32. intros H.
  replace (z + 2 ^ 31) with (z + 2 ^ 31 - 2 ^ 32 + 1 * 2 ^ 32) by lia.
  rewrite Z_mod_plus_full, Z.mod_small; lia.
Qed.

(** X15. [pluginInit] stores its [size_t] counts into [int] fields: the
    stored rank and node counts are those of the caller exactly when these
    are at most [INT_MAX].  A node count above [INT_MAX] and up to
    [2^32 + 2] is stored as a number of at most two, and the engine then
    makes no recommendation, whatever it is asked. *)
Theorem X15_init_narrows_counts nRanks nNodes :
  size_range nRanks -> size_range nNodes ->
  exists ctx,
    pluginInit true nRanks nNodes = (ncclSuccess, Some ctx)
    /\ params ctx = session_params
    /\ int_range (num_ranks (dims ctx)) /\ int_range (num_nodes (dims ctx))
    /\ (num_ranks (dims ctx) = nRanks <-> nRanks <= INT_MAX)
    /\ (num_nodes (dims ctx) = nNodes <-> nNodes <= INT_MAX)
    /\ (INT_MAX < nNodes < 2 ^ 32 + 3 ->
        forall collType nBytes collNetSupport nvlsSupport numPipeOps out0,
          pluginGetCollInfo ctx collType nBytes collNetSupport nvlsSupport
            numPipeOps out0 = Some (ncclSuccess, out0, [])).
Proof.
  intros Hr Hn. unfold size_range in *.
  eexists. split; [reflexivity|]. cbn [params dims num_ranks num_nodes].
  split; [reflexivity|].
  split; [apply wrap32_range|]. split; [apply wrap32_range|].
  assert (Hiff : forall z, 0 <= z -> (wrap32 z = z <-> z <= INT_MAX)).
  { intros z Hz. split.
    - intros <-. apply wrap32_range.
    - intros H. apply wrap32_small. unfold int_range, INT_MIN. lia. }
  split; [apply Hiff; lia|]. split; [apply Hiff; lia|].
  intros Hbig collType nBytes cn nv pipe out0.
  unfold pluginGetCollInfo. cbn [dims num_nodes].
  destruct (wrap32_above nNodes Hbig) as [_ Hle].
  now replace (wrap32 nNodes <=? 2) with true by (symmetry; lia).
Qed.

Lemma X15_init_narrows_counts_witness :
  exists ctx,
    pluginInit true (2 ^ 33) (2 ^ 31 + 8) = (ncclSuccess, Some ctx)
    /\ params ctx = session_params
    /\ int_range (num_ranks (dims ctx)) /\ int_range (num_nodes (dims ctx))
    /\ (num_ranks (dims ctx) = 2 ^ 33 <-> 2 ^ 33 <= INT_MAX)
    /\ (num_nodes (dims ctx) = 2 ^ 31 + 8 <-> 2 ^ 31 + 8 <= INT_MAX)
    /\ (INT_MAX < 2 ^ 31 + 8 < 2 ^ 32 + 3 ->
        forall collType nBytes collNetSupport nvlsSupport numPipeOps out0,
          pluginGetCollInfo ctx collType nBytes collNetSupport nvlsSupport
            numPipeOps out0 = Some (ncclSuccess, out0, [])).
Proof.
  apply (X15_init_narrows_counts (2 ^ 33) (2 ^ 31 + 8)).
  - vm_compute. split; discriminate.
  - vm_compute. split; discriminate.
Defined.

(** ** The flag [nvlsSupport] *)

Lemma selection_app (cost : Z * Z -> option float) (l1 l2 : list (Z * Z)) :
  forall best low,
    selection cost (l1 ++ l2) best low
    = bind (selection cost l1 best low)
        (fun r => selection cost l2 (fst r) (snd r)).
Proof.
  induction l1 as [| ap l1 IH]; intros best low; [reflexivity|].
  cbn [app selection]. destruct (cost ap) as [c |]; [|reflexivity].
  cbn [bind].
  destruct (Binary32.ltb c Binary32.zero); [now apply IH|].
  destruct (Binary32.ltb c low); now apply IH.
Qed.

Lemma admissible_nvls (cn : bool) :
  admissible cn true
  = admissible cn false ++ [(NCCL_ALGO_NVLS_TREE, NCCL_PROTO_SIMPLE)].
Proof. destruct cn; reflexivity. Qed.

(** X16. Setting [nvlsSupport] adds one candidate, enumerated last: with
    more than two nodes, the pairs submitted to the cost function with the
    flag set are those submitted with the flag clear, in the same order,
    followed by the fast-fabric tree under the full-payload protocol (with
    at most two nodes nothing is submitted either way); and the engine
    returns either what it returns with the flag clear, or this last pair,
    the latter only if its cost is not negative. *)
Theorem X16_nvls_support_adds_one_candidate ctx collType nBytes
    collNetSupport nvlsSupport numPipeOps out0 :
  int_range (num_nodes (dims ctx)) -> nvlsSupport <> 0 ->
  exists out1 out2 tr1 tr2,
    pluginGetCollInfo ctx collType nBytes collNetSupport 0 numPipeOps out0
    = Some (ncclSuccess, out1, tr1)
    /\ pluginGetCollInfo ctx collType nBytes collNetSupport nvlsSupport
         numPipeOps out0 = Some (ncclSuccess, out2, tr2)
    /\ (num_nodes (dims ctx) <= 2 -> tr1 = [] /\ tr2 = [])
    /\ (2 < num_nodes (dims ctx) ->
        tr1 = admissible (truth collNetSupport) false
        /\ tr2 = tr1 ++ [(NCCL_ALGO_NVLS_TREE, NCCL_PROTO_SIMPLE)])
    /\ (out2 = out1
        \/ (out2 = recommend out0 (NCCL_ALGO_NVLS_TREE, NCCL_PROTO_SIMPLE)
            /\ exists c,
                 cost_of ctx collType nBytes numPipeOps
                   (NCCL_ALGO_NVLS_TREE, NCCL_PROTO_SIMPLE) = Some c
                 /\ Binary32.ltb c Binary32.zero = false)).
Proof.
  intros Hr Hnv.
  destruct (Z_le_gt_dec (num_nodes (dims ctx)) 2) as [Hle | Hgt].
  - exists out0, out0, [], []. unfold pluginGetCollInfo.
    replace (num_nodes (dims ctx) <=? 2) with true by (symmetry; lia).
    split; [reflexivity|]. split; [reflexivity|].
    split; [auto|]. split; [intros H; lia | now left].
  - assert (Hn : 2 < num_nodes (dims ctx)) by lia.
    rewrite !pluginGetCollInfo_selection by exact Hn.
    assert (Ht : truth nvlsSupport = true)
      by (unfold truth; now apply negb_true_iff, Z.eqb_neq).
    rewrite Ht. change (truth 0) with false.
    rewrite admissible_nvls, selection_app.
    destruct (selection_defined (cost_of ctx collType nBytes numPipeOps)
                (admissible (truth collNetSupport) false)
                (fun ap Hin => cost_of_defined ctx collType nBytes
                                 numPipeOps _ _ ap Hn Hr Hin)
                None Binary32.FLT_MAX) as [[choice low] ->].
    cbn [bind fst snd selection].
    destruct (cost_of_defined ctx collType nBytes numPipeOps
                (truth collNetSupport) true
                (NCCL_ALGO_NVLS_TREE, NCCL_PROTO_SIMPLE) Hn Hr)
      as [c Hc].
    { rewrite admissible_nvls. apply in_or_app. right. now left. }
    rewrite Hc. cbn [bind].
    destruct (Binary32.ltb c Binary32.zero) eqn:Hneg.
    + cbn [bind fst]. do 4 eexists.
      split; [reflexivity|]. split; [reflexivity|].
      split; [lia|]. split; [auto|]. now left.
    + destruct (Binary32.ltb c low); cbn [bind fst recommended];
        do 4 eexists;
        (split; [reflexivity|]); (split; [reflexivity|]);
        (split; [lia|]); (split; [auto|]).
      * right. split; [reflexivity|]. now exists c.
      * now left.
Qed.

Lemma X16_nvls_support_adds_one_candidate_witness :
  exists out1 out2 tr1 tr2,
    pluginGetCollInfo (session 64 8) ncclFuncAllReduce (2 ^ 20) 0 0 1
      {| algorithm := -1; protocol := -1; nChannels := 0 |}
    = Some (ncclSuccess, out1, tr1)
    /\ pluginGetCollInfo (session 64 8) ncclFuncAllReduce (2 ^ 20) 0 1 1
         {| algorithm := -1; protocol := -1; nChannels := 0 |}
       = Some (ncclSuccess, out2, tr2)
    /\ (num_nodes (dims (session 64 8)) <= 2 -> tr1 = [] /\ tr2 = [])
    /\ (2 < num_nodes (dims (session 64 8)) ->
        tr1 = admissible (truth 0) false
        /\ tr2 = tr1 ++ [(NCCL_ALGO_NVLS_TREE, NCCL_PROTO_SIMPLE)])
    /\ (out2 = out1
        \/ (out2 = recommend
                     {| algorithm := -1; protocol := -1; nChannels := 0 |}
                     (NCCL_ALGO_NVLS_TREE, NCCL_PROTO_SIMPLE)
            /\ exists c,
                 cost_of (session 64 8) ncclFuncAllReduce (2 ^ 20) 1
                   (NCCL_ALGO_NVLS_TREE, NCCL_PROTO_SIMPLE) = Some c
                 /\ Binary32.ltb c Binary32.zero = false)).
Proof.
  apply (X16_nvls_support_adds_one_candidate (session 64 8)
           ncclFuncAllReduce (2 ^ 20) 0 1 1).
  - vm_compute. split; discriminate.
  - discriminate.
Defined.

(** ** More ranks never cost less *)

Lemma of_Z_mono (a b k : Z) :
  0 <= k <= 127 -> Z.abs a <= 2 ^ k -> Z.abs b <= 2 ^ k -> a <= b ->
  ulps (Binary32.of_Z a) <= ulps (Binary32.of_Z b).
Proof.
  intros Hk Ha Hb Hle.
  destruct (within_of_Z a k Hk Ha) as [_ ->].
  destruct (within_of_Z b k Hk Hb) as [_ ->].
  apply round_units_mono; nia.
Qed.

Lemma mul_mono_l (a b : Z) (x x' y : float) :
  within a x -> within a x' -> within b y ->
  0 <= a + 149 -> 0 <= b + 149 -> 0 <= a + b + 149 -> a + b <= 127 ->
  0 <= ulps y -> ulps x <= ulps x' ->
  ulps (Binary32.mul x y) <= ulps (Binary32.mul x' y).
Proof.
  intros Wx Wx' Wy Ha Hb Hab Hk Hy Hle.
  destruct (within_mul a b x y Wx Wy Ha Hb Hab Hk) as [_ ->].
  destruct (within_mul a b x' y Wx' Wy Ha Hb Hab Hk) as [_ ->].
  apply round_units_mono; try lia.
  apply Z.mul_le_mono_nonneg_r; [lia|].
  now apply Z.mul_le_mono_nonneg_r.
Qed.

Lemma mul_mono_r (a b : Z) (x y y' : float) :
  within a x -> within b y -> within b y' ->
  0 <= a + 149 -> 0 <= b + 149 -> 0 <= a + b + 149 -> a + b <= 127 ->
  0 <= ulps x -> ulps y <= ulps y' ->
  ulps (Binary32.mul x y) <= ulps (Binary32.mul x y').
Proof.
  intros Wx Wy Wy' Ha Hb Hab Hk Hx Hle.
  destruct (within_mul a b x y Wx Wy Ha Hb Hab Hk) as [_ ->].
  destruct (within_mul a b x y' Wx Wy' Ha Hb Hab Hk) as [_ ->].
  apply round_units_mono; try lia.
  apply Z.mul_le_mono_nonneg_r; [lia|].
  now apply Z.mul_le_mono_nonneg_l.
Qed.

Lemma add_mono (a b : Z) (x x' y y' : float) :
  within a x -> within a x' -> within b y -> within b y' ->
  0 <= a + 149 -> 0 <= b + 149 -> Z.max a b + 1 <= 127 ->
  ulps x <= ulps x' -> ulps y <= ulps y' ->
  ulps (Binary32.add x y) <= ulps (Binary32.add x' y').
Proof.
  intros Wx Wx' Wy Wy' Ha Hb Hk Hx Hy.
  destruct (within_add a b x y Wx Wy Ha Hb Hk) as [_ ->].
  destruct (within_add a b x' y' Wx' Wy' Ha Hb Hk) as [_ ->].
  apply round_units_mono; lia.
Qed.

Lemma ring_latency_monotone (b v : float) (r1 r2 n : Z) :
  within 4 b -> within 5 v -> 0 <= ulps v ->
  1 <= n <= r1 -> r1 <= r2 -> r2 < 2 ^ 30 ->
  ulps (ring_latency b v (net_lat session_params) r1 n)
  <= ulps (ring_latency b v (net_lat session_params) r2 n).
Proof.
  intros Wb Wv Hv Hn Hle Hr. unfold ring_latency.
  destruct session_net_lat as [Wnet Unet].
  unfold ring_intranode_steps, ring_total_steps, ring_internode_steps.
  set (inter := 2 * n).
  set (intra1 := 2 * (r1 - 1) - inter). set (intra2 := 2 * (r2 - 1) - inter).
  assert (Hinter : 2 <= inter < 2 ^ 31) by (unfold inter; lia).
  assert (Hintra1 : -2 <= intra1 < 2 ^ 31) by (unfold intra1, inter; lia).
  assert (Hintra2 : -2 <= intra2 < 2 ^ 31) by (unfold intra2, inter; lia).
  assert (Hii : intra1 <= intra2) by (unfold intra1, intra2; lia).
  clearbody inter intra1 intra2.
  destruct (within_of_Z inter 31 ltac:(lia) ltac:(lia)) as [W1 _].
  destruct (within_of_Z intra1 31 ltac:(lia) ltac:(lia)) as [W31 _].
  destruct (within_of_Z intra2 31 ltac:(lia) ltac:(lia)) as [W32 _].
  destruct (within_mul 31 2 _ _ W1 Wnet ltac:(lia) ltac:(lia) ltac:(lia)
              ltac:(lia)) as [W2 _].
  destruct (within_mul 31 5 _ _ W31 Wv ltac:(lia) ltac:(lia) ltac:(lia)
              ltac:(lia)) as [W41 _].
  destruct (within_mul 31 5 _ _ W32 Wv ltac:(lia) ltac:(lia) ltac:(lia)
              ltac:(lia)) as [W42 _].
  destruct (within_add (31 + 2) (31 + 5) _ _ W2 W41 ltac:(lia) ltac:(lia)
              ltac:(cbn; lia)) as [W51 _].
  destruct (within_add (31 + 2) (31 + 5) _ _ W2 W42 ltac:(lia) ltac:(lia)
              ltac:(cbn; lia)) as [W52 _].
  apply (add_mono 4 (Z.max (31 + 2) (31 + 5) + 1)); try assumption;
    try (cbn; lia).
  apply (add_mono (31 + 2) (31 + 5)); try assumption; try (cbn; lia).
  apply (mul_mono_l 31 5); try assumption; try lia.
  apply (of_Z_mono _ _ 31); lia.
Qed.

Lemma tree_latency_monotone (b v : float) (r1 r2 n : Z) :
  within 4 b -> within 5 v -> 0 <= ulps v ->
  1 <= n <= r1 -> r1 <= r2 -> r2 < 2 ^ 30 ->
  ulps (tree_latency b v (net_lat session_params) r1 n)
  <= ulps (tree_latency b v (net_lat session_params) r2 n).
Proof.
  intros Wb Wv Hv Hn Hle Hr. unfold tree_latency.
  destruct session_net_lat as [Wnet Unet].
  assert (Hq : forall r, n <= r -> r < 2 ^ 30 -> 0 <= r ÷ n - 1 <= 2 ^ 31).
  { intros r H1 H2. rewrite Z.quot_div_nonneg by lia.
    assert (1 <= r / n) by (apply Z.div_le_lower_bound; lia).
    assert (r / n <= r) by (apply Z.div_le_upper_bound; nia).
    lia. }
  assert (Hqq : r1 ÷ n - 1 <= r2 ÷ n - 1).
  { rewrite !Z.quot_div_nonneg by lia.
    assert (r1 / n <= r2 / n) by (apply Z.div_le_mono; lia). lia. }
  pose proof (Hq r1 ltac:(lia) ltac:(lia)) as Hq1.
  pose proof (Hq r2 ltac:(lia) ltac:(lia)) as Hq2.
  assert (Hl : 0 <= Z.log2 n <= 2 ^ 5).
  { split; [apply Z.log2_nonneg|].
    assert (Z.log2 n < 30) by (apply Z.log2_lt_pow2; lia). lia. }
  destruct (of_Z_nonneg (r1 ÷ n - 1) 31 ltac:(lia) Hq1) as [W11 _].
  destruct (of_Z_nonneg (r2 ÷ n - 1) 31 ltac:(lia) Hq2) as [W12 _].
  destruct (of_Z_nonneg (Z.log2 n) 5 ltac:(lia) Hl) as [W2 _].
  destruct (of_Z_nonneg 2 1 ltac:(lia) ltac:(lia)) as [W3 N3].
  destruct (within_mul 31 5 _ _ W11 Wv ltac:(lia) ltac:(lia) ltac:(lia)
              ltac:(lia)) as [W41 _].
  destruct (within_mul 31 5 _ _ W12 Wv ltac:(lia) ltac:(lia) ltac:(lia)
              ltac:(lia)) as [W42 _].
  destruct (within_mul 5 2 _ _ W2 Wnet ltac:(lia) ltac:(lia) ltac:(lia)
              ltac:(lia)) as [W5 _].
  destruct (within_add (31 + 5) (5 + 2) _ _ W41 W5 ltac:(lia) ltac:(lia)
              ltac:(cbn; lia)) as [W61 _].
  destruct (within_add (31 + 5) (5 + 2) _ _ W42 W5 ltac:(lia) ltac:(lia)
              ltac:(cbn; lia)) as [W62 _].
  destruct (within_mul 1 (Z.max (31 + 5) (5 + 2) + 1) _ _ W3 W61 ltac:(lia)
              ltac:(cbn; lia) ltac:(cbn; lia) ltac:(cbn; lia)) as [W71 _].
  destruct (within_mul 1 (Z.max (31 + 5) (5 + 2) + 1) _ _ W3 W62 ltac:(lia)
              ltac:(cbn; lia) ltac:(cbn; lia) ltac:(cbn; lia)) as [W72 _].
  apply (add_mono 4 (1 + (Z.max (31 + 5) (5 + 2) + 1))); try assumption;
    try (cbn; lia).
  apply (mul_mono_r 1 (Z.max (31 + 5) (5 + 2) + 1)); try assumption;
    try (cbn; lia).
  apply (add_mono (31 + 5) (5 + 2)); try assumption; try (cbn; lia).
  apply (mul_mono_l 31 5); try assumption; try lia.
  apply (of_Z_mono _ _ 31); lia.
Qed.

(** The cost does not decrease with the latency, for a pipeline depth that
    is not negative. *)
Lemma total_cost_monotone_latency l1 l2 pipe_ops size proto bw :
  within 39 l1 -> within 39 l2 -> ulps l1 <= ulps l2 ->
  0 <= pipe_ops <= INT_MAX -> size_range size ->
  bw = ring_bandwidth session_params \/ bw = tree_bandwidth session_params ->
  Binary32.leb (total_cost l1 pipe_ops size proto bw)
    (total_cost l2 pipe_ops size proto bw) = true.
Proof.
  intros W1 W2 Hle Hp Hs Hbw.
  assert (Hp' : int_range pipe_ops)
    by (unfold int_range, INT_MIN, INT_MAX in *; lia).
  destruct (total_cost_units l1 pipe_ops size proto bw W1 Hp' Hs Hbw)
    as [[Hf1 _] U1].
  destruct (total_cost_units l2 pipe_ops size proto bw W2 Hp' Hs Hbw)
    as [[Hf2 _] U2].
  rewrite leb_ulps by assumption. apply Z.leb_le. rewrite U1, U2.
  apply round_units_mono; try lia.
  rewrite !Z.mul_1_r. apply Z.add_le_mono_r.
  pose proof (proj1 (round_units_sign (pipe_ops * 2 ^ 149) 1 ltac:(lia))
                ltac:(nia)) as HP.
  apply round_units_mono; try lia.
  apply Z.mul_le_mono_nonneg_r; [lia|].
  now apply Z.mul_le_mono_nonneg_r.
Qed.

(** X17. With the parameters of [pluginInit], a fixed node count and
    [1 <= nodeCount <= r1 <= r2 < 2^30], a pipeline depth that is not
    negative and everything else fixed, the cost for [r2] ranks is at least
    the cost for [r1] ranks: more ranks never make a collective cheaper. *)
Theorem X17_cost_monotone_in_rank_count n r1 r2 func algo proto pipe_ops size
    c1 :
  1 <= n <= r1 -> r1 <= r2 -> r2 < 2 ^ 30 ->
  0 <= pipe_ops <= INT_MAX -> size_range size ->
  nccl_tuner_compute_cost session_params {| num_ranks := r1; num_nodes := n |}
    func algo proto pipe_ops size = Some c1 ->
  exists c2,
    nccl_tuner_compute_cost session_params
      {| num_ranks := r2; num_nodes := n |} func algo proto pipe_ops size
    = Some c2
    /\ Binary32.leb c1 c2 = true.
Proof.
  intros Hn Hle Hr Hp Hs H1.
  destruct (compute_cost_shape _ _ _ _ _ _ _ _ H1)
    as (b & v & x & Hb & Hv & _ & _).
  pose proof (base_lat_in_table _ _ _ Hb) as Ht.
  destruct (table_entries _ _ Ht) as (b' & v' & Hb' & Hv' & Wb & Wv & Nb & Nv).
  rewrite Hb in Hb'. rewrite Hv in Hv'.
  apply some_inj in Hb'. apply some_inj in Hv'. subst b' v'.
  assert (Hmodel :
            func <> ncclFuncAllReduce
            \/ (algo <> NCCL_ALGO_RING /\ algo <> NCCL_ALGO_TREE
                /\ algo <> NCCL_ALGO_NVLS_TREE)
            \/ (func = ncclFuncAllReduce
                /\ (algo = NCCL_ALGO_RING \/ algo = NCCL_ALGO_TREE
                    \/ algo = NCCL_ALGO_NVLS_TREE))).
  { destruct func; try (left; discriminate).
    destruct (Z.eq_dec algo NCCL_ALGO_RING); [right; right; auto|].
    destruct (Z.eq_dec algo NCCL_ALGO_TREE); [right; right; auto|].
    destruct (Z.eq_dec algo NCCL_ALGO_NVLS_TREE); [right; right; auto|].
    right. left. auto. }
  assert (Hsentinel :
            func <> ncclFuncAllReduce
            \/ (algo <> NCCL_ALGO_RING /\ algo <> NCCL_ALGO_TREE
                /\ algo <> NCCL_ALGO_NVLS_TREE) ->
            exists c2,
              nccl_tuner_compute_cost session_params
                {| num_ranks := r2; num_nodes := n |} func algo proto
                pipe_ops size = Some c2
              /\ Binary32.leb c1 c2 = true).
  { intros Hno.
    rewrite (compute_cost_no_model _ _ _ _ _ _ _ Ht Hno) in H1.
    apply some_inj in H1. subst c1.
    rewrite (compute_cost_no_model _ _ _ _ _ _ _ Ht Hno).
    eexists. split; reflexivity. }
  destruct Hmodel as [Hf | [Ha | [-> Ha]]]; [now auto | now auto |].
  clear Hsentinel.
  set (d1 := {| num_ranks := r1; num_nodes := n |}) in *.
  set (d2 := {| num_ranks := r2; num_nodes := n |}).
  assert (Hsw : exists l1 l2 bw,
             cost_switch session_params d1 ncclFuncAllReduce algo b v
               (net_lat session_params) = Some (Break l1 bw)
             /\ cost_switch session_params d2 ncclFuncAllReduce algo b v
                  (net_lat session_params) = Some (Break l2 bw)
             /\ ulps l1 <= ulps l2).
  { destruct Ha as [-> | [-> | ->]].
    - rewrite !cost_switch_ring
        by (unfold ring_steps_fit, int_range, INT_MIN, INT_MAX,
              ring_intranode_steps, ring_internode_steps, ring_total_steps;
            cbn [d1 d2 num_ranks num_nodes]; lia).
      do 3 eexists. split; [reflexivity|]. split; [reflexivity|].
      cbn [d1 d2 num_ranks num_nodes].
      now apply ring_latency_monotone.
    - rewrite !cost_switch_tree
        by (unfold INT_MAX; cbn [d1 d2 num_ranks num_nodes]; lia).
      do 3 eexists. split; [reflexivity|]. split; [reflexivity|].
      cbn [d1 d2 num_ranks num_nodes].
      now apply tree_latency_monotone.
    - rewrite !cost_switch_nvls_tree
        by (unfold INT_MAX; cbn [d1 d2 num_ranks num_nodes]; lia).
      do 3 eexists. split; [reflexivity|]. split; [reflexivity|].
      cbn [d1 d2 num_ranks num_nodes]. lia. }
  destruct Hsw as (l1 & l2 & bw & Hx1 & Hx2 & Hl).
  destruct (session_latency_nonneg d1 _ _ _ _ _ _ _ ltac:(cbn; lia)
              ltac:(cbn; lia) Hb Hv Hx1) as (W1 & _ & Hbw).
  destruct (session_latency_nonneg d2 _ _ _ _ _ _ _ ltac:(cbn; lia)
              ltac:(cbn; lia) Hb Hv Hx2) as (W2 & _ & _).
  rewrite (compute_cost_break _ _ _ _ _ pipe_ops size b v l1 bw Hb Hv Hx1)
    in H1.
  apply some_inj in H1. subst c1.
  rewrite (compute_cost_break _ _ _ _ _ pipe_ops size b v l2 bw Hb Hv Hx2).
  eexists. split; [reflexivity|].
  now apply total_cost_monotone_latency.
Qed.

Lemma X17_cost_monotone_in_rank_count_witness :
  exists c2,
    nccl_tuner_compute_cost session_params
      {| num_ranks := 128; num_nodes := 8 |} ncclFuncAllReduce NCCL_ALGO_RING
      NCCL_PROTO_SIMPLE 1 (2 ^ 20) = Some c2
    /\ Binary32.leb (S754_finite false 14143347 (-15)) c2 = true.
Proof.
  apply (X17_cost_monotone_in_rank_count 8 64 128 ncclFuncAllReduce
           NCCL_ALGO_RING NCCL_PROTO_SIMPLE 1 (2 ^ 20)).
  - lia.
  - lia.
  - lia.
  - vm_compute. split; discriminate.
  - vm_compute. split; discriminate.
  - vm_compute. reflexivity.
Defined.

(** ** The empty request *)

Lemma empty_request_cost dims func algo proto c :
  int_range (num_ranks dims) -> int_range (num_nodes dims) ->
  nccl_tuner_compute_cost session_params dims func algo proto 0 0 = Some c ->
  finite32 c = true /\ (c = Binary32.minus_one \/ ulps c = 0).
Proof.
  intros Hr Hn Hc.
  destruct (compute_cost_shape _ _ _ _ _ _ _ _ Hc)
    as (b & v & x & Hb & Hv & Hx & ->).
  pose proof (base_lat_in_table _ _ _ Hb) as Ht.
  destruct (table_entries _ _ Ht) as (b' & v' & Hb' & Hv' & Wb & Wv & _).
  rewrite Hb in Hb'. rewrite Hv in Hv'.
  apply some_inj in Hb'. apply some_inj in Hv'. subst b' v'.
  pose proof (cost_switch_within dims func algo b v x Hr Hn Wb Wv Hx) as Hsw.
  destruct x as [c | latency bw].
  - subst c. split; [reflexivity | now left].
  - destruct Hsw as [Wl Hbw].
    assert (H0 : int_range 0)
      by (unfold int_range, INT_MIN, INT_MAX; lia).
    destruct (total_cost_zero_payload latency 0 proto bw Wl H0 Hbw)
      as [Hf He].
    split; [exact Hf|]. right.
    destruct (within_of_Z 0 31 ltac:(lia) ltac:(cbn; lia)) as [W0 U0].
    destruct (within_mul 39 31 _ _ Wl W0 ltac:(lia) ltac:(lia) ltac:(lia)
                ltac:(lia)) as [[Hfm _] Um].
    unfold Binary32.eqb, SFeqb in He.
    rewrite SFcompare_ulps in He by assumption.
    destruct (Z.compare_spec (ulps (total_cost latency 0 0 proto bw))
                (ulps (Binary32.mul latency (Binary32.of_Z 0))))
      as [Heq | Hlt | Hgt]; try discriminate.
    rewrite Heq, Um, U0. change (0 * 2 ^ 149) with 0.
    rewrite (round_units_zero 1) by lia. rewrite Z.mul_0_r.
    apply round_units_zero. lia.
Qed.

(** An incumbent of cost zero is never replaced. *)
Lemma selection_keeps_zero (cost : Z * Z -> option float) (l : list (Z * Z))
    (best : option (Z * Z)) (low : float) :
  finite32 low = true -> ulps low = 0 ->
  (forall ap, In ap l ->
     exists c, cost ap = Some c /\ finite32 c = true
               /\ (c = Binary32.minus_one \/ ulps c = 0)) ->
  selection cost l best low = Some (best, low).
Proof.
  intros Hf Hu. induction l as [| ap l IH]; intros Hl; [reflexivity|].
  cbn [selection].
  destruct (Hl ap (or_introl eq_refl)) as (c & -> & Hfc & Hc).
  cbn [bind].
  assert (IH' : selection cost l best low = Some (best, low))
    by (apply IH; intros ap' H; apply Hl; now right).
  destruct Hc as [-> | Hc]; [exact IH'|].
  rewrite (ltb_ulps c Binary32.zero) by (try exact Hfc; reflexivity).
  rewrite (ltb_ulps c low) by assumption.
  rewrite Hc, Hu. exact IH'.
Qed.

Lemma admissible_head (cn nv : bool) :
  exists rest, admissible cn nv = (NCCL_ALGO_TREE, NCCL_PROTO_LL) :: rest.
Proof. destruct cn, nv; eexists; reflexivity. Qed.

Lemma cost_switch_tree_break params dims b v interLat :
  2 < num_nodes dims -> int_range (num_nodes dims) ->
  exists latency bw,
    cost_switch params dims ncclFuncAllReduce NCCL_ALGO_TREE b v interLat
    = Some (Break latency bw).
Proof.
  intros Hn Hr. unfold int_range, INT_MIN, INT_MAX in Hr.
  unfold cost_switch.
  change (NCCL_ALGO_TREE =? NCCL_ALGO_RING) with false.
  change (NCCL_ALGO_TREE =? NCCL_ALGO_TREE) with true. cbv iota.
  unfold int_div.
  replace (num_nodes dims =? 0) with false by (symmetry; lia).
  replace (num_nodes dims =? -1) with false by (symmetry; lia).
  rewrite andb_false_r. cbn [bind].
  rewrite log2i_spec by lia. cbn [bind]. eauto.
Qed.

(** Each of the three models leaves the [switch] with a latency, on every
    topology with more than two nodes. *)
Lemma cost_switch_model_break params dims algo b v interLat :
  2 < num_nodes dims -> int_range (num_nodes dims) ->
  algo = NCCL_ALGO_TREE \/ algo = NCCL_ALGO_RING
  \/ algo = NCCL_ALGO_NVLS_TREE ->
  exists latency bw,
    cost_switch params dims ncclFuncAllReduce algo b v interLat
    = Some (Break latency bw).
Proof.
  intros Hn Hr [-> | [-> | ->]].
  - now apply cost_switch_tree_break.
  - unfold cost_switch.
    change (NCCL_ALGO_RING =? NCCL_ALGO_RING) with true. cbv iota. eauto.
  - unfold int_range, INT_MIN, INT_MAX in Hr.
    rewrite cost_switch_nvls_tree by (unfold INT_MAX; lia). eauto.
Qed.

(** With no payload and no pipelined operation each of the three models
    costs zero. *)
Lemma empty_request_model_cost dims algo proto :
  int_range (num_ranks dims) -> int_range (num_nodes dims) ->
  2 < num_nodes dims -> in_table algo proto ->
  algo = NCCL_ALGO_TREE \/ algo = NCCL_ALGO_RING
  \/ algo = NCCL_ALGO_NVLS_TREE ->
  exists c,
    nccl_tuner_compute_cost session_params dims ncclFuncAllReduce algo proto
      0 0 = Some c
    /\ finite32 c = true /\ ulps c = 0
    /\ Binary32.eqb c Binary32.zero = true.
Proof.
  intros Hrr Hrn Hn Ht Ha.
  destruct (table_entries _ _ Ht) as (b & v & Hb & Hv & Wb & Wv & _).
  destruct (cost_switch_model_break session_params dims algo b v
              (net_lat session_params) Hn Hrn Ha) as (latency & bw & Hx).
  rewrite (compute_cost_break _ _ _ _ _ 0 0 b v latency bw Hb Hv Hx).
  eexists. split; [reflexivity|].
  destruct (cost_switch_within _ _ _ b v _ Hrr Hrn Wb Wv Hx) as [Wl Hbw].
  destruct (total_cost_zero_payload latency 0 proto bw Wl
              ltac:(unfold int_range, INT_MIN, INT_MAX; lia) Hbw)
    as [Hf He].
  destruct (within_of_Z 0 31 ltac:(lia) ltac:(cbn; lia)) as [W0 U0].
  destruct (within_mul 39 31 _ _ Wl W0 ltac:(lia) ltac:(lia) ltac:(lia)
              ltac:(lia)) as [[Hfm _] Um].
  assert (Hu : ulps (total_cost latency 0 0 proto bw) = 0).
  { unfold Binary32.eqb, SFeqb in He.
    rewrite SFcompare_ulps in He by assumption.
    destruct (Z.compare_spec (ulps (total_cost latency 0 0 proto bw))
                (ulps (Binary32.mul latency (Binary32.of_Z 0))))
      as [Heq | Hlt | Hgt]; try discriminate.
    rewrite Heq, Um, U0. change (0 * 2 ^ 149) with 0.
    rewrite (round_units_zero 1) by lia. rewrite Z.mul_0_r.
    apply round_units_zero. lia. }
  split; [exact Hf|]. split; [exact Hu|].
  unfold Binary32.eqb, SFeqb.
  rewrite SFcompare_ulps by (try exact Hf; reflexivity).
  now rewrite Hu.
Qed.

(** X18. An all-reduce of zero bytes with zero pipelined operations costs
    zero under every model (tree, ring and fast-fabric tree, under every
    protocol; the pairs without a model keep the sentinel -1), and the tie
    goes to the pair enumerated first: on every topology built by
    [pluginInit] with more than two nodes the engine submits the admissible
    pairs and recommends the tree under the LL protocol. *)
Theorem X18_empty_request_recommends_first_pair nRanks nNodes collNetSupport
    nvlsSupport out0 :
  2 < num_nodes (dims (session nRanks nNodes)) ->
  exists tr,
    pluginGetCollInfo (session nRanks nNodes) ncclFuncAllReduce 0
      collNetSupport nvlsSupport 0 out0
    = Some (ncclSuccess, recommend out0 (NCCL_ALGO_TREE, NCCL_PROTO_LL), tr)
    /\ tr = admissible (truth collNetSupport) (truth nvlsSupport)
    /\ (forall algo proto,
          in_table algo proto ->
          exists c,
            nccl_tuner_compute_cost session_params
              (dims (session nRanks nNodes)) ncclFuncAllReduce algo proto 0 0
            = Some c
            /\ (algo = NCCL_ALGO_TREE \/ algo = NCCL_ALGO_RING
                \/ algo = NCCL_ALGO_NVLS_TREE ->
                finite32 c = true /\ Binary32.eqb c Binary32.zero = true)
            /\ (algo <> NCCL_ALGO_TREE /\ algo <> NCCL_ALGO_RING
                /\ algo <> NCCL_ALGO_NVLS_TREE ->
                c = Binary32.minus_one)).
Proof.
  intros Hn.
  assert (Hrr : int_range (num_ranks (dims (session nRanks nNodes))))
    by apply wrap32_range.
  assert (Hrn : int_range (num_nodes (dims (session nRanks nNodes))))
    by apply wrap32_range.
  assert (Hcosts : forall algo proto,
             in_table algo proto ->
             exists c,
               nccl_tuner_compute_cost session_params
                 (dims (session nRanks nNodes)) ncclFuncAllReduce algo proto
                 0 0 = Some c
               /\ (algo = NCCL_ALGO_TREE \/ algo = NCCL_ALGO_RING
                   \/ algo = NCCL_ALGO_NVLS_TREE ->
                   finite32 c = true
                   /\ Binary32.eqb c Binary32.zero = true)
               /\ (algo <> NCCL_ALGO_TREE /\ algo <> NCCL_ALGO_RING
                   /\ algo <> NCCL_ALGO_NVLS_TREE ->
                   c = Binary32.minus_one)).
  { intros algo proto Ht.
    destruct (Z.eq_dec algo NCCL_ALGO_TREE) as [E1 | E1];
      [|destruct (Z.eq_dec algo NCCL_ALGO_RING) as [E2 | E2];
        [|destruct (Z.eq_dec algo NCCL_ALGO_NVLS_TREE) as [E3 | E3]]].
    1-3: (destruct (empty_request_model_cost _ algo proto Hrr Hrn Hn Ht
                      ltac:(auto)) as (c & Hc & Hf & _ & He);
          exists c; split; [exact Hc|]; split; [auto|];
          intros (N1 & N2 & N3); contradiction).
    exists Binary32.minus_one. split.
    - apply compute_cost_no_model; auto.
    - split; [intros [A | [A | A]]; contradiction | reflexivity]. }
  rewrite pluginGetCollInfo_selection by exact Hn.
  assert (Hall : forall ap,
             In ap (admissible (truth collNetSupport) (truth nvlsSupport)) ->
             exists c,
               cost_of (session nRanks nNodes) ncclFuncAllReduce 0 0 ap
               = Some c
               /\ finite32 c = true
               /\ (c = Binary32.minus_one \/ ulps c = 0)).
  { intros ap Hin.
    destruct (cost_of_defined (session nRanks nNodes) ncclFuncAllReduce 0 0
                _ _ ap Hn Hrn Hin) as [c Hc].
    exists c. split; [exact Hc|].
    exact (empty_request_cost _ _ _ _ _ Hrr Hrn Hc). }
  destruct (admissible_head (truth collNetSupport) (truth nvlsSupport))
    as [rest Hrest].
  destruct (empty_request_model_cost (dims (session nRanks nNodes))
              NCCL_ALGO_TREE NCCL_PROTO_LL Hrr Hrn Hn
              ltac:(cbv; repeat split; discriminate) ltac:(auto))
    as (c & Hc & Hfc & Hu & _).
  assert (Hsel : selection
                   (cost_of (session nRanks nNodes) ncclFuncAllReduce 0 0)
                   (admissible (truth collNetSupport) (truth nvlsSupport))
                   None Binary32.FLT_MAX
                 = Some (Some (NCCL_ALGO_TREE, NCCL_PROTO_LL), c)).
  { rewrite Hrest. cbn [selection]. unfold cost_of at 1. cbn [fst snd].
    change (params (session nRanks nNodes)) with session_params.
    rewrite Hc. cbn [bind].
    rewrite (ltb_ulps c Binary32.zero) by (try exact Hfc; reflexivity).
    rewrite (ltb_ulps c Binary32.FLT_MAX) by (try exact Hfc; reflexivity).
    rewrite Hu. change (ulps Binary32.zero) with 0.
    change (0 <? 0) with false.
    change (0 <? ulps Binary32.FLT_MAX) with true. cbv iota.
    apply (selection_keeps_zero _ rest _ c Hfc Hu).
    intros ap Hin. apply Hall. rewrite Hrest. now right. }
  rewrite Hsel. cbn [bind fst recommended].
  eexists. split; [reflexivity|]. split; [reflexivity | exact Hcosts].
Qed.

Lemma X18_empty_request_recommends_first_pair_witness :
  exists tr,
    pluginGetCollInfo (session 64 8) ncclFuncAllReduce 0 1 1 0
      {| algorithm := -1; protocol := -1; nChannels := 0 |}
    = Some (ncclSuccess,
            recommend {| algorithm := -1; protocol := -1; nChannels := 0 |}
              (NCCL_ALGO_TREE, NCCL_PROTO_LL), tr)
    /\ tr = admissible (truth 1) (truth 1)
    /\ (forall algo proto,
          in_table algo proto ->
          exists c,
            nccl_tuner_compute_cost session_params (dims (session 64 8))
              ncclFuncAllReduce algo proto 0 0 = Some c
            /\ (algo = NCCL_ALGO_TREE \/ algo = NCCL_ALGO_RING
                \/ algo = NCCL_ALGO_NVLS_TREE ->
                finite32 c = true /\ Binary32.eqb c Binary32.zero = true)
            /\ (algo <> NCCL_ALGO_TREE /\ algo <> NCCL_ALGO_RING
                /\ algo <> NCCL_ALGO_NVLS_TREE ->
                c = Binary32.minus_one)).
Proof.
  apply (X18_empty_request_recommends_first_pair 64 8 1 1).
  vm_compute. reflexivity.
Defined.

(** ** The calls of the cost function *)

Lemma admissible_nodup (cn nv : bool) :
  NoDup (admissible cn nv) /\ (length (admissible cn nv) <= 13)%nat
  /\ forall ap, In ap (admissible cn nv) -> fst ap <> NCCL_ALGO_NVLS.
Proof.
  split; [|split].
  - destruct cn, nv; vm_compute;
      repeat (constructor; [cbn; intuition discriminate|]); constructor.
  - destruct cn, nv; vm_compute; lia.
  - intros ap Hin.
    destruct cn, nv; cbn in Hin;
      repeat (destruct Hin as [<- | Hin]; [discriminate|]); contradiction.
Qed.

(** X19. One call of the engine calls the cost function at most 13 times,
    never twice for the same pair, never for the intra-node-only algorithm,
    and only with indices inside the two latency tables, so that no call
    reads outside them. *)
Theorem X19_cost_evaluations_bounded ctx collType nBytes collNetSupport
    nvlsSupport numPipeOps out0 :
  int_range (num_nodes (dims ctx)) ->
  exists out' tr,
    pluginGetCollInfo ctx collType nBytes collNetSupport nvlsSupport
      numPipeOps out0 = Some (ncclSuccess, out', tr)
    /\ NoDup tr /\ (length tr <= 13)%nat
    /\ (forall ap, In ap tr ->
          in_table (fst ap) (snd ap) /\ fst ap <> NCCL_ALGO_NVLS
          /\ exists c, cost_of ctx collType nBytes numPipeOps ap = Some c).
Proof.
  intros Hr.
  destruct (pluginGetCollInfo_returns ctx collType nBytes collNetSupport
              nvlsSupport numPipeOps out0 Hr)
    as (out' & tr & H & _ & Hsmall & Hbig & _).
  exists out', tr. split; [exact H|].
  destruct (Z_le_gt_dec (num_nodes (dims ctx)) 2) as [Hle | Hgt].
  - destruct (Hsmall Hle) as [_ ->].
    split; [constructor|]. split; [cbn; lia|]. intros ap [].
  - assert (Hn : 2 < num_nodes (dims ctx)) by lia.
    rewrite (Hbig Hn).
    destruct (admissible_nodup (truth collNetSupport) (truth nvlsSupport))
      as (Hnd & Hlen & Hnvls).
    split; [exact Hnd|]. split; [exact Hlen|].
    intros ap Hin. split; [exact (admissible_in_table _ _ _ Hin)|].
    split; [exact (Hnvls ap Hin)|].
    exact (cost_of_defined ctx collType nBytes numPipeOps _ _ ap Hn Hr Hin).
Qed.

Lemma X19_cost_evaluations_bounded_witness :
  exists out' tr,
    pluginGetCollInfo (session 64 8) ncclFuncAllReduce (2 ^ 20) 1 1 1
      {| algorithm := -1; protocol := -1; nChannels := 0 |}
    = Some (ncclSuccess, out', tr)
    /\ NoDup tr /\ (length tr <= 13)%nat
    /\ (forall ap, In ap tr ->
          in_table (fst ap) (snd ap) /\ fst ap <> NCCL_ALGO_NVLS
          /\ exists c,
               cost_of (session 64 8) ncclFuncAllReduce (2 ^ 20) 1 ap
               = Some c).
Proof.
  apply (X19_cost_evaluations_bounded (session 64 8) ncclFuncAllReduce
           (2 ^ 20) 1 1 1).
  vm_compute. split; discriminate.
Defined.
